(** * loader.py: a shallow embedding of the 1925 meteorological file loader

    The development follows [scripts/loader.py] function by function:
    the header inspector ([_detect_separator], [_read_header]), the value
    parsers ([_parse_date_any], [_parse_float_messy]), the row tokenizer
    ([_read_rows_raw]) and the two public entry points ([load_one],
    [load_all]).

    Conventions of the embedding.
    - A Python [str] is a list of characters.  Characters are the bytes of
      the UTF-8 encoding of the text, so the em-dash is a three-byte
      constant.  Substring search, [split], [replace] and [startswith] with
      ASCII patterns act on the encoded text exactly as on the decoded one,
      since the bytes of a multi-byte character are never ASCII.  The
      character classes (whitespace for [strip], the digits of [\d], the
      letters changed by [lower]) are Python's on the ASCII range.
    - A file is the list of its lines as the [for line in f] loop yields
      them, each with its line terminator when it has one.
    - Exceptions are values: every function that can raise returns a
      [result]. *)

From Stdlib Require Import List Bool Ascii String Arith ZArith QArith Lia.
From Stdlib Require Import Qround Lqa Permutation Sorted.
Import ListNotations.

Close Scope Q_scope.
Open Scope string_scope.
Open Scope list_scope.
Open Scope nat_scope.

Abbreviation str := (list ascii).
Coercion list_ascii_of_string : string >-> list.

(** ** Exceptions *)

Inductive exn : Type :=
| ValueError (msg : str)
| IndexError (msg : str)
| KeyError (msg : str)
| TypeError (msg : str)
| AttributeError (msg : str).

Inductive result (A : Type) : Type :=
| Ok (a : A)
| Raise (e : exn).

Arguments Ok {A} a.
Arguments Raise {A} e.

Definition bind {A B : Type} (m : result A) (k : A -> result B) : result B :=
  match m with
  | Ok a => k a
  | Raise e => Raise e
  end.

Notation "x <- m ;; k" := (bind m (fun x => k))
  (at level 61, m at next level, right associativity).
Notation "' pat <- m ;; k" := (bind m (fun x => match x with pat => k end))
  (at level 61, pat pattern, m at next level, right associativity).

(** [[f(x) for x in xs]] where [f] may raise: the first exception wins. *)
Fixpoint mapM {A B : Type} (f : A -> result B) (xs : list A) : result (list B) :=
  match xs with
  | [] => Ok []
  | x :: xs' => y <- f x ;; ys <- mapM f xs' ;; Ok (y :: ys)
  end.

(** ** Python string primitives *)

Module PyStr.

Definition TAB : ascii := ascii_of_nat 9.
Definition NL : ascii := ascii_of_nat 10.

(** U+2014 EM DASH, encoded. *)
Definition em_dash : str := [ascii_of_nat 226; ascii_of_nat 128; ascii_of_nat 148].

(** [a == b] *)
Fixpoint eqb_str (a b : str) : bool :=
  match a, b with
  | [], [] => true
  | x :: a', y :: b' => Ascii.eqb x y && eqb_str a' b'
  | _, _ => false
  end.

(** [c.isspace()] on the ASCII range: TAB, LF, VT, FF, CR, FS, GS, RS, US
    and the blank. *)
Definition is_space (c : ascii) : bool :=
  let n := nat_of_ascii c in
  ((9 <=? n) && (n <=? 13)) || ((28 <=? n) && (n <=? 32)).

Definition is_digit (c : ascii) : bool :=
  let n := nat_of_ascii c in (48 <=? n) && (n <=? 57).

Definition digit_val (c : ascii) : Z := Z.of_nat (nat_of_ascii c) - 48.

(** [s.startswith(p)] *)
Fixpoint startswith (p s : str) : bool :=
  match p, s with
  | [], _ => true
  | _ :: _, [] => false
  | a :: p', b :: s' => Ascii.eqb a b && startswith p' s'
  end.

(** [p in s] *)
Fixpoint contains (p s : str) : bool :=
  startswith p s ||
  match s with
  | [] => false
  | _ :: s' => contains p s'
  end.

(** [s.lstrip()], [s.rstrip()], [s.strip()] *)
Fixpoint lstrip (s : str) : str :=
  match s with
  | [] => []
  | c :: s' => if is_space c then lstrip s' else s
  end.

Fixpoint rstrip (s : str) : str :=
  match s with
  | [] => []
  | c :: s' =>
      match rstrip s' with
      | [] => if is_space c then [] else [c]
      | r => c :: r
      end
  end.

Definition strip (s : str) : str := rstrip (lstrip s).

(** [s.rstrip("\n")] *)
Fixpoint rstrip_nl (s : str) : str :=
  match s with
  | [] => []
  | c :: s' =>
      match rstrip_nl s' with
      | [] => if Ascii.eqb c NL then [] else [c]
      | r => c :: r
      end
  end.

(** [s.lower()] *)
Definition lower_char (c : ascii) : ascii :=
  let n := nat_of_ascii c in
  if (65 <=? n) && (n <=? 90) then ascii_of_nat (n + 32) else c.

Definition lower (s : str) : str := map lower_char s.

(** [s.split(sep)] for a non-empty [sep]: occurrences are found left to
    right and do not overlap.  [skip] counts the characters of a matched
    separator that are still to be passed over. *)
Fixpoint split_from (sep : str) (skip : nat) (s : str) : list str :=
  match s with
  | [] => [[]]
  | c :: s' =>
      match skip with
      | S k => split_from sep k s'
      | O =>
          if startswith sep s
          then [] :: split_from sep (List.length sep - 1) s'
          else match split_from sep 0 s' with
               | p :: ps => (c :: p) :: ps
               | [] => [[c]]
               end
      end
  end.

Definition split (sep s : str) : list str := split_from sep 0 s.

(** [s.split(sep, 1)]: at most one cut, at the first occurrence. *)
Fixpoint cut_first (sep s : str) : option (str * str) :=
  if startswith sep s then Some ([], skipn (List.length sep) s)
  else match s with
       | [] => None
       | c :: s' =>
           match cut_first sep s' with
           | Some (a, b) => Some (c :: a, b)
           | None => None
           end
       end.

Definition split1 (sep s : str) : list str :=
  match cut_first sep s with
  | Some (a, b) => [a; b]
  | None => [s]
  end.

(** [s.replace(old, new)] for a non-empty [old]. *)
Fixpoint replace_from (old new : str) (skip : nat) (s : str) : str :=
  match s with
  | [] => []
  | c :: s' =>
      match skip with
      | S k => replace_from old new k s'
      | O =>
          if startswith old s
          then new ++ replace_from old new (List.length old - 1) s'
          else c :: replace_from old new 0 s'
      end
  end.

Definition replace (old new s : str) : str := replace_from old new 0 s.

(** [sep.join(parts)] *)
Fixpoint join (sep : str) (parts : list str) : str :=
  match parts with
  | [] => []
  | [p] => p
  | p :: ps => p ++ sep ++ join sep ps
  end.

(** [xs[i]] with a non-negative index. *)
Definition index {A : Type} (xs : list A) (i : nat) : result A :=
  match nth_error xs i with
  | Some x => Ok x
  | None => Raise (IndexError "list index out of range")
  end.

End PyStr.

Import PyStr.

(** ** Header and separator detection *)

(** A [pathlib.Path] as the loader uses it: its text (what an f-string
    shows) and its [stem], the base name without the last extension. *)
Record Path : Type := mkPath { path_text : str; path_stem : str }.

Record File : Type := mkFile { file_path : Path; file_lines : list str }.

(** [fields_line.split("fields=", 1)[1].strip()] *)
Definition fields_payload (fields_line : str) : result str :=
  after <- index (split1 "fields=" fields_line) 1 ;;
  Ok (strip after).

Definition _detect_separator (fields_line : str) : result str :=
  payload <- fields_payload fields_line ;;
  if contains [TAB] payload then Ok [TAB]
  else
    match find (fun sep : str => contains sep payload) ["|" : str; ";" : str; "," : str] with
    | Some sep => Ok sep
    | None => Ok ("," : str)
    end.

(** The [for line in f] loop of [_read_header].  It yields the final values
    of the two loop variables [station_name] and [fields_line]. *)
Fixpoint header_loop (lines : list str) (station_name : option str)
  : result (option str * option str) :=
  match lines with
  | [] => Ok (station_name, None)
  | line :: rest =>
      if negb (startswith "#" line) then Ok (station_name, None)
      else
        station_name' <-
          (if contains "station_name=" line
           then v <- index (split "station_name=" (strip line)) 1 ;; Ok (Some v)
           else Ok station_name) ;;
        if startswith "# fields=" line
        then Ok (station_name', Some (strip line))
        else header_loop rest station_name'
  end.

(** [station_name or path.stem]: an empty string is falsy. *)
Definition or_stem (station_name : option str) (p : Path) : str :=
  match station_name with
  | Some (c :: s) => c :: s
  | _ => path_stem p
  end.

Definition missing_fields_msg (p : Path) : str :=
  "Missing '# fields=' header in " ++ path_text p.

Definition _read_header (f : File) : result (str * str * list str) :=
  '(station_name, fields_line) <- header_loop (file_lines f) None ;;
  match fields_line with
  | None => Raise (ValueError (missing_fields_msg (file_path f)))
  | Some fl =>
      sep <- _detect_separator fl ;;
      after <- index (split1 "fields=" fl) 1 ;;
      let cols := map strip (split sep after) in
      Ok (or_stem station_name (file_path f), sep, cols)
  end.

(** ** Values held by the tables

    A floating-point number is identified with the decimal numeral it was
    read from, as a reduced fraction; the rounding of [float()] to binary64
    (and with it overflow and the sign of zero) is outside the model. *)

Record datetime : Type :=
  mkDT { dt_year : Z; dt_month : Z; dt_day : Z; dt_hour : Z; dt_minute : Z }.

Inductive cell : Type :=
| VStr (s : str)                 (* a Python str *)
| VNaN                           (* np.nan *)
| VFloat (q : Q)                 (* a finite float *)
| VNaT                           (* pd.NaT *)
| VTs (t : datetime)             (* a pd.Timestamp *)
| VDate (y m d : Z)              (* a datetime.date *)
| VTime (h mi : Z)               (* a datetime.time *)
| VNA                            (* pd.NA of a nullable integer column *)
| VInt (z : Z).                  (* an Int64 entry *)

(** [pd.isna(x)] on a scalar. *)
Definition isna (x : cell) : bool :=
  match x with
  | VNaN | VNaT | VNA => true
  | _ => false
  end.

(** [str(x)] where the parsers apply it.  They are applied to cells of a
    [dtype=str] table after the missing tokens were replaced, which hold
    text or NaN, and NaN is answered before [str] is reached; on text
    [str] is the identity. *)
Definition py_str (x : cell) : str :=
  match x with
  | VStr s => s
  | _ => []
  end.

(** ** [datetime.strptime] for the directives of [_DATE_FORMATS]

    CPython turns a format into a regular expression, matches it at the
    start of the text, rejects a match that leaves text over and then
    builds the date, which rejects a day the month does not have.  The
    directive patterns are
    [%Y = \d\d\d\d], [%m = 1[0-2]|0[1-9]|[1-9]] and
    [%d = 3[0-1]|[1-2]\d|0[1-9]|[1-9]| [1-9]]; alternatives are tried in
    the order written, with backtracking. *)

Module Strptime.

Inductive item : Type :=
| DirY | DirM | DirD
| Lit (c : ascii).

(** The format string, directive by directive. *)
Fixpoint compile (fmt : str) : list item :=
  match fmt with
  | [] => []
  | "%"%char :: "Y"%char :: rest => DirY :: compile rest
  | "%"%char :: "m"%char :: rest => DirM :: compile rest
  | "%"%char :: "d"%char :: rest => DirD :: compile rest
  | c :: rest => Lit c :: compile rest
  end.

Definition in_range (lo hi : nat) (c : ascii) : bool :=
  let n := nat_of_ascii c in (lo <=? n) && (n <=? hi).

(** One alternative made of two character classes. *)
Definition two (p1 p2 : ascii -> bool) (s : str) : list (Z * str) :=
  match s with
  | a :: b :: rest =>
      if p1 a && p2 b then [(10 * digit_val a + digit_val b, rest)%Z] else []
  | _ => []
  end.

(** The alternative [[1-9]]. *)
Definition one_nonzero (s : str) : list (Z * str) :=
  match s with
  | a :: rest => if in_range 49 57 a then [(digit_val a, rest)] else []
  | _ => []
  end.

(** The alternative [ [1-9]] (a blank, then a digit). *)
Definition blank_nonzero (s : str) : list (Z * str) :=
  match s with
  | a :: b :: rest =>
      if Ascii.eqb a " " && in_range 49 57 b then [(digit_val b, rest)] else []
  | _ => []
  end.

Definition alts_Y (s : str) : list (Z * str) :=
  match s with
  | a :: b :: c :: d :: rest =>
      if is_digit a && is_digit b && is_digit c && is_digit d
      then [(1000 * digit_val a + 100 * digit_val b + 10 * digit_val c + digit_val d,
             rest)%Z]
      else []
  | _ => []
  end.

Definition alts_m (s : str) : list (Z * str) :=
  two (in_range 49 49) (in_range 48 50) s
  ++ two (in_range 48 48) (in_range 49 57) s
  ++ one_nonzero s.

Definition alts_d (s : str) : list (Z * str) :=
  two (in_range 51 51) (in_range 48 49) s
  ++ two (in_range 49 50) is_digit s
  ++ two (in_range 48 48) (in_range 49 57) s
  ++ one_nonzero s
  ++ blank_nonzero s.

(** The first alternative from which the rest of the pattern matches. *)
Fixpoint first_some {A B : Type} (k : A -> option B) (xs : list A) : option B :=
  match xs with
  | [] => None
  | x :: xs' =>
      match k x with
      | Some y => Some y
      | None => first_some k xs'
      end
  end.

(** The groups found so far: year, month, day. *)
Definition groups : Type := (option Z * option Z * option Z)%type.

Fixpoint re_match (items : list item) (s : str) (g : groups) : option (groups * str) :=
  match items with
  | [] => Some (g, s)
  | Lit c :: items' =>
      match s with
      | c' :: s' => if Ascii.eqb c c' then re_match items' s' g else None
      | [] => None
      end
  | DirY :: items' =>
      first_some (fun '(v, rest) => let '(_, m, d) := g in re_match items' rest (Some v, m, d))
                 (alts_Y s)
  | DirM :: items' =>
      first_some (fun '(v, rest) => let '(y, _, d) := g in re_match items' rest (y, Some v, d))
                 (alts_m s)
  | DirD :: items' =>
      first_some (fun '(v, rest) => let '(y, m, _) := g in re_match items' rest (y, m, Some v))
                 (alts_d s)
  end.

Definition is_leap (y : Z) : bool :=
  ((y mod 4 =? 0) && (negb (y mod 100 =? 0) || (y mod 400 =? 0)))%Z.

Definition days_in_month (y m : Z) : Z :=
  if (m =? 2)%Z then (if is_leap y then 29 else 28)%Z
  else if ((m =? 4) || (m =? 6) || (m =? 9) || (m =? 11))%Z then 30%Z
  else 31%Z.

(** The checks of the [datetime] constructor. *)
Definition valid_date (y m d : Z) : bool :=
  ((1 <=? y) && (y <=? 9999) && (1 <=? m) && (m <=? 12)
   && (1 <=? d) && (d <=? days_in_month y m))%Z.

Definition strptime (data fmt : str) : result datetime :=
  match re_match (compile fmt) data (None, None, None) with
  | None => Raise (ValueError "time data does not match format")
  | Some ((y, m, d), rest) =>
      match rest with
      | _ :: _ => Raise (ValueError "unconverted data remains")
      | [] =>
          (* a directive the format lacks keeps its default *)
          let y := match y with Some v => v | None => 1900%Z end in
          let m := match m with Some v => v | None => 1%Z end in
          let d := match d with Some v => v | None => 1%Z end in
          if valid_date y m d then Ok (mkDT y m d 0 0)
          else Raise (ValueError "day is out of range for month")
      end
  end.

End Strptime.

(** ** Parsing helpers *)

Definition _DATE_FORMATS : list str :=
  [ "%Y-%m-%d" : str;
    "%d.%m.%Y" : str;
    "%Y/%m/%d" : str;
    "%d-%m-%Y" : str;
    "%m-%d-%Y" : str;
    "%Y.%m.%d" : str;
    "%m/%d/%Y" : str ].

(** The loop over the formats: [try ... break / except ValueError: continue].
    [None] is the [dt is None] left by a loop that never broke. *)
Fixpoint try_formats (date_part : str) (fmts : list str) : option datetime :=
  match fmts with
  | [] => None
  | fmt :: rest =>
      match Strptime.strptime date_part fmt with
      | Ok dt => Some dt
      | Raise _ => try_formats date_part rest
      end
  end.

(** [re.search(r"(\d{1,2}):(\d{2})", s)]: the leftmost position at which the
    pattern matches; [\d{1,2}] is greedy and gives a digit back when the
    colon does not follow. *)
Definition hm_at (s : str) : option (Z * Z) :=
  let two_digits :=
    match s with
    | a :: b :: ":"%char :: c :: d :: _ =>
        if is_digit a && is_digit b && is_digit c && is_digit d
        then Some (10 * digit_val a + digit_val b, 10 * digit_val c + digit_val d)%Z
        else None
    | _ => None
    end in
  match two_digits with
  | Some r => Some r
  | None =>
      match s with
      | a :: ":"%char :: c :: d :: _ =>
          if is_digit a && is_digit c && is_digit d
          then Some (digit_val a, 10 * digit_val c + digit_val d)%Z
          else None
      | _ => None
      end
  end.

Fixpoint search_hm (s : str) : option (Z * Z) :=
  match hm_at s with
  | Some r => Some r
  | None =>
      match s with
      | [] => None
      | _ :: s' => search_hm s'
      end
  end.

(** [dt.replace(hour=h, minute=mi)] *)
Definition replace_hm (dt : datetime) (h mi : Z) : result datetime :=
  if negb ((0 <=? h) && (h <=? 23))%Z then Raise (ValueError "hour must be in 0..23")
  else if negb ((0 <=? mi) && (mi <=? 59))%Z then Raise (ValueError "minute must be in 0..59")
  else Ok (mkDT (dt_year dt) (dt_month dt) (dt_day dt) h mi).

(** The body of [_parse_date_any] after the [pd.isna] test, on the text. *)
Definition parse_date_text (s : str) : result cell :=
  let s := strip s in
  let '(date_part, time_part) :=
    match (if contains " " s then cut_first " " s else None) with
    | Some (d, t) => (d, Some t)
    | None => (s, None)
    end in
  match try_formats date_part _DATE_FORMATS with
  | None => Ok VNaT
  | Some dt =>
      match time_part with
      | Some (c :: t) =>
          match search_hm (c :: t) with
          | Some (h, mi) => dt' <- replace_hm dt h mi ;; Ok (VTs dt')
          | None => Ok (VTs dt)
          end
      | _ => Ok (VTs dt)
      end
  end.

Definition _parse_date_any (x : cell) : result cell :=
  if isna x then Ok VNaT else parse_date_text (py_str x).

Definition NA_TOKENS : list str := ["" : str; "NA" : str; em_dash; "-999" : str].
Definition WORD_ZERO : list str := ["nulle" : str; "NULLE" : str].

(** [s in tokens] *)
Definition mem (s : str) (tokens : list str) : bool := existsb (eqb_str s) tokens.

(** The longest run of digits at the start of the text, and what follows. *)
Fixpoint span_digits (s : str) : str * str :=
  match s with
  | c :: s' =>
      if is_digit c then let '(ds, rest) := span_digits s' in (c :: ds, rest)
      else ([], s)
  | [] => ([], [])
  end.

(** A match of [-?\d+(?:\.\d+)?]: sign, integer digits, fraction digits. *)
Record numeral : Type := mkNum { num_neg : bool; num_int : str; num_frac : str }.

Definition unsigned_at (neg : bool) (s : str) : option numeral :=
  match span_digits s with
  | ([], _) => None
  | (ds, "."%char :: rest) =>
      Some (mkNum neg ds (fst (span_digits rest)))
  | (ds, _) => Some (mkNum neg ds [])
  end.

Definition number_at (s : str) : option numeral :=
  match s with
  | "-"%char :: s' =>
      match unsigned_at true s' with
      | Some n => Some n
      | None => unsigned_at false s
      end
  | _ => unsigned_at false s
  end.

(** [re.search(r"-?\d+(?:\.\d+)?", s)] *)
Fixpoint search_number (s : str) : option numeral :=
  match number_at s with
  | Some n => Some n
  | None =>
      match s with
      | [] => None
      | _ :: s' => search_number s'
      end
  end.


Definition digits_val (ds : str) : Z :=
  fold_left (fun acc c => 10 * acc + digit_val c)%Z ds 0%Z.

(** [float(m.group(0))] *)
Definition float_of_numeral (n : numeral) : Q :=
  let scale := (10 ^ Z.of_nat (List.length (num_frac n)))%Z in
  let mant := (digits_val (num_int n) * scale + digits_val (num_frac n))%Z in
  Qred (Qmake (if num_neg n then - mant else mant)%Z (Z.to_pos scale)).

Definition _parse_float_messy (x : cell) : cell :=
  if isna x then VNaN
  else
    let s := strip (py_str x) in
    if mem s NA_TOKENS then VNaN
    else if mem (lower s) WORD_ZERO then VFloat 0
    else
      let s := replace "," "." (replace "MM" "mm" (replace " mm" "" s)) in
      match search_number s with
      | Some n => VFloat (float_of_numeral n)
      | None => VNaN
      end.

(** ** The row tokenizer *)

(** [re.sub(r"(?<=\d),(?=\d)", ".", line)]: a comma is rewritten when the
    characters on both sides of it, in the line as read, are digits. *)
Fixpoint decimal_commas_from (prev : option ascii) (s : str) : str :=
  match s with
  | [] => []
  | c :: s' =>
      let between :=
        Ascii.eqb c ","
        && match prev with Some p => is_digit p | None => false end
        && match s' with n :: _ => is_digit n | [] => false end in
      (if between then "."%char else c) :: decimal_commas_from (Some c) s'
  end.

Definition decimal_commas (line : str) : str := decimal_commas_from None line.

(** Python slices [xs[:i]] and [xs[i:]]; a negative bound counts from the
    end. *)
Definition slice_to {A : Type} (xs : list A) (i : Z) : list A :=
  if (i <? 0)%Z then firstn (Z.to_nat (Z.of_nat (List.length xs) + i)) xs
  else firstn (Z.to_nat i) xs.

Definition slice_from {A : Type} (xs : list A) (i : Z) : list A :=
  if (i <? 0)%Z then skipn (Z.to_nat (Z.of_nat (List.length xs) + i)) xs
  else skipn (Z.to_nat i) xs.

(** The [if len(parts) != len(cols)] block. *)
Definition fit_row (sep : str) (ncols : nat) (parts : list str) : list str :=
  if List.length parts =? ncols then parts
  else if ncols <? List.length parts then
    let head := slice_to parts (Z.of_nat ncols - 1) in
    let tail := join sep (slice_from parts (Z.of_nat ncols - 1)) in
    head ++ [tail]
  else parts ++ repeat ([] : str) (ncols - List.length parts).

(** The text that is split: the line without its newline, with the
    decimal commas rewritten when the separator is the comma. *)
Definition prepare_line (sep line : str) : str :=
  let line := rstrip_nl line in
  if eqb_str sep "," then decimal_commas line else line.

(** One pass of the loop body of [_read_rows_raw] on a data line. *)
Definition tokenize (sep : str) (cols : list str) (line : str) : list str :=
  fit_row sep (List.length cols) (split sep (prepare_line sep line)).

(** ** Tables

    A [DataFrame] is its column labels and its rows; every row has one cell
    per label.  A column is read and written through the position of its
    label.  The labels a file declares are taken as they are; where a file
    declares one label twice, pandas addresses the two columns together,
    and the model, which reads and writes the first of them, says nothing
    of such a file.  The dtype of a column is not tracked beyond the kind
    of its cells. *)

Record DataFrame : Type := mkDF { columns : list str; rows : list (list cell) }.

Fixpoint col_pos (c : str) (cols : list str) : option nat :=
  match cols with
  | [] => None
  | c' :: cols' =>
      if eqb_str c c' then Some 0
      else match col_pos c cols' with
           | Some i => Some (S i)
           | None => None
           end
  end.

(** [c in df.columns] *)
Definition has_col (df : DataFrame) (c : str) : bool :=
  match col_pos c (columns df) with Some _ => true | None => false end.

(** [df[c]] *)
Definition get_col (df : DataFrame) (c : str) : result (list cell) :=
  match col_pos c (columns df) with
  | Some i => Ok (map (fun r => nth i r VNaN) (rows df))
  | None => Raise (KeyError c)
  end.

Fixpoint set_nth {A : Type} (i : nat) (v : A) (xs : list A) : list A :=
  match xs, i with
  | [], _ => []
  | _ :: xs', O => v :: xs'
  | x :: xs', S j => x :: set_nth j v xs'
  end.

(** [df[c] = values]: an existing column is overwritten in place, a new
    one is appended on the right. *)
Definition set_col (df : DataFrame) (c : str) (vals : list cell) : DataFrame :=
  match col_pos c (columns df) with
  | Some i =>
      mkDF (columns df) (map (fun '(r, v) => set_nth i v r) (combine (rows df) vals))
  | None =>
      mkDF (columns df ++ [c]) (map (fun '(r, v) => r ++ [v]) (combine (rows df) vals))
  end.

(** [df[c] = scalar] *)
Definition set_scalar (df : DataFrame) (c : str) (v : cell) : DataFrame :=
  set_col df c (repeat v (List.length (rows df))).

(** [pd.DataFrame({label: values, ...})] over an index of [n] rows. *)
Definition from_columns (n : nat) (cols : list (str * list cell)) : DataFrame :=
  mkDF (map fst cols)
       (map (fun i => map (fun c => nth i (snd c) VNaN) cols) (seq 0 n)).

(** [df[labels]] *)
Definition select (df : DataFrame) (labels : list str) : result DataFrame :=
  cols <- mapM (fun c => vals <- get_col df c ;; Ok (c, vals)) labels ;;
  Ok (from_columns (List.length (rows df)) cols).

Definition _read_rows_raw (f : File) (sep : str) (cols : list str) : DataFrame :=
  mkDF cols
       (map (fun line => map VStr (tokenize sep cols line))
            (filter (fun line => negb (startswith "#" line)) (file_lines f))).

(** ** Public API *)

Definition KEEP_COLS : list str :=
  [ "station" : str;
    "timestamp" : str;
    "date" : str;
    "time" : str;
    "t_max_c" : str;
    "t_min_c" : str;
    "precip_24h_mm" : str;
    "precip_type" : str;
    "present_weather_code" : str;
    "notes" : str ].

(** [raw.replace({v: np.nan for v in NA_TOKENS})] *)
Definition replace_na (x : cell) : cell :=
  match x with
  | VStr s => if mem s NA_TOKENS then VNaN else x
  | _ => x
  end.

(** [series.str.replace(",", ".", regex=False)], entry by entry. *)
Definition str_replace_comma (x : cell) : cell :=
  match x with
  | VStr s => VStr (replace "," "." s)
  | _ => x
  end.

(** [np.round]: to the nearest integer, a tie to the even one. *)
Definition round_half_even (q : Q) : Z :=
  let f := Qfloor q in
  match Qcompare (q - inject_Z f) (1 # 2) with
  | Lt => f
  | Gt => (f + 1)%Z
  | Eq => if Z.even f then f else (f + 1)%Z
  end.

(** [.dt.date] and [.dt.time], entry by entry. *)
Definition dt_date (x : cell) : cell :=
  match x with
  | VTs t => VDate (dt_year t) (dt_month t) (dt_day t)
  | _ => VNaT
  end.

Definition dt_time (x : cell) : cell :=
  match x with
  | VTs t => VTime (dt_hour t) (dt_minute t)
  | _ => VNaT
  end.

(** What [df.get(label)] hands on: [None], or a column; and what pandas
    makes of it: a Series stays a Series, [None] becomes a NumPy scalar. *)
Inductive pyobj : Type :=
| ONone
| OScalar (x : cell)
| OSeries (xs : list cell).

Definition df_get (df : DataFrame) (c : str) : pyobj :=
  match get_col df c with
  | Ok xs => OSeries xs
  | Raise _ => ONone
  end.

Section Loader.

(** The reader of one number for [pd.to_numeric]: the value of a text that
    pandas accepts as a number, [None] for a text that [errors="coerce"]
    turns into NaN.  pandas is not part of the repository; the loader is
    verified for every such reader. *)
Variable numeric_text : str -> option Q.

Definition to_numeric_cell (x : cell) : cell :=
  match x with
  | VStr s => match numeric_text s with Some q => VFloat q | None => VNaN end
  | VFloat q => VFloat q
  | VInt z => VInt z
  | _ => VNaN
  end.

(** [pd.to_numeric(arg, errors="coerce")]: a Series is converted entry by
    entry; [None] is a scalar that is not a number, it is converted as a
    one-element array and the element, NaN, is returned. *)
Definition to_numeric (arg : pyobj) : pyobj :=
  match arg with
  | ONone => OScalar VNaN
  | OScalar x => OScalar (to_numeric_cell x)
  | OSeries xs => OSeries (map to_numeric_cell xs)
  end.

Definition round_cell (x : cell) : cell :=
  match x with
  | VFloat q => VFloat (inject_Z (round_half_even q))
  | _ => x
  end.

(** [obj.round()] *)
Definition py_round (obj : pyobj) : result pyobj :=
  match obj with
  | ONone => Raise (AttributeError "'NoneType' object has no attribute 'round'")
  | OScalar x => Ok (OScalar (round_cell x))
  | OSeries xs => Ok (OSeries (map round_cell xs))
  end.

Definition int64_cell (x : cell) : cell :=
  match x with
  | VFloat q => VInt (Qfloor q)
  | VInt z => VInt z
  | _ => VNA
  end.

(** [obj.astype("Int64")]: a Series becomes a nullable integer column; a
    NumPy scalar asks NumPy for the dtype ["Int64"], which NumPy does not
    have. *)
Definition astype_Int64 (obj : pyobj) : result (list cell) :=
  match obj with
  | ONone => Raise (AttributeError "'NoneType' object has no attribute 'astype'")
  | OScalar _ => Raise (TypeError "data type 'Int64' not understood")
  | OSeries xs => Ok (map int64_cell xs)
  end.

(** The loop [for c in ("t_max_c", "t_min_c", "precip_24h_mm",
    "present_weather_code")]. *)
Definition coerce_column (df : DataFrame) (c : str) : result DataFrame :=
  if has_col df c then
    vals <- get_col df c ;;
    if eqb_str c "precip_24h_mm"
    then Ok (set_col df c (map _parse_float_messy vals))
    else Ok (set_col df c (map to_numeric_cell (map str_replace_comma vals)))
  else Ok df.

Fixpoint coerce_columns (df : DataFrame) (cs : list str) : result DataFrame :=
  match cs with
  | [] => Ok df
  | c :: cs' => df' <- coerce_column df c ;; coerce_columns df' cs'
  end.

Definition load_one (f : File) : result DataFrame :=
  '(station_label, sep, cols) <- _read_header f ;;
  let raw := _read_rows_raw f sep cols in
  let df := mkDF (columns raw) (map (map replace_na) (rows raw)) in
  (* Coerce numeric-like fields *)
  df <- coerce_columns df
          ["t_max_c" : str; "t_min_c" : str; "precip_24h_mm" : str;
           "present_weather_code" : str] ;;
  (* Timestamp from 'date' *)
  df <- (if has_col df "date"
         then dates <- get_col df "date" ;;
              stamps <- mapM _parse_date_any dates ;;
              Ok (set_col df "timestamp" stamps)
         else Ok (set_scalar df "timestamp" VNaT)) ;;
  (* Station label *)
  let df := set_scalar df "station" (VStr station_label) in
  (* Assemble consistent output *)
  let n := List.length (rows df) in
  picked <- mapM (fun k =>
                    if has_col df k
                    then vals <- get_col df k ;; Ok (k, vals)
                    else Ok (k, repeat VNaN n))
                 (filter (fun k => negb (mem k ["timestamp" : str; "date" : str; "time" : str]))
                         KEEP_COLS) ;;
  let out := from_columns n picked in
  stamps <- get_col df "timestamp" ;;
  let out := set_col out "timestamp" stamps in
  stamps <- get_col out "timestamp" ;;
  let out := set_col out "date" (map dt_date stamps) in
  stamps <- get_col out "timestamp" ;;
  let out := set_col out "time" (map dt_time stamps) in
  (* Safe integer cast for codes *)
  codes <- py_round (to_numeric (df_get df "present_weather_code")) ;;
  codes <- astype_Int64 codes ;;
  let out := set_col out "present_weather_code" codes in
  (* Reorder columns to KEEP_COLS *)
  select out (filter (has_col out) KEEP_COLS).

(** *** Merging *)

(** The union of the column labels, in order of first appearance. *)
Definition union_cols (frames : list DataFrame) : list str :=
  fold_left (fun acc f =>
               acc ++ filter (fun c => negb (mem c acc))
                             (nodup (list_eq_dec ascii_dec) (columns f)))
            frames [].

(** A row laid out on the labels [cols]; a label its table lacks gets NaN. *)
Definition realign (cols : list str) (f : DataFrame) (r : list cell) : list cell :=
  map (fun c => match col_pos c (columns f) with
                | Some i => nth i r VNaN
                | None => VNaN
                end) cols.

(** [pd.concat(frames, ignore_index=True)] *)
Definition concat_frames (frames : list DataFrame) : result DataFrame :=
  match frames with
  | [] => Raise (ValueError "No objects to concatenate")
  | _ =>
      let cols := union_cols frames in
      Ok (mkDF cols (flat_map (fun f => map (realign cols f) (rows f)) frames))
  end.

(** [df.dropna(subset=[c])] *)
Definition dropna (df : DataFrame) (c : str) : result DataFrame :=
  match col_pos c (columns df) with
  | Some i => Ok (mkDF (columns df) (filter (fun r => negb (isna (nth i r VNaN))) (rows df)))
  | None => Raise (KeyError c)
  end.

(** The order of the entries of a sorted column: text by code point,
    timestamps by time, missing entries last.  A key is a list of integers
    compared lexicographically; its head tells a value from a missing
    entry. *)
Definition cell_key (x : cell) : list Z :=
  match x with
  | VStr s => 0%Z :: map (fun c => Z.of_nat (nat_of_ascii c)) s
  | VTs t => [0; dt_year t; dt_month t; dt_day t; dt_hour t; dt_minute t]%Z
  | VNaN | VNaT | VNA => [1%Z]
  | _ => [0%Z]
  end.

Fixpoint lex_leb (xs ys : list Z) : bool :=
  match xs, ys with
  | [], _ => true
  | _ :: _, [] => false
  | x :: xs', y :: ys' => (x <? y)%Z || ((x =? y)%Z && lex_leb xs' ys')
  end.

(** Rows compared on several columns: the first column on which the two
    rows differ decides. *)
Fixpoint keys_leb (k1 k2 : list (list Z)) : bool :=
  match k1, k2 with
  | a :: k1', b :: k2' =>
      if lex_leb a b then (if lex_leb b a then keys_leb k1' k2' else true) else false
  | _, _ => true
  end.

Definition row_keys (positions : list nat) (r : list cell) : list (list Z) :=
  map (fun i => cell_key (nth i r VNaN)) positions.

(** A stable sort: an element is put in front of the first element of the
    sorted tail that is not smaller, so behind no element it was ahead of
    and ties with. *)
Fixpoint insert_sorted {A : Type} (leb : A -> A -> bool) (x : A) (l : list A) : list A :=
  match l with
  | [] => [x]
  | y :: l' => if leb x y then x :: l else y :: insert_sorted leb x l'
  end.

Fixpoint stable_sort {A : Type} (leb : A -> A -> bool) (l : list A) : list A :=
  match l with
  | [] => []
  | x :: l' => insert_sorted leb x (stable_sort leb l')
  end.

(** [df.sort_values(by)]: on several columns pandas sorts the rows by their
    tuple of keys and keeps the order of rows with equal keys. *)
Definition sort_values (df : DataFrame) (by_cols : list str) : result DataFrame :=
  positions <- mapM (fun c => match col_pos c (columns df) with
                              | Some i => Ok i
                              | None => Raise (KeyError c)
                              end) by_cols ;;
  Ok (mkDF (columns df)
           (stable_sort (fun r1 r2 => keys_leb (row_keys positions r1) (row_keys positions r2))
                        (rows df))).

(** [load_all] from [frames = [load_one(p) for p in paths]] on; how
    [source] becomes the list of paths is the caller's concern. *)
Definition load_all (files : list File) : result DataFrame :=
  frames <- mapM load_one files ;;
  merged <- concat_frames frames ;;
  merged <- dropna merged "timestamp" ;;
  sort_values merged ["station" : str; "timestamp" : str].

End Loader.

(** * Vocabulary of the statements *)

Definition is_comment (line : str) : Prop := startswith "#" line = true.
Definition is_fields (line : str) : Prop := startswith "# fields=" line = true.

(** A line that starts with the schema declaration occurs among the
    leading comment lines, before any other line. *)
Definition declares_fields (lines : list str) : Prop :=
  exists pre fl rest,
    lines = pre ++ fl :: rest /\ Forall is_comment pre /\ is_fields fl.

(** The lines the header loop reads: the leading comment lines up to and
    with the first one that starts with the schema declaration. *)
Fixpoint header_region (lines : list str) : list str :=
  match lines with
  | [] => []
  | l :: rest =>
      if startswith "#" l
      then if startswith "# fields=" l then [l] else l :: header_region rest
      else []
  end.

(** The value a line with a [station_name=] directive declares. *)
Definition declared_station (line : str) : str :=
  nth 1 (split "station_name=" (strip line)) [].

(** The station declaration in force after some lines were read, [st]
    being the one in force before: the last declaration wins. *)
Definition scan_station (lines : list str) (st : option str) : option str :=
  fold_left (fun acc line =>
               if contains "station_name=" line then Some (declared_station line) else acc)
            lines st.

Definition last_declared (lines : list str) : option str := scan_station lines None.

Definition all_digits (s : str) : Prop := Forall (fun c => is_digit c = true) s.

(** The text does not begin with a digit. *)
Definition no_digit_ahead (s : str) : Prop :=
  match s with
  | c :: _ => is_digit c = false
  | [] => True
  end.


(** What [_parse_float_messy] does to a text that is neither a missing
    token nor the word for zero, before it looks for the number. *)
Definition clean_units (s : str) : str :=
  replace "," "." (replace "MM" "mm" (replace " mm" "" s)).



(** The date portion of a text: what stands before the first blank of the
    trimmed text, or all of it; and the time portion, what stands behind. *)
Definition date_portion (s : str) : str :=
  match cut_first " " (strip s) with
  | Some (d, _) => d
  | None => strip s
  end.

Definition time_portion (s : str) : option str :=
  match cut_first " " (strip s) with
  | Some (_, t) => Some t
  | None => None
  end.

(** [strptime] rejects the text under this format. *)
Definition rejects (d fmt : str) : Prop := exists e, Strptime.strptime d fmt = Raise e.


(** [s] begins with one or two characters, the second of them a digit when
    they are two, and goes on with [rest]: how a text stands to what a day
    or month directive leaves of it. *)
Definition short_head (s rest : str) : Prop :=
  (exists a, s = a :: rest)
  \/ (exists a b, s = a :: b :: rest /\ is_digit b = true).

(** Every row of the table has one cell per label. *)
Definition well_formed (df : DataFrame) : Prop :=
  Forall (fun r => List.length r = List.length (columns df)) (rows df).

(** A timestamp entry: a time or NaT. *)
Definition is_stamp (x : cell) : Prop := x = VNaT \/ exists t, x = VTs t.

(** The column of a label, or a column of NaN when the table lacks it. *)
Definition column_or_nan (df : DataFrame) (k : str) : list cell :=
  match get_col df k with
  | Ok vals => vals
  | Raise _ => repeat VNaN (List.length (rows df))
  end.

(** The order of the corpus.  Station labels compare as Python strings, by
    code point; timestamps compare by year, month, day, hour and minute. *)
Definition str_codes (s : str) : list Z := map (fun c => Z.of_nat (nat_of_ascii c)) s.
Definition str_leb (a b : str) : bool := lex_leb (str_codes a) (str_codes b).
Definition dt_fields (t : datetime) : list Z :=
  [dt_year t; dt_month t; dt_day t; dt_hour t; dt_minute t].
Definition dt_leb (a b : datetime) : bool := lex_leb (dt_fields a) (dt_fields b).

(** A record of the corpus: its station and its timestamp. *)
Definition record_key (r : list cell) : option (str * datetime) :=
  match nth 0 r VNaN, nth 1 r VNaN with
  | VStr s, VTs t => Some (s, t)
  | _, _ => None
  end.

(** [(station, timestamp)] of the first record is not above that of the
    second. *)
Definition record_le (r1 r2 : list cell) : Prop :=
  match record_key r1, record_key r2 with
  | Some (s1, t1), Some (s2, t2) =>
      (str_leb s1 s2 = true /\ s1 <> s2) \/ (s1 = s2 /\ dt_leb t1 t2 = true)
  | _, _ => False
  end.

(** The record has this station and this timestamp. *)
Definition has_key (s : str) (t : datetime) (r : list cell) : bool :=
  match record_key r with
  | Some (s', t') =>
      eqb_str s s' && dt_leb t t' && dt_leb t' t
  | None => false
  end.

(** The timestamp of the record is not missing. *)
Definition has_timestamp (r : list cell) : bool := negb (isna (nth 1 r VNaN)).

(** The comparison [sort_values] makes on station and timestamp. *)
Definition corpus_leb (r1 r2 : list cell) : bool :=
  keys_leb (row_keys [0; 1] r1) (row_keys [0; 1] r2).

(** A row as [load_one] makes it: ten cells, a station label first, then a
    timestamp or NaT. *)
Definition loaded_row (r : list cell) : Prop :=
  List.length r = 10 /\ (exists s, nth 0 r VNaN = VStr s) /\ is_stamp (nth 1 r VNaN).

Definition loaded_frame (df : DataFrame) : Prop :=
  columns df = KEEP_COLS /\ Forall loaded_row (rows df).

(** The two errors of [dt.replace]. *)
Definition clock_error (e : exn) : Prop :=
  e = ValueError "hour must be in 0..23" \/ e = ValueError "minute must be in 0..59".

(** The ways [load_one] ends for a file whose header was read, with the
    station [label] and the columns [cols]: a clock error of the date
    parser; the failed cast of the weather codes, when the file declares
    no such column; or the table of ten columns. *)
Definition load_outcome (label : str) (cols : list str) (res : result DataFrame) : Prop :=
  (exists e, clock_error e /\ res = Raise e)
  \/ (has_col (mkDF cols []) "present_weather_code" = false
      /\ res = Raise (TypeError "data type 'Int64' not understood"))
  \/ (has_col (mkDF cols []) "present_weather_code" = true
      /\ exists stamps G n,
           List.length stamps = n /\ Forall is_stamp stamps
           /\ (forall i, List.length (G i) = 6)
           /\ res = Ok (mkDF KEEP_COLS
                             (map (fun i => VStr label :: nth i stamps VNaN
                                            :: dt_date (nth i stamps VNaN)
                                            :: dt_time (nth i stamps VNaN) :: G i)
                                  (seq 0 n)))).

(** The separators a header can yield. *)
Definition SEPARATORS : list str := [[TAB]; "|" : str; ";" : str; "," : str].


(** A character the comma rewrite may have produced from another: itself,
    or a point from a comma. *)
Definition comma_or_same (a b : ascii) : Prop :=
  a = b \/ (a = ","%char /\ b = "."%char).

(** Whether the character in front of a position is a digit. *)
Definition digit_before (prev : option ascii) : bool :=
  match prev with Some p => is_digit p | None => false end.

(** Whether the text begins with a digit. *)
Definition digit_ahead (s : str) : bool :=
  match s with n :: _ => is_digit n | [] => false end.

(** A calendar day and a time of the clock. *)
Definition valid_stamp (t : datetime) : Prop :=
  Strptime.valid_date (dt_year t) (dt_month t) (dt_day t) = true
  /\ (0 <= dt_hour t <= 23)%Z /\ (0 <= dt_minute t <= 59)%Z.

(** The spellings of the unit behind a measurement. *)
Definition UNITS : list str := ["" : str; "mm" : str; " mm" : str; "MM" : str; " MM" : str].

(** A measurement as the files write it: a sign, the digits of the integer
    part, a decimal mark and the digits of the fraction when there is one,
    and the unit. *)
Definition measurement (neg : bool) (ip fp : str) (mark : ascii) (unit_ : str) : str :=
  (if neg then ["-"%char] else []) ++ ip
  ++ match fp with [] => [] | _ :: _ => mark :: fp end ++ unit_.

(** The cell of a row under a label; NaN when the table lacks the label. *)
Definition cell_at (cols : list str) (k : str) (r : list cell) : cell :=
  match col_pos k cols with
  | Some i => nth i r VNaN
  | None => VNaN
  end.

(** The lines of a file that give a record: those that are no comment. *)
Definition data_lines (f : File) : list str :=
  filter (fun line => negb (startswith "#" line)) (file_lines f).

(** The row of a table after a column was rewritten entry by entry, after
    a column was assigned, and the labels after the assignment. *)
Definition upd (cols : list str) (c : str) (g : cell -> cell) (r : list cell) : list cell :=
  match col_pos c cols with
  | Some j => set_nth j (g (nth j r VNaN)) r
  | None => r
  end.

Definition put (cols : list str) (c : str) (v : cell) (r : list cell) : list cell :=
  match col_pos c cols with
  | Some j => set_nth j v r
  | None => r ++ [v]
  end.

Definition cols_with (cols : list str) (c : str) : list str :=
  match col_pos c cols with
  | Some _ => cols
  | None => cols ++ [c]
  end.

(** What becomes of the cell of a temperature, and of a weather code. *)
Definition numeric_cell (numeric_text : str -> option Q) (x : cell) : cell :=
  to_numeric_cell numeric_text (str_replace_comma x).

Definition code_cell (numeric_text : str -> option Q) (x : cell) : cell :=
  int64_cell (round_cell (to_numeric_cell numeric_text (numeric_cell numeric_text x))).

(** The cells of a data line under the declared columns, missing tokens
    replaced. *)
Definition raw_cells (sep : str) (cols : list str) (line : str) : list cell :=
  map replace_na (map VStr (tokenize sep cols line)).

(** The record one data line gives, from the line alone. *)
Definition tidy_row (numeric_text : str -> option Q) (label sep : str) (cols : list str)
           (line : str) : result (list cell) :=
  let r := raw_cells sep cols line in
  ts <- _parse_date_any (cell_at cols "date" r) ;;
  Ok [ VStr label; ts; dt_date ts; dt_time ts;
       numeric_cell numeric_text (cell_at cols "t_max_c" r);
       numeric_cell numeric_text (cell_at cols "t_min_c" r);
       _parse_float_messy (cell_at cols "precip_24h_mm" r);
       cell_at cols "precip_type" r;
       code_cell numeric_text (cell_at cols "present_weather_code" r);
       cell_at cols "notes" r ].

(** The kinds of cells of a record: a number or NaN; a text that is no
    missing token, or NaN; an integer or NA. *)
Definition is_float (x : cell) : Prop := x = VNaN \/ exists q, x = VFloat q.
Definition is_text (x : cell) : Prop :=
  x = VNaN \/ exists s, x = VStr s /\ mem s NA_TOKENS = false.
Definition is_code (x : cell) : Prop := x = VNA \/ exists z, x = VInt z.

(** A record of a loaded table: the station, the timestamp, its date and
    its time, and the six cells of the kinds of their columns. *)
Definition tidy_record (r : list cell) : Prop :=
  exists label ts t_max t_min precip ptype code notes,
    r = [VStr label; ts; dt_date ts; dt_time ts; t_max; t_min; precip; ptype; code; notes]
    /\ (ts = VNaT \/ exists t, ts = VTs t /\ valid_stamp t)
    /\ is_float t_max /\ is_float t_min /\ is_float precip
    /\ is_text ptype /\ is_code code /\ is_text notes.

(** The record in which everything but the station is missing. *)
Definition missing_record (label : str) : list cell :=
  [VStr label; VNaT; VNaT; VNaT; VNaN; VNaN; VNaN; VNaN; VNA; VNaN].

(** A record of the corpus: a record with a timestamp, and with the date
    and the time of that timestamp. *)
Definition corpus_record (r : list cell) : Prop :=
  tidy_record r
  /\ exists t,
       nth 1 r VNaN = VTs t /\ valid_stamp t
       /\ nth 2 r VNaN = VDate (dt_year t) (dt_month t) (dt_day t)
       /\ nth 3 r VNaN = VTime (dt_hour t) (dt_minute t).

(** * Sample inputs *)

(** A line of a file, with its newline. *)
Definition text_line (s : string) : str := list_ascii_of_string s ++ [NL].

(** A file that declares the date and one temperature, and no weather
    code. *)
Definition no_code_file : File :=
  mkFile (mkPath "data/riga.txt" "riga")
         [ text_line "# station_name=Riga";
           text_line "# fields=date;t_max_c";
           text_line "1925-03-04;7,5" ].

(** A file that declares the weather code and no date. *)
Definition no_date_file : File :=
  mkFile (mkPath "data/riga.txt" "riga")
         [ text_line "# station_name=Riga";
           text_line "# fields=present_weather_code;notes";
           text_line "NA;fog" ].

(** A file whose only record has a date no format accepts. *)
Definition bad_date_file : File :=
  mkFile (mkPath "data/riga.txt" "riga")
         [ text_line "# fields=date;present_weather_code";
           text_line "not-a-date;NA" ].

(** A file whose station declaration is empty. *)
Definition empty_station_file : File :=
  mkFile (mkPath "data/riga.txt" "riga")
         [ text_line "# station_name=";
           text_line "# fields=date;present_weather_code";
           text_line "1925-03-04;61" ].

(** A file with a station declaration, two records and an overlong line. *)
Definition riga_file : File :=
  mkFile (mkPath "data/riga_university_1925_p1.txt" "riga_university_1925_p1")
         [ text_line "# station_name=Riga University";
           text_line "# fields=date;t_max_c;precip_24h_mm;present_weather_code;notes";
           text_line "04.03.1925 14:30;7,5;12,5 mm;61;rain; later sun";
           text_line "1925-03-03;NA;nulle;NA" ].

(** The table [load_one] makes of it, with a reader of numbers that reads
    nothing. *)
Definition riga_table : DataFrame :=
  Eval vm_compute in
    match load_one (fun _ => None) riga_file with
    | Ok df => df
    | Raise _ => mkDF [] []
    end.

(** A second station, with a record that falls on a day of the first. *)
Definition liepaja_file : File :=
  mkFile (mkPath "data/liepaja_1925.txt" "liepaja_1925")
         [ text_line "# fields=present_weather_code|date|notes";
           text_line "NA|1925-03-03|calm";
           text_line "NA|no date|lost" ].

(** The corpus of the first file given twice with the second in between. *)
Definition sample_corpus : DataFrame :=
  Eval vm_compute in
    match load_all (fun _ => None) [riga_file; liepaja_file; riga_file] with
    | Ok df => df
    | Raise _ => mkDF [] []
    end.

(** A file with a blank line behind its one record. *)
Definition blank_line_file : File :=
  mkFile (mkPath "data/riga.txt" "riga")
         [ text_line "# fields=date;present_weather_code";
           text_line "1925-03-04;NA";
           [NL] ].

(** A file with a comment line between its records, and the file without
    that line. *)
Definition commented_file : File :=
  mkFile (mkPath "data/riga.txt" "riga")
         ([text_line "# station_name=Riga"]
          ++ text_line "# fields=date;present_weather_code"
          :: [text_line "1925-03-04;61"]
          ++ text_line "# checked" :: [text_line "1925-03-05;NA"]).

Definition uncommented_file : File :=
  mkFile (mkPath "data/riga.txt" "riga")
         ([text_line "# station_name=Riga"]
          ++ text_line "# fields=date;present_weather_code"
          :: [text_line "1925-03-04;61"] ++ [text_line "1925-03-05;NA"]).

(** * Properties *)

(** ** Facts about the string primitives *)

Section StringFacts.

Lemma startswith_app (p s : str) : startswith p (p ++ s) = true.
Proof.
  induction p as [|a p IH]; simpl; [reflexivity|].
  now rewrite Ascii.eqb_refl, IH.
Qed.

Lemma startswith_split (p s : str) :
  startswith p s = true -> exists rest, s = p ++ rest.
Proof.
  revert s; induction p as [|a p IH]; intros s H; simpl in *.
  - now exists s.
  - destruct s as [|b s]; [discriminate|].
    apply andb_prop in H as [Hab Hps].
    apply Ascii.eqb_eq in Hab; subst b.
    destruct (IH _ Hps) as [rest ->].
    now exists rest.
Qed.

Lemma contains_unfold (p s : str) :
  contains p s = startswith p s || match s with [] => false | _ :: s' => contains p s' end.
Proof. now destruct s. Qed.

Lemma contains_app (a p b : str) : contains p (a ++ p ++ b) = true.
Proof.
  induction a as [|c a IH].
  - simpl app. rewrite contains_unfold, startswith_app. reflexivity.
  - simpl. rewrite IH. apply orb_true_r.
Qed.

Lemma contains_split (p s : str) :
  contains p s = true -> exists a b, s = a ++ p ++ b.
Proof.
  induction s as [|c s IH]; intros H.
  - simpl in H. rewrite orb_false_r in H.
    destruct (startswith_split _ _ H) as [rest E].
    now exists [], rest.
  - simpl in H. apply orb_prop in H as [H|H].
    + destruct (startswith_split _ _ H) as [rest E].
      now exists [], rest.
    + destruct (IH H) as (a & b & ->).
      now exists (c :: a), b.
Qed.

Lemma rstrip_cons_nonspace (c : ascii) (s : str) :
  is_space c = false -> rstrip (c :: s) = c :: rstrip s.
Proof.
  intros Hc. simpl. rewrite Hc. now destruct (rstrip s).
Qed.

Lemma rstrip_app_nonspace (x : str) (c : ascii) (y : str) :
  is_space c = false -> rstrip (x ++ c :: y) = x ++ c :: rstrip y.
Proof.
  intros Hc. induction x as [|d x IH].
  - now apply rstrip_cons_nonspace.
  - simpl app. simpl rstrip. rewrite IH.
    now destruct x.
Qed.

Lemma rstrip_spaces (pad : str) :
  Forall (fun c => is_space c = true) pad -> rstrip pad = [].
Proof.
  induction 1 as [|c pad Hc _ IH]; simpl; [reflexivity|].
  now rewrite IH, Hc.
Qed.

Lemma rstrip_app_spaces (x pad : str) :
  Forall (fun c => is_space c = true) pad -> rstrip (x ++ pad) = rstrip x.
Proof.
  intros Hpad. induction x as [|d x IH]; simpl.
  - now apply rstrip_spaces.
  - now rewrite IH.
Qed.




Lemma contains_lstrip (a : ascii) (p s : str) :
  is_space a = false ->
  contains (a :: p) s = true -> contains (a :: p) (lstrip s) = true.
Proof.
  intros Ha. induction s as [|c s IH]; intros H; [exact H|].
  simpl lstrip. destruct (is_space c) eqn:Hc; [|exact H].
  apply IH. simpl in H.
  destruct (Ascii.eqb a c) eqn:Hac.
  - apply Ascii.eqb_eq in Hac. congruence.
  - exact H.
Qed.

Lemma contains_rstrip (p : str) (z : ascii) (s : str) :
  is_space z = false ->
  contains (p ++ [z]) s = true -> contains (p ++ [z]) (rstrip s) = true.
Proof.
  intros Hz H. apply contains_split in H as (a & b & ->).
  replace (a ++ (p ++ [z]) ++ b) with ((a ++ p) ++ z :: b)
    by (now rewrite <- !app_assoc).
  rewrite rstrip_app_nonspace by assumption.
  replace ((a ++ p) ++ z :: rstrip b) with (a ++ (p ++ [z]) ++ rstrip b)
    by (now rewrite <- !app_assoc).
  apply contains_app.
Qed.

Lemma split_from_nonempty (sep : str) (k : nat) (s : str) :
  split_from sep k s <> [].
Proof.
  revert k; induction s as [|c s IH]; intros k; simpl; [discriminate|].
  destruct k; [|apply IH].
  destruct (startswith sep (c :: s)); [discriminate|].
  destruct (split_from sep 0 s); discriminate.
Qed.

Lemma split_length_pos (sep s : str) : 1 <= List.length (split sep s).
Proof.
  unfold split. pose proof (split_from_nonempty sep 0 s).
  destruct (split_from sep 0 s); [congruence | simpl; lia].
Qed.

(** A text that contains the separator is cut in two pieces at least. *)
Lemma split_contains (a : ascii) (sep s : str) :
  contains (a :: sep) s = true -> 2 <= List.length (split (a :: sep) s).
Proof.
  unfold split. induction s as [|c s IH]; intros H.
  - discriminate.
  - cbn [split_from].
    destruct (startswith (a :: sep) (c :: s)) eqn:E.
    + pose proof (split_from_nonempty (a :: sep) (List.length (a :: sep) - 1) s).
      destruct (split_from (a :: sep) (List.length (a :: sep) - 1) s); [congruence|].
      simpl; lia.
    + cbn [contains] in H. rewrite E in H. simpl in H.
      specialize (IH H).
      destruct (split_from (a :: sep) 0 s); simpl in *; lia.
Qed.

Lemma eqb_str_eq (a b : str) : eqb_str a b = true <-> a = b.
Proof.
  revert b; induction a as [|x a IH]; intros [|y b]; simpl; split;
    try congruence; try discriminate.
  - intros H. apply andb_prop in H as [Hx Ha].
    apply Ascii.eqb_eq in Hx. apply IH in Ha. congruence.
  - intros H. inversion H; subst. rewrite Ascii.eqb_refl. now apply IH.
Qed.

Lemma eqb_str_refl (a : str) : eqb_str a a = true.
Proof. now apply eqb_str_eq. Qed.

Lemma eqb_str_neq (a b : str) : a <> b -> eqb_str a b = false.
Proof.
  intros H. destruct (eqb_str a b) eqn:E; [|reflexivity].
  apply eqb_str_eq in E. contradiction.
Qed.

End StringFacts.

(** ** The header inspector *)

Section HeaderFacts.

Lemma fields_line_strip (fl : str) :
  is_fields fl -> exists r, strip fl = "# fields=" ++ r.
Proof.
  intros H. apply startswith_split in H as [rest ->].
  exists (rstrip rest). unfold strip.
  change (lstrip ("# fields=" ++ rest)) with (("# fields" : str) ++ "="%char :: rest).
  now rewrite rstrip_app_nonspace.
Qed.

Lemma fields_payload_header (r : str) :
  fields_payload ("# fields=" ++ r) = Ok (strip r).
Proof. reflexivity. Qed.

Lemma split1_header (r : str) :
  index (split1 "fields=" ("# fields=" ++ r)) 1 = Ok r.
Proof. reflexivity. Qed.

Lemma detect_separator_total (payload : str) :
  exists sep,
    (if contains [TAB] payload then Ok [TAB]
     else match find (fun sep : str => contains sep payload)
                     ["|" : str; ";" : str; "," : str] with
          | Some sep => Ok sep
          | None => Ok ("," : str)
          end) = Ok sep.
Proof.
  destruct (contains [TAB] payload); [eauto|].
  destruct (find _ _); eauto.
Qed.

Lemma station_value_ok (line : str) :
  contains "station_name=" line = true ->
  index (split "station_name=" (strip line)) 1 = Ok (declared_station line).
Proof.
  intros H.
  assert (Hs : contains "station_name=" (strip line) = true).
  { unfold strip.
    change (list_ascii_of_string "station_name=")
      with ((list_ascii_of_string "station_name") ++ ["="%char]).
    apply contains_rstrip; [reflexivity|].
    change ((list_ascii_of_string "station_name") ++ ["="%char])
      with ("s"%char :: list_ascii_of_string "tation_name=").
    apply contains_lstrip; [reflexivity|exact H]. }
  change (list_ascii_of_string "station_name=")
    with ("s"%char :: list_ascii_of_string "tation_name=") in Hs |- *.
  apply split_contains in Hs.
  unfold index, declared_station.
  change (list_ascii_of_string "station_name=")
    with ("s"%char :: list_ascii_of_string "tation_name=").
  destruct (split _ (strip line)) as [|a [|b l]]; simpl in *; try lia.
  reflexivity.
Qed.

(** What the loop of [_read_header] leaves in its two variables. *)
Lemma header_loop_spec (lines : list str) (st : option str) :
  header_loop lines st =
  Ok (scan_station (header_region lines) st,
      option_map strip (find (startswith "# fields=") (header_region lines))).
Proof.
  revert st; induction lines as [|l rest IH]; intros st; [reflexivity|].
  cbn [header_loop header_region].
  destruct (startswith "#" l) eqn:Hc; cbn [negb]; [|reflexivity].
  assert (Hst : (if contains "station_name=" l
                 then v <- index (split "station_name=" (strip l)) 1 ;; Ok (Some v)
                 else Ok st)
                = Ok (if contains "station_name=" l then Some (declared_station l) else st)).
  { destruct (contains "station_name=" l) eqn:Hn; [|reflexivity].
    now rewrite station_value_ok. }
  rewrite Hst. cbn [bind].
  destruct (startswith "# fields=" l) eqn:Hf.
  - cbn [scan_station fold_left find option_map]. now rewrite Hf.
  - rewrite IH. cbn [scan_station fold_left find]. now rewrite Hf.
Qed.

Lemma header_region_found (pre : list str) (fl : str) (rest : list str) :
  Forall is_comment pre -> is_fields fl ->
  exists fl', find (startswith "# fields=") (header_region (pre ++ fl :: rest)) = Some fl'.
Proof.
  intros Hpre Hfl. induction Hpre as [|l pre Hl _ IH]; cbn [app header_region].
  - assert (Hc : startswith "#" fl = true).
    { apply startswith_split in Hfl as [r ->]. reflexivity. }
    rewrite Hc, Hfl. cbn [find]. rewrite Hfl. eauto.
  - rewrite Hl. destruct (startswith "# fields=" l) eqn:E.
    + cbn [find]. rewrite E. eauto.
    + cbn [find]. rewrite E. exact IH.
Qed.

Lemma header_region_declares (lines : list str) (fl : str) :
  find (startswith "# fields=") (header_region lines) = Some fl -> declares_fields lines.
Proof.
  induction lines as [|l rest IH]; cbn [header_region]; [discriminate|].
  destruct (startswith "#" l) eqn:Hc; [|discriminate].
  destruct (startswith "# fields=" l) eqn:Hf.
  - intros _. now exists [], l, rest.
  - cbn [find]. rewrite Hf. intros H.
    destruct (IH H) as (pre & fl' & rest' & -> & Hpre & Hfl').
    exists (l :: pre), fl', rest'. repeat split; auto.
Qed.

Lemma find_fields_is_fields (ls : list str) (fl : str) :
  find (startswith "# fields=") ls = Some fl -> is_fields fl.
Proof. intros H. now apply find_some in H as [_ H]. Qed.

(** The lines behind the schema declaration play no part. *)
Lemma header_region_rest (pre : list str) (fl : str) (rest rest' : list str) :
  is_fields fl ->
  header_region (pre ++ fl :: rest) = header_region (pre ++ fl :: rest').
Proof.
  intros Hfl. induction pre as [|l pre IH]; cbn [app header_region].
  - now rewrite Hfl.
  - now rewrite IH.
Qed.

(** From a schema declaration on, nothing in [_read_header] raises. *)
Lemma read_header_found (f : File) (fl : str) :
  find (startswith "# fields=") (header_region (file_lines f)) = Some fl ->
  exists sep cols,
    _read_header f =
    Ok (or_stem (scan_station (header_region (file_lines f)) None) (file_path f), sep, cols)
    /\ cols <> [].
Proof.
  intros Hfind. unfold _read_header.
  rewrite header_loop_spec, Hfind. cbn [bind option_map].
  destruct (fields_line_strip fl (find_fields_is_fields _ _ Hfind)) as [r ->].
  unfold _detect_separator. rewrite fields_payload_header. cbn [bind].
  destruct (detect_separator_total (strip r)) as [sep ->].
  cbn [bind]. rewrite split1_header. cbn [bind].
  eexists _, _. split; [reflexivity|].
  pose proof (split_length_pos sep r) as Hlen.
  destruct (split sep r); simpl in *; [lia | discriminate].
Qed.

Lemma read_header_missing (f : File) :
  find (startswith "# fields=") (header_region (file_lines f)) = None ->
  _read_header f = Raise (ValueError (missing_fields_msg (file_path f))).
Proof.
  intros Hfind. unfold _read_header.
  now rewrite header_loop_spec, Hfind.
Qed.

End HeaderFacts.

(** ** Claims on the header inspector *)

(** C8.  For every [fields=] payload the separator is TAB when the payload
    holds a TAB; otherwise the first of [|], [;], [,] (in that order) that
    occurs in it; and [,] when none occurs.  A payload cut by [|] or [;] is
    therefore never taken for comma-separated, whatever commas its field
    names hold. *)
Theorem detect_separator_priority (fields_line payload : str) :
  fields_payload fields_line = Ok payload ->
  exists sep,
    _detect_separator fields_line = Ok sep
    /\ (contains [TAB] payload = true -> sep = [TAB])
    /\ (contains [TAB] payload = false ->
        contains "|" payload = true -> sep = "|")
    /\ (contains [TAB] payload = false -> contains "|" payload = false ->
        contains ";" payload = true -> sep = ";")
    /\ (contains [TAB] payload = false -> contains "|" payload = false ->
        contains ";" payload = false -> sep = ",").
Proof.
  intros Hp. unfold _detect_separator. rewrite Hp. cbn [bind find].
  destruct (contains [TAB] payload) eqn:Ht.
  { exists [TAB]. repeat split; intros; congruence. }
  destruct (contains "|" payload) eqn:Hb.
  { eexists. split; [reflexivity|]. repeat split; intros; congruence. }
  destruct (contains ";" payload) eqn:Hs.
  { eexists. split; [reflexivity|]. repeat split; intros; congruence. }
  destruct (contains "," payload) eqn:Hc;
    (eexists; split; [reflexivity|]; repeat split; intros; congruence).
Qed.

(** A semicolon-separated declaration whose last field name holds a comma. *)
Lemma detect_separator_priority_witness :
  exists sep,
    _detect_separator "# fields=date;t_max_c;notes, remarks" = Ok sep
    /\ (contains [TAB] "date;t_max_c;notes, remarks" = true -> sep = [TAB])
    /\ (contains [TAB] "date;t_max_c;notes, remarks" = false ->
        contains "|" "date;t_max_c;notes, remarks" = true -> sep = "|")
    /\ (contains [TAB] "date;t_max_c;notes, remarks" = false ->
        contains "|" "date;t_max_c;notes, remarks" = false ->
        contains ";" "date;t_max_c;notes, remarks" = true -> sep = ";")
    /\ (contains [TAB] "date;t_max_c;notes, remarks" = false ->
        contains "|" "date;t_max_c;notes, remarks" = false ->
        contains ";" "date;t_max_c;notes, remarks" = false -> sep = ",").
Proof.
  apply (detect_separator_priority
           "# fields=date;t_max_c;notes, remarks" "date;t_max_c;notes, remarks").
  reflexivity.
Defined.

(** ** The row tokenizer *)

Section TokenizerFacts.

Lemma read_header_cols_nonempty (f : File) (station sep : str) (cols : list str) :
  _read_header f = Ok (station, sep, cols) -> cols <> [].
Proof.
  intros H.
  destruct (find (startswith "# fields=") (header_region (file_lines f))) as [fl|] eqn:Hfind.
  - destruct (read_header_found f fl Hfind) as (sep' & cols' & Hok & Hne).
    rewrite Hok in H. now inversion H; subst.
  - rewrite (read_header_missing f Hfind) in H. discriminate.
Qed.

Lemma slice_to_nonneg {A : Type} (xs : list A) (n : nat) :
  1 <= n -> slice_to xs (Z.of_nat n - 1) = firstn (n - 1) xs.
Proof.
  intros Hn. unfold slice_to.
  destruct (Z.ltb_spec (Z.of_nat n - 1) 0); [lia|].
  f_equal. lia.
Qed.

Lemma slice_from_nonneg {A : Type} (xs : list A) (n : nat) :
  1 <= n -> slice_from xs (Z.of_nat n - 1) = skipn (n - 1) xs.
Proof.
  intros Hn. unfold slice_from.
  destruct (Z.ltb_spec (Z.of_nat n - 1) 0); [lia|].
  f_equal. lia.
Qed.

Lemma fit_row_cases (sep : str) (n : nat) (parts : list str) :
  1 <= n ->
  (n < List.length parts ->
   fit_row sep n parts = firstn (n - 1) parts ++ [join sep (skipn (n - 1) parts)])
  /\ (List.length parts < n ->
      fit_row sep n parts = parts ++ repeat ([] : str) (n - List.length parts))
  /\ (List.length parts = n -> fit_row sep n parts = parts).
Proof.
  intros Hn. unfold fit_row. repeat split; intros H.
  - destruct (Nat.eqb_spec (List.length parts) n); [lia|].
    destruct (Nat.ltb_spec n (List.length parts)); [|lia].
    now rewrite slice_to_nonneg, slice_from_nonneg.
  - destruct (Nat.eqb_spec (List.length parts) n); [lia|].
    destruct (Nat.ltb_spec n (List.length parts)); [lia|reflexivity].
  - destruct (Nat.eqb_spec (List.length parts) n); [reflexivity|lia].
Qed.

Lemma fit_row_length (sep : str) (n : nat) (parts : list str) :
  1 <= n -> List.length (fit_row sep n parts) = n.
Proof.
  intros Hn. destruct (fit_row_cases sep n parts Hn) as (Hlong & Hshort & Heq).
  destruct (Nat.lt_trichotomy (List.length parts) n) as [H|[H|H]].
  - rewrite (Hshort H), length_app, repeat_length. lia.
  - now rewrite (Heq H).
  - rewrite (Hlong H), length_app, length_firstn. simpl. lia.
Qed.

Lemma tokenize_length (sep : str) (cols : list str) (line : str) :
  cols <> [] -> List.length (tokenize sep cols line) = List.length cols.
Proof.
  intros Hne. unfold tokenize. apply fit_row_length.
  destruct cols; [congruence | simpl; lia].
Qed.

End TokenizerFacts.

(** C7.  With the [N] columns a header declares, a data line whose split
    gives more than [N] tokens becomes its first [N-1] tokens followed by
    the remaining ones joined again with the separator; one that gives
    fewer is padded on the right with empty strings; and in every case the
    row has exactly [N] entries, in the table that is read as well. *)
Theorem tokenize_fixed_width (f : File) (station sep : str) (cols : list str) (line : str) :
  _read_header f = Ok (station, sep, cols) ->
  let parts := split sep (prepare_line sep line) in
  let N := List.length cols in
  List.length (tokenize sep cols line) = N
  /\ (N < List.length parts ->
      tokenize sep cols line = firstn (N - 1) parts ++ [join sep (skipn (N - 1) parts)])
  /\ (List.length parts < N ->
      tokenize sep cols line = parts ++ repeat ([] : str) (N - List.length parts))
  /\ (List.length parts = N -> tokenize sep cols line = parts)
  /\ Forall (fun r => List.length r = N) (rows (_read_rows_raw f sep cols)).
Proof.
  intros Hh parts N.
  pose proof (read_header_cols_nonempty _ _ _ _ Hh) as Hne.
  assert (HN : 1 <= N) by (subst N; destruct cols; [congruence | simpl; lia]).
  destruct (fit_row_cases sep N parts HN) as (Hlong & Hshort & Heq).
  split; [now apply tokenize_length|].
  repeat split; try assumption.
  unfold _read_rows_raw. cbn [rows].
  apply Forall_map, Forall_forall. intros l _.
  rewrite length_map. now apply tokenize_length.
Qed.

(** An overlong line: four tokens on the two columns of a sample file. *)
Lemma tokenize_fixed_width_witness :
  List.length (tokenize ";" ["date" : str; "t_max_c" : str]
                        (text_line "1925-03-04;7,5;rain; later sun")) = 2
  /\ tokenize ";" ["date" : str; "t_max_c" : str]
              (text_line "1925-03-04;7,5;rain; later sun")
     = ["1925-03-04" : str; "7,5;rain; later sun" : str].
Proof.
  assert (H : _read_header no_code_file
              = Ok ("Riga" : str, ";" : str, ["date" : str; "t_max_c" : str]))
    by (vm_compute; reflexivity).
  destruct (tokenize_fixed_width no_code_file _ _ _
              (text_line "1925-03-04;7,5;rain; later sun") H)
    as (Hlen & Hlong & _).
  split; [exact Hlen|].
  rewrite Hlong by (vm_compute; lia). reflexivity.
Defined.

(** ** The number parser *)

Section NumberFacts.










Lemma lower_char_not_upper_n (c : ascii) : lower_char c <> "N"%char.
Proof.
  destruct c as [[] [] [] [] [] [] [] []]; vm_compute; discriminate.
Qed.

(** The word for zero is recognised through its lower-case form alone. *)
Lemma word_zero_lower (s : str) :
  mem (lower s) WORD_ZERO = eqb_str (lower s) "nulle".
Proof.
  unfold mem, WORD_ZERO. cbn [existsb].
  destruct (eqb_str (lower s) "nulle"); [reflexivity|].
  destruct (eqb_str (lower s) "NULLE") eqn:E; [|reflexivity].
  apply eqb_str_eq in E. destruct s as [|c s]; [discriminate|].
  simpl in E. injection E as Hc _.
  now apply lower_char_not_upper_n in Hc.
Qed.


End NumberFacts.

(** ** Claims on the number parser *)





(** ** The date parser *)

Section DateFacts.

Import Strptime.

Lemma cut_first_none (sep s : str) :
  contains sep s = false -> cut_first sep s = None.
Proof.
  induction s as [|c s IH]; intros H.
  - simpl in *. rewrite orb_false_r in H. now rewrite H.
  - rewrite contains_unfold in H. apply orb_false_elim in H as [H1 H2].
    cbn [cut_first]. rewrite H1, (IH H2). reflexivity.
Qed.

Lemma cut_first_some (sep s : str) :
  contains sep s = true -> exists a b, cut_first sep s = Some (a, b).
Proof.
  induction s as [|c s IH]; intros H.
  - simpl in *. rewrite orb_false_r in H. rewrite H. eauto.
  - rewrite contains_unfold in H. cbn [cut_first].
    destruct (startswith sep (c :: s)); [eauto|].
    destruct (IH H) as (a & b & ->). eauto.
Qed.

(** [_parse_date_any] on a text, through the two portions of the text. *)
Lemma parse_date_text_portions (s : str) :
  parse_date_text s =
  match try_formats (date_portion s) _DATE_FORMATS with
  | None => Ok VNaT
  | Some dt =>
      match time_portion s with
      | Some (c :: t) =>
          match search_hm (c :: t) with
          | Some (h, mi) => dt' <- replace_hm dt h mi ;; Ok (VTs dt')
          | None => Ok (VTs dt)
          end
      | _ => Ok (VTs dt)
      end
  end.
Proof.
  unfold parse_date_text, date_portion, time_portion.
  destruct (contains " " (strip s)) eqn:Hc.
  - destruct (cut_first_some _ _ Hc) as (a & b & ->). reflexivity.
  - rewrite (cut_first_none _ _ Hc). reflexivity.
Qed.

Lemma try_formats_first (d : str) (pre : list str) (fmt : str) (post : list str)
      (dt : datetime) :
  Forall (rejects d) pre -> strptime d fmt = Ok dt ->
  try_formats d (pre ++ fmt :: post) = Some dt.
Proof.
  intros Hpre Hok. induction Hpre as [|f pre [e He] _ IH]; simpl.
  - now rewrite Hok.
  - now rewrite He.
Qed.

Lemma try_formats_none (d : str) (fmts : list str) :
  Forall (rejects d) fmts -> try_formats d fmts = None.
Proof.
  induction 1 as [|f fmts [e He] _ IH]; simpl; [reflexivity|].
  now rewrite He.
Qed.

Lemma replace_hm_same_day (dt dt' : datetime) (h mi : Z) :
  replace_hm dt h mi = Ok dt' -> dt' = mkDT (dt_year dt) (dt_month dt) (dt_day dt) h mi.
Proof.
  unfold replace_hm.
  destruct (negb _); [discriminate|].
  destruct (negb _); [discriminate|].
  now intros H; inversion H.
Qed.

Lemma strptime_midnight (d fmt : str) (dt : datetime) :
  strptime d fmt = Ok dt -> dt_hour dt = 0%Z /\ dt_minute dt = 0%Z.
Proof.
  unfold strptime.
  destruct (re_match _ _ _) as [[[[y m] dd] rest]|]; [|discriminate].
  destruct rest; [|discriminate].
  destruct (valid_date _ _ _); [|discriminate].
  now intros H; inversion H.
Qed.

(** Once a format accepts the date portion, the timestamp is on that day. *)
Lemma parse_date_text_day (s : str) (dt : datetime) :
  try_formats (date_portion s) _DATE_FORMATS = Some dt ->
  (time_portion s = None -> parse_date_text s = Ok (VTs dt))
  /\ (forall r, parse_date_text s = Ok r ->
      exists h mi, r = VTs (mkDT (dt_year dt) (dt_month dt) (dt_day dt) h mi)).
Proof.
  intros Ht. rewrite parse_date_text_portions, Ht.
  assert (Hmid : dt = mkDT (dt_year dt) (dt_month dt) (dt_day dt) 0 0).
  { assert (H0 : dt_hour dt = 0%Z /\ dt_minute dt = 0%Z).
    { clear - Ht. revert Ht. generalize _DATE_FORMATS.
      induction l as [|f l IH]; simpl; [discriminate|].
      destruct (strptime (date_portion s) f) eqn:E; [|exact IH].
      intros H; inversion H; subst. exact (strptime_midnight _ _ _ E). }
    destruct dt; simpl in *. destruct H0; congruence. }
  split.
  - intros ->. reflexivity.
  - intros r. destruct (time_portion s) as [[|c t]|].
    + intros H; inversion H. exists 0%Z, 0%Z. now rewrite <- Hmid.
    + destruct (search_hm (c :: t)) as [[h mi]|].
      * destruct (replace_hm dt h mi) eqn:E; simpl; [|discriminate].
        intros H; inversion H. apply replace_hm_same_day in E. subst. eauto.
      * intros H; inversion H. exists 0%Z, 0%Z. now rewrite <- Hmid.
    + intros H; inversion H. exists 0%Z, 0%Z. now rewrite <- Hmid.
Qed.

Lemma first_some_in {A B : Type} (k : A -> option B) (xs : list A) (y : B) :
  first_some k xs = Some y -> exists x, In x xs /\ k x = Some y.
Proof.
  induction xs as [|x xs IH]; simpl; [discriminate|].
  destruct (k x) eqn:E.
  - intros H; inversion H; subst. eauto.
  - intros H. destruct (IH H) as (x' & Hin & Hk). eauto.
Qed.

Lemma in_range_digit (lo hi : nat) (c : ascii) :
  48 <= lo -> hi <= 57 -> in_range lo hi c = true -> is_digit c = true.
Proof.
  unfold in_range, is_digit. intros Hlo Hhi H.
  apply andb_prop in H as [H1 H2].
  apply Nat.leb_le in H1, H2.
  apply andb_true_intro. split; apply Nat.leb_le; lia.
Qed.

Lemma two_shape (p1 p2 : ascii -> bool) (s : str) (v : Z) (rest : str) :
  (forall c, p2 c = true -> is_digit c = true) ->
  In (v, rest) (two p1 p2 s) -> short_head s rest.
Proof.
  intros Hp2. unfold two. destruct s as [|a [|b r]]; simpl; try tauto.
  destruct (p1 a && p2 b) eqn:E; simpl; [|tauto].
  intros [H|[]]. inversion H; subst.
  apply andb_prop in E as [_ E]. right. exists a, b. auto.
Qed.

Lemma one_nonzero_shape (s : str) (v : Z) (rest : str) :
  In (v, rest) (one_nonzero s) -> short_head s rest.
Proof.
  unfold one_nonzero. destruct s as [|a r]; simpl; [tauto|].
  destruct (in_range 49 57 a); simpl; [|tauto].
  intros [H|[]]. inversion H; subst. left. eauto.
Qed.

Lemma blank_nonzero_shape (s : str) (v : Z) (rest : str) :
  In (v, rest) (blank_nonzero s) -> short_head s rest.
Proof.
  unfold blank_nonzero. destruct s as [|a [|b r]]; simpl; try tauto.
  destruct (Ascii.eqb a " " && in_range 49 57 b) eqn:E; simpl; [|tauto].
  intros [H|[]]. inversion H; subst.
  apply andb_prop in E as [_ E]. right. exists a, b. split; [reflexivity|].
  apply (in_range_digit 49 57); [lia | lia | exact E].
Qed.

Lemma alts_d_shape (s : str) (v : Z) (rest : str) :
  In (v, rest) (alts_d s) -> short_head s rest.
Proof.
  unfold alts_d. rewrite !in_app_iff.
  intros [H|[H|[H|[H|H]]]].
  - apply two_shape in H; [exact H|]. intros c. apply in_range_digit; lia.
  - apply two_shape in H; [exact H|]. auto.
  - apply two_shape in H; [exact H|]. intros c. apply in_range_digit; lia.
  - now apply one_nonzero_shape in H.
  - now apply blank_nonzero_shape in H.
Qed.

(** A text accepted by a format that starts with the day and a literal. *)
Lemma day_first_shape (c : ascii) (items : list item) (s : str) (g : groups)
      (r : groups * str) :
  re_match (DirD :: Lit c :: items) s g = Some r ->
  exists rest, short_head s (c :: rest).
Proof.
  cbn [re_match]. intros H.
  apply first_some_in in H as ([v rest] & Hin & Hk).
  apply alts_d_shape in Hin.
  destruct g as [[y m] d]. destruct rest as [|c' rest]; [discriminate|].
  destruct (Ascii.eqb_spec c c') as [->|]; [|discriminate].
  eauto.
Qed.

(** A text accepted by a format that starts with the year. *)
Lemma year_first_shape (items : list item) (s : str) (g : groups) (r : groups * str) :
  re_match (DirY :: items) s g = Some r ->
  exists a b c d rest,
    s = a :: b :: c :: d :: rest /\ is_digit b = true /\ is_digit c = true.
Proof.
  cbn [re_match]. intros H.
  apply first_some_in in H as ([v rest] & Hin & _).
  unfold alts_Y in Hin. destruct s as [|a [|b [|c [|d r']]]]; simpl in Hin; try tauto.
  destruct (is_digit a && is_digit b && is_digit c && is_digit d) eqn:E; simpl in Hin; [|tauto].
  apply andb_prop in E as [E _]. apply andb_prop in E as [E Hc].
  apply andb_prop in E as [_ Hb].
  exists a, b, c, d, r'. auto.
Qed.

Lemma short_head_not_year (c : ascii) (s rest : str) (a b c' d : ascii) (rest' : str) :
  is_digit c = false ->
  short_head s (c :: rest) ->
  s = a :: b :: c' :: d :: rest' -> is_digit b = true -> is_digit c' = true -> False.
Proof.
  intros Hc [(x & E)|(x & y & E & _)] -> Hb Hc'; inversion E; subst; congruence.
Qed.

Lemma short_head_one_literal (c1 c2 : ascii) (s r1 r2 : str) :
  is_digit c1 = false -> is_digit c2 = false ->
  short_head s (c1 :: r1) -> short_head s (c2 :: r2) -> c1 = c2.
Proof.
  intros H1 H2 [(x & E)|(x & y & E & Hy)] [(x' & E')|(x' & y' & E' & Hy')];
    subst s; inversion E'; subst; congruence.
Qed.

Lemma strptime_ok_match (d fmt : str) (dt : datetime) :
  strptime d fmt = Ok dt ->
  exists r, re_match (compile fmt) d (None, None, None) = Some r.
Proof.
  unfold strptime. destruct (re_match _ _ _); [eauto | discriminate].
Qed.

Lemma strptime_no_match (d fmt : str) :
  re_match (compile fmt) d (None, None, None) = None -> rejects d fmt.
Proof.
  unfold rejects, strptime. intros ->. eauto.
Qed.

(** A text with a day-first reading has no year-first reading. *)
Lemma day_first_rejects_year_first (c : ascii) (items items' : list item) (d : str)
      (r : groups * str) (fmt : str) :
  is_digit c = false ->
  re_match (DirD :: Lit c :: items) d (None, None, None) = Some r ->
  compile fmt = DirY :: items' ->
  rejects d fmt.
Proof.
  intros Hc Hm Hfmt. apply strptime_no_match. rewrite Hfmt.
  destruct (re_match (DirY :: items') d (None, None, None)) eqn:E; [|reflexivity].
  exfalso.
  apply day_first_shape in Hm as [rest Hs].
  apply year_first_shape in E as (a & b & c' & d' & rest' & E & Hb & Hc').
  exact (short_head_not_year _ _ _ _ _ _ _ _ Hc Hs E Hb Hc').
Qed.

(** A text with a day-first reading has none with another literal. *)
Lemma day_first_rejects_other_literal (c c' : ascii) (items items' : list item) (d : str)
      (r : groups * str) (fmt : str) :
  is_digit c = false -> is_digit c' = false -> c <> c' ->
  re_match (DirD :: Lit c :: items) d (None, None, None) = Some r ->
  compile fmt = DirD :: Lit c' :: items' ->
  rejects d fmt.
Proof.
  intros Hc Hc' Hne Hm Hfmt. apply strptime_no_match. rewrite Hfmt.
  destruct (re_match (DirD :: Lit c' :: items') d (None, None, None)) eqn:E; [|reflexivity].
  exfalso.
  apply day_first_shape in Hm as [rest Hs].
  apply day_first_shape in E as [rest' Hs'].
  exact (Hne (short_head_one_literal _ _ _ _ _ Hc Hc' Hs Hs')).
Qed.

(** Whenever the text has a day-first reading, that reading is the result
    of the loop over the formats. *)
Lemma day_first_wins (d fmt : str) (dt : datetime) :
  fmt = "%d.%m.%Y" \/ fmt = "%d-%m-%Y" ->
  strptime d fmt = Ok dt ->
  try_formats d _DATE_FORMATS = Some dt.
Proof.
  intros [->| ->] Hok; destruct (strptime_ok_match _ _ _ Hok) as [r Hr].
  - apply (try_formats_first d ["%Y-%m-%d" : str]); [|exact Hok].
    repeat constructor.
    eapply day_first_rejects_year_first; [| exact Hr | reflexivity]. reflexivity.
  - apply (try_formats_first d ["%Y-%m-%d" : str; "%d.%m.%Y" : str; "%Y/%m/%d" : str]);
      [|exact Hok].
    repeat constructor.
    + eapply day_first_rejects_year_first; [| exact Hr | reflexivity]. reflexivity.
    + eapply day_first_rejects_other_literal;
        [| | | exact Hr | reflexivity]; [reflexivity | reflexivity | discriminate].
    + eapply day_first_rejects_year_first; [| exact Hr | reflexivity]. reflexivity.
Qed.

(** When it returns, [_parse_date_any] returns a timestamp or NaT. *)
Lemma parse_date_any_stamp (x r : cell) : _parse_date_any x = Ok r -> is_stamp r.
Proof.
  unfold _parse_date_any. destruct (isna x).
  { intros H; inversion H. now left. }
  rewrite parse_date_text_portions.
  destruct (try_formats _ _) as [dt|].
  2:{ intros H; inversion H. now left. }
  destruct (time_portion (py_str x)) as [[|c t]|].
  - intros H; inversion H. right; eauto.
  - destruct (search_hm (c :: t)) as [[h mi]|].
    + destruct (replace_hm dt h mi); simpl; [|discriminate].
      intros H; inversion H. right; eauto.
    + intros H; inversion H. right; eauto.
  - intros H; inversion H. right; eauto.
Qed.

(** When it raises, [_parse_date_any] raises a clock error. *)
Lemma parse_date_any_raise (x : cell) (e : exn) :
  _parse_date_any x = Raise e -> clock_error e.
Proof.
  unfold _parse_date_any. destruct (isna x); [discriminate|].
  rewrite parse_date_text_portions.
  destruct (try_formats _ _) as [dt|]; [|discriminate].
  destruct (time_portion (py_str x)) as [[|c t]|]; try discriminate.
  destruct (search_hm (c :: t)) as [[h mi]|]; [|discriminate].
  unfold replace_hm, clock_error.
  destruct (negb _); [intros H; inversion H; now left|].
  destruct (negb _); [intros H; inversion H; now right|].
  discriminate.
Qed.

End DateFacts.

(** ** Claims on the date parser *)

(** C5.  The date portion is tried against the seven formats in the order
    of [_DATE_FORMATS] and the first format that accepts it gives the day
    of the timestamp; a text with a day-first reading is read day-first
    whatever month-first reading it has as well; a text no format accepts
    is missing, and so are the date and the time derived from it.
    ["1925-03-04"] is midnight of that day and ["04.03.1925 14:30"] is
    14:30 of the same day. *)
Theorem parse_date_any_format_order :
  _DATE_FORMATS =
    [ "%Y-%m-%d" : str; "%d.%m.%Y" : str; "%Y/%m/%d" : str; "%d-%m-%Y" : str;
      "%m-%d-%Y" : str; "%Y.%m.%d" : str; "%m/%d/%Y" : str ]
  /\ (forall s pre fmt post dt,
        _DATE_FORMATS = pre ++ fmt :: post ->
        Forall (rejects (date_portion s)) pre ->
        Strptime.strptime (date_portion s) fmt = Ok dt ->
        (time_portion s = None -> _parse_date_any (VStr s) = Ok (VTs dt))
        /\ (forall r, _parse_date_any (VStr s) = Ok r ->
            exists h mi, r = VTs (mkDT (dt_year dt) (dt_month dt) (dt_day dt) h mi)))
  /\ (forall (s fmt : str) dt,
        fmt = "%d.%m.%Y" \/ fmt = "%d-%m-%Y" ->
        Strptime.strptime (date_portion s) fmt = Ok dt ->
        (time_portion s = None -> _parse_date_any (VStr s) = Ok (VTs dt))
        /\ (forall r, _parse_date_any (VStr s) = Ok r ->
            exists h mi, r = VTs (mkDT (dt_year dt) (dt_month dt) (dt_day dt) h mi)))
  /\ (forall s, Forall (rejects (date_portion s)) _DATE_FORMATS ->
        _parse_date_any (VStr s) = Ok VNaT)
  /\ _parse_date_any (VStr "1925-03-04") = Ok (VTs (mkDT 1925 3 4 0 0))
  /\ _parse_date_any (VStr "04.03.1925 14:30") = Ok (VTs (mkDT 1925 3 4 14 30))
  /\ _parse_date_any (VStr "04-03-1925") = Ok (VTs (mkDT 1925 3 4 0 0))
  /\ _parse_date_any (VStr "not-a-date") = Ok VNaT
  /\ dt_date VNaT = VNaT /\ dt_time VNaT = VNaT
  /\ (forall numeric_text,
        load_one numeric_text bad_date_file =
        Ok (mkDF KEEP_COLS
                 [[VStr "riga"; VNaT; VNaT; VNaT; VNaN; VNaN; VNaN; VNaN; VNA; VNaN]])).
Proof.
  split; [reflexivity|].
  split.
  { intros s pre fmt post dt Hsplit Hpre Hok.
    unfold _parse_date_any. cbn [isna py_str].
    apply parse_date_text_day. rewrite Hsplit.
    now apply try_formats_first. }
  split.
  { intros s fmt dt Hfmt Hok.
    unfold _parse_date_any. cbn [isna py_str].
    apply parse_date_text_day. exact (day_first_wins _ fmt dt Hfmt Hok). }
  split.
  { intros s Hall. unfold _parse_date_any. cbn [isna py_str].
    rewrite parse_date_text_portions. now rewrite try_formats_none. }
  repeat split; intros; vm_compute; reflexivity.
Qed.

(** C1 fails on the code.  The hour and the minute found in the time
    portion are handed to [dt.replace] as they are, outside of every
    [try]: an hour above 23 or a minute above 59 raises [ValueError].
    Apart from that the claim holds: what [_parse_date_any] returns is a
    timestamp or NaT, and [_parse_float_messy] always returns, a float or
    NaN. *)
Theorem parse_date_any_raises_out_of_clock :
  _parse_date_any (VStr "1925-03-04 25:70") = Raise (ValueError "hour must be in 0..23")
  /\ _parse_date_any (VStr "1925-03-04 12:70") = Raise (ValueError "minute must be in 0..59")
  /\ (forall x r, _parse_date_any x = Ok r -> is_stamp r)
  /\ (forall x, _parse_float_messy x = VNaN \/ exists q, _parse_float_messy x = VFloat q).
Proof.
  split; [reflexivity|]. split; [reflexivity|]. split.
  - exact parse_date_any_stamp.
  - intros x. unfold _parse_float_messy.
    destruct (isna x); [now left|].
    destruct (mem _ NA_TOKENS); [now left|].
    destruct (mem _ WORD_ZERO); [right; eauto|].
    destruct (search_number _); [right; eauto | now left].
Qed.

(** ** Tables *)

Section FrameFacts.

Lemma col_pos_bound (c : str) (cols : list str) (i : nat) :
  col_pos c cols = Some i -> i < List.length cols.
Proof.
  revert i; induction cols as [|c' cols IH]; intros i; simpl; [discriminate|].
  destruct (eqb_str c c').
  - intros H; inversion H; lia.
  - destruct (col_pos c cols); [|discriminate].
    intros H; inversion H; subst. specialize (IH _ eq_refl). lia.
Qed.

Lemma col_pos_app_new (c : str) (cols : list str) :
  col_pos c cols = None -> col_pos c (cols ++ [c]) = Some (List.length cols).
Proof.
  induction cols as [|c' cols IH]; simpl.
  - now rewrite eqb_str_refl.
  - destruct (eqb_str c c'); [discriminate|].
    destruct (col_pos c cols); [discriminate|].
    intros _. now rewrite IH.
Qed.

Lemma col_pos_app_other (c c' : str) (cols : list str) :
  c <> c' -> col_pos c' (cols ++ [c]) = col_pos c' cols.
Proof.
  intros Hne. induction cols as [|d cols IH]; simpl.
  - rewrite eqb_str_neq by congruence. reflexivity.
  - destruct (eqb_str c' d); [reflexivity|]. now rewrite IH.
Qed.

Lemma nth_set_nth_same {A : Type} (i : nat) (v d : A) (xs : list A) :
  i < List.length xs -> nth i (set_nth i v xs) d = v.
Proof.
  revert i; induction xs as [|x xs IH]; intros [|i]; simpl; try lia; auto.
  intros H. apply IH. lia.
Qed.

Lemma nth_set_nth_other {A : Type} (i j : nat) (v d : A) (xs : list A) :
  i <> j -> nth j (set_nth i v xs) d = nth j xs d.
Proof.
  revert i j; induction xs as [|x xs IH]; intros [|i] [|j]; simpl; try lia; auto.
Qed.

Lemma length_set_nth {A : Type} (i : nat) (v : A) (xs : list A) :
  List.length (set_nth i v xs) = List.length xs.
Proof.
  revert i; induction xs as [|x xs IH]; intros [|i]; simpl; auto.
Qed.

Lemma col_pos_inj (c c' : str) (cols : list str) (i : nat) :
  col_pos c cols = Some i -> col_pos c' cols = Some i -> c = c'.
Proof.
  revert i; induction cols as [|d cols IH]; intros i; simpl; [discriminate|].
  destruct (eqb_str c d) eqn:E1, (eqb_str c' d) eqn:E2.
  - apply eqb_str_eq in E1, E2. congruence.
  - destruct (col_pos c' cols); [|discriminate]. intros H1 H2.
    inversion H1; inversion H2; lia.
  - destruct (col_pos c cols); [|discriminate]. intros H1 H2.
    inversion H1; inversion H2; lia.
  - destruct (col_pos c cols) eqn:P1; [|discriminate].
    destruct (col_pos c' cols) eqn:P2; [|discriminate].
    intros H1 H2. inversion H1; inversion H2; subst.
    apply (IH n); congruence.
Qed.

Lemma map_combine_fst {A B C : Type} (g : A * B -> C) (h : A -> C)
      (xs : list A) (ys : list B) :
  List.length xs = List.length ys ->
  (forall r v, In r xs -> g (r, v) = h r) ->
  map g (combine xs ys) = map h xs.
Proof.
  revert ys; induction xs as [|x xs IH]; intros [|y ys] Hlen Hg; simpl in *;
    try discriminate; [reflexivity|].
  rewrite Hg by auto. f_equal. apply IH; [lia | auto].
Qed.

Lemma map_combine_snd {A B : Type} (g : A * B -> B) (xs : list A) (ys : list B) :
  List.length xs = List.length ys ->
  (forall r v, In r xs -> g (r, v) = v) ->
  map g (combine xs ys) = ys.
Proof.
  revert ys; induction xs as [|x xs IH]; intros [|y ys] Hlen Hg; simpl in *;
    try discriminate; [reflexivity|].
  rewrite Hg by auto. f_equal. apply IH; [lia | auto].
Qed.

Lemma nth_map_seq {A : Type} (F : nat -> A) (d : A) (n i : nat) :
  i < n -> nth i (map F (seq 0 n)) d = F i.
Proof.
  intros H. rewrite (nth_indep _ d (F 0)) by (now rewrite length_map, length_seq).
  rewrite map_nth, seq_nth by assumption. reflexivity.
Qed.

Lemma get_col_ok (df : DataFrame) (c : str) :
  has_col df c = true ->
  exists vals, get_col df c = Ok vals /\ List.length vals = List.length (rows df).
Proof.
  unfold has_col, get_col. destruct (col_pos c (columns df)); [|discriminate].
  intros _. eexists. split; [reflexivity|]. now rewrite length_map.
Qed.

Lemma set_col_columns (df : DataFrame) (c : str) (vals : list cell) :
  columns (set_col df c vals) =
  if has_col df c then columns df else columns df ++ [c].
Proof.
  unfold set_col, has_col. now destruct (col_pos c (columns df)).
Qed.

Lemma set_col_rows_length (df : DataFrame) (c : str) (vals : list cell) :
  List.length vals = List.length (rows df) ->
  List.length (rows (set_col df c vals)) = List.length (rows df).
Proof.
  intros H. unfold set_col.
  destruct (col_pos c (columns df)); cbn [rows];
    rewrite length_map, length_combine; lia.
Qed.

Lemma set_col_well_formed (df : DataFrame) (c : str) (vals : list cell) :
  well_formed df -> well_formed (set_col df c vals).
Proof.
  unfold well_formed, set_col. intros Hwf.
  destruct (col_pos c (columns df)); cbn [rows columns];
    apply Forall_forall; intros r Hr;
    apply in_map_iff in Hr as ([r0 v] & <- & Hin);
    apply in_combine_l in Hin;
    rewrite Forall_forall in Hwf; specialize (Hwf _ Hin).
  - now rewrite length_set_nth.
  - rewrite !length_app. simpl. lia.
Qed.

Lemma get_set_same (df : DataFrame) (c : str) (vals : list cell) :
  well_formed df -> List.length vals = List.length (rows df) ->
  get_col (set_col df c vals) c = Ok vals.
Proof.
  unfold well_formed. intros Hwf Hlen. rewrite Forall_forall in Hwf.
  unfold set_col, get_col.
  destruct (col_pos c (columns df)) as [i|] eqn:E; cbn [rows columns].
  - rewrite E. f_equal. rewrite map_map.
    apply map_combine_snd; [lia|].
    intros r v Hr. apply nth_set_nth_same.
    rewrite (Hwf _ Hr). now apply (col_pos_bound c).
  - rewrite (col_pos_app_new _ _ E). f_equal. rewrite map_map.
    apply map_combine_snd; [lia|].
    intros r v Hr. rewrite app_nth2 by (rewrite (Hwf _ Hr); lia).
    rewrite (Hwf _ Hr), Nat.sub_diag. reflexivity.
Qed.

Lemma get_set_other (df : DataFrame) (c c' : str) (vals : list cell) :
  c <> c' ->
  well_formed df -> List.length vals = List.length (rows df) ->
  get_col (set_col df c vals) c' = get_col df c'.
Proof.
  unfold well_formed. intros Hne Hwf Hlen. rewrite Forall_forall in Hwf.
  unfold set_col, get_col.
  destruct (col_pos c (columns df)) as [i|] eqn:E; cbn [rows columns].
  - destruct (col_pos c' (columns df)) as [j|] eqn:E'; [|reflexivity].
    f_equal. rewrite map_map.
    apply map_combine_fst; [lia|].
    intros r v _. apply nth_set_nth_other.
    intros ->. apply Hne. exact (col_pos_inj _ _ _ _ E E').
  - rewrite (col_pos_app_other _ _ _ Hne).
    destruct (col_pos c' (columns df)) as [j|] eqn:E'; [|reflexivity].
    f_equal. rewrite map_map.
    apply map_combine_fst; [lia|].
    intros r v Hr. apply app_nth1.
    rewrite (Hwf _ Hr). now apply (col_pos_bound c').
Qed.

Lemma has_col_set_col (df : DataFrame) (c c' : str) (vals : list cell) :
  has_col (set_col df c vals) c' = has_col df c' || eqb_str c' c.
Proof.
  unfold has_col. rewrite set_col_columns. unfold has_col.
  destruct (col_pos c (columns df)) as [i|] eqn:E.
  - destruct (col_pos c' (columns df)) eqn:E'; [reflexivity|].
    simpl. symmetry. apply eqb_str_neq. intros ->. congruence.
  - destruct (eqb_str c' c) eqn:Q.
    + apply eqb_str_eq in Q. subst c'. rewrite (col_pos_app_new _ _ E), E. reflexivity.
    + rewrite col_pos_app_other by (intros ->; now rewrite eqb_str_refl in Q).
      now rewrite orb_false_r.
Qed.

End FrameFacts.

(** ** The file loader *)

Section LoaderFacts.

Variable numeric_text : str -> option Q.

Lemma mapM_ok {A B : Type} (f : A -> result B) (P : B -> Prop) (xs : list A) (ys : list B) :
  (forall x y, f x = Ok y -> P y) ->
  mapM f xs = Ok ys -> List.length ys = List.length xs /\ Forall P ys.
Proof.
  intros Hf. revert ys; induction xs as [|x xs IH]; intros ys; simpl.
  - intros H; inversion H. split; [reflexivity | constructor].
  - destruct (f x) as [y|] eqn:E; simpl; [|discriminate].
    destruct (mapM f xs) as [ys'|]; simpl; [|discriminate].
    intros H; inversion H; subst. destruct (IH _ eq_refl) as [Hl HP].
    split; [simpl; lia | constructor; eauto].
Qed.

Lemma raw_well_formed (f : File) (sep : str) (cols : list str) :
  cols <> [] ->
  well_formed (mkDF (columns (_read_rows_raw f sep cols))
                    (map (map replace_na) (rows (_read_rows_raw f sep cols)))).
Proof.
  intros Hne. unfold well_formed, _read_rows_raw. cbn [rows columns].
  rewrite map_map. apply Forall_map, Forall_forall. intros l _.
  rewrite !length_map. now apply tokenize_length.
Qed.

Lemma coerce_column_ok (df : DataFrame) (c : str) :
  well_formed df ->
  exists df',
    coerce_column numeric_text df c = Ok df'
    /\ well_formed df' /\ columns df' = columns df
    /\ List.length (rows df') = List.length (rows df).
Proof.
  intros Hwf. unfold coerce_column.
  destruct (has_col df c) eqn:Hc; [|eauto 6].
  destruct (get_col_ok df c Hc) as (vals & -> & Hlen). cbn [bind].
  destruct (eqb_str c "precip_24h_mm");
    (eexists; split; [reflexivity|]; split; [now apply set_col_well_formed|]; split;
     [rewrite set_col_columns; now rewrite Hc
     | apply set_col_rows_length; now rewrite ?length_map]).
Qed.

Lemma coerce_columns_ok (cs : list str) (df : DataFrame) :
  well_formed df ->
  exists df',
    coerce_columns numeric_text df cs = Ok df'
    /\ well_formed df' /\ columns df' = columns df
    /\ List.length (rows df') = List.length (rows df).
Proof.
  revert df; induction cs as [|c cs IH]; intros df Hwf; simpl; [eauto 6|].
  destruct (coerce_column_ok df c Hwf) as (df1 & -> & Hwf1 & Hc1 & Hl1). cbn [bind].
  destruct (IH df1 Hwf1) as (df2 & -> & Hwf2 & Hc2 & Hl2).
  exists df2. repeat split; auto; congruence.
Qed.

(** The table after the timestamp and the station were set. *)
Lemma stamped_table (df df' : DataFrame) (label : str) :
  well_formed df ->
  (if has_col df "date"
   then dates <- get_col df "date" ;;
        stamps <- mapM _parse_date_any dates ;;
        Ok (set_col df "timestamp" stamps)
   else Ok (set_scalar df "timestamp" VNaT)) = Ok df' ->
  let df3 := set_scalar df' "station" (VStr label) in
  let n := List.length (rows df) in
  well_formed df3 /\ List.length (rows df3) = n
  /\ get_col df3 "station" = Ok (repeat (VStr label) n)
  /\ (forall c, has_col df c = true -> has_col df3 c = true)
  /\ (forall c, has_col df3 c = has_col df c || eqb_str c "timestamp" || eqb_str c "station")
  /\ exists stamps,
       get_col df3 "timestamp" = Ok stamps
       /\ List.length stamps = n /\ Forall is_stamp stamps.
Proof.
  intros Hwf Hstep df3 n.
  assert (H2 : exists stamps,
             df' = set_col df "timestamp" stamps
             /\ List.length stamps = n /\ Forall is_stamp stamps).
  { destruct (has_col df "date") eqn:Hd.
    - destruct (get_col_ok df _ Hd) as (dates & Hg & Hlen). rewrite Hg in Hstep.
      cbn [bind] in Hstep.
      destruct (mapM _parse_date_any dates) as [stamps|] eqn:Hm; [|discriminate].
      cbn [bind] in Hstep. inversion Hstep; subst df'.
      destruct (mapM_ok _ is_stamp _ _ parse_date_any_stamp Hm) as [Hl Hs].
      exists stamps. repeat split; auto. subst n. congruence.
    - inversion Hstep; subst df'. exists (repeat VNaT n). unfold set_scalar.
      repeat split; [apply repeat_length|].
      apply Forall_forall. intros x Hx. apply repeat_spec in Hx. now left. }
  destruct H2 as (stamps & -> & Hlen & Hst).
  assert (Hwf' : well_formed (set_col df "timestamp" stamps))
    by now apply set_col_well_formed.
  assert (Hl' : List.length (rows (set_col df "timestamp" stamps)) = n)
    by now apply set_col_rows_length.
  subst df3. unfold set_scalar. rewrite Hl'.
  split; [now apply set_col_well_formed|].
  split; [rewrite set_col_rows_length; [exact Hl' | now rewrite repeat_length]|].
  split; [apply get_set_same; [assumption | now rewrite repeat_length]|].
  split; [intros c Hc; rewrite !has_col_set_col, Hc; reflexivity|].
  split; [intros c; now rewrite !has_col_set_col|].
  exists stamps. split; [|split; assumption].
  rewrite get_set_other; [| discriminate | assumption | now rewrite repeat_length].
  now apply get_set_same.
Qed.

Lemma combine_seq_forms {A B : Type} (F : nat -> A) (V : nat -> B) (a n : nat) :
  combine (map F (seq a n)) (map V (seq a n)) = map (fun i => (F i, V i)) (seq a n).
Proof.
  revert a; induction n as [|n IH]; intros a; simpl; [reflexivity|].
  now rewrite IH.
Qed.

Lemma map_nth_seq_id {A : Type} (d : A) (n : nat) (l : list A) :
  List.length l = n -> l = map (fun i => nth i l d) (seq 0 n).
Proof.
  intros <-. induction l as [|x l IH]; simpl; [reflexivity|].
  f_equal. rewrite <- seq_shift, map_map. exact IH.
Qed.

Lemma set_col_seq_new (cols : list str) (F : nat -> list cell) (V : nat -> cell)
      (n : nat) (c : str) :
  col_pos c cols = None ->
  set_col (mkDF cols (map F (seq 0 n))) c (map V (seq 0 n)) =
  mkDF (cols ++ [c]) (map (fun i => F i ++ [V i]) (seq 0 n)).
Proof.
  intros Hc. unfold set_col. cbn [columns rows]. rewrite Hc.
  f_equal. now rewrite combine_seq_forms, map_map.
Qed.

Lemma set_col_seq_old (cols : list str) (F : nat -> list cell) (V : nat -> cell)
      (n : nat) (c : str) (j : nat) :
  col_pos c cols = Some j ->
  set_col (mkDF cols (map F (seq 0 n))) c (map V (seq 0 n)) =
  mkDF cols (map (fun i => set_nth j (V i) (F i)) (seq 0 n)).
Proof.
  intros Hc. unfold set_col. cbn [columns rows]. rewrite Hc.
  f_equal. now rewrite combine_seq_forms, map_map.
Qed.

Lemma get_col_seq (cols : list str) (F : nat -> list cell) (n : nat) (c : str) (j : nat) :
  col_pos c cols = Some j ->
  get_col (mkDF cols (map F (seq 0 n))) c = Ok (map (fun i => nth j (F i) VNaN) (seq 0 n)).
Proof.
  intros Hc. unfold get_col. cbn [columns rows]. rewrite Hc, map_map. reflexivity.
Qed.

Lemma pick_column (df : DataFrame) (k : str) :
  (if has_col df k
   then vals <- get_col df k ;; Ok (k, vals)
   else Ok (k, repeat VNaN (List.length (rows df))))
  = Ok (k, column_or_nan df k)
  /\ List.length (column_or_nan df k) = List.length (rows df).
Proof.
  unfold column_or_nan, has_col, get_col.
  destruct (col_pos k (columns df)); cbn [bind].
  - split; [reflexivity | now rewrite length_map].
  - split; [reflexivity | now rewrite repeat_length].
Qed.

Lemma mapM_raise {A B : Type} (f : A -> result B) (xs : list A) (e : exn) :
  mapM f xs = Raise e -> exists x, In x xs /\ f x = Raise e.
Proof.
  induction xs as [|x xs IH]; simpl; [discriminate|].
  destruct (f x) as [y|e'] eqn:E; simpl.
  - destruct (mapM f xs) as [ys|e'']; simpl; [discriminate|].
    intros H; inversion H; subst. destruct (IH eq_refl) as (x' & Hin & Hx'). eauto.
  - intros H; inversion H; subst. eauto.
Qed.

(** The timestamp step raises only what the date parser raises. *)
Lemma stamping_raise (df : DataFrame) (e : exn) :
  (if has_col df "date"
   then dates <- get_col df "date" ;;
        stamps <- mapM _parse_date_any dates ;;
        Ok (set_col df "timestamp" stamps)
   else Ok (set_scalar df "timestamp" VNaT)) = Raise e ->
  clock_error e.
Proof.
  destruct (has_col df "date") eqn:Hd; [|discriminate].
  destruct (get_col_ok df _ Hd) as (dates & -> & _). cbn [bind].
  destruct (mapM _parse_date_any dates) as [stamps|e'] eqn:Hm; [discriminate|].
  cbn [bind]. intros H; inversion H; subst e'.
  apply mapM_raise in Hm as (x & _ & Hx).
  exact (parse_date_any_raise _ _ Hx).
Qed.

(** The weather codes: without the column the cast raises; with it the
    codes are a column as long as the table. *)
Lemma codes_step (df : DataFrame) (c : str) :
  exists o,
    py_round (to_numeric numeric_text (df_get df c)) = Ok o
    /\ ((has_col df c = false
         /\ astype_Int64 o = Raise (TypeError "data type 'Int64' not understood"))
        \/ (has_col df c = true
            /\ exists codes,
                 astype_Int64 o = Ok codes
                 /\ List.length codes = List.length (rows df))).
Proof.
  unfold df_get, get_col, has_col. destruct (col_pos c (columns df)) as [j|].
  - eexists. split; [reflexivity|]. right. split; [reflexivity|].
    eexists. split; [reflexivity|]. now rewrite !length_map.
  - eexists. split; [reflexivity|]. left. split; reflexivity.
Qed.

(** How [load_one] ends once the header was read. *)
Lemma load_one_cases (f : File) (label sep : str) (cols : list str) :
  _read_header f = Ok (label, sep, cols) ->
  load_outcome label cols (load_one numeric_text f).
Proof.
  intros Hh.
  cut (forall res, load_one numeric_text f = res -> load_outcome label cols res);
    [intros Hcut; now apply Hcut|].
  intros res. unfold load_one. rewrite Hh. cbn [bind].
  pose proof (read_header_cols_nonempty _ _ _ _ Hh) as Hne.
  pose proof (raw_well_formed f sep cols Hne) as Hwf0.
  destruct (coerce_columns_ok
              ["t_max_c" : str; "t_min_c" : str; "precip_24h_mm" : str;
               "present_weather_code" : str] _ Hwf0)
    as (df1 & -> & Hwf1 & Hc1 & Hl1).
  cbn [bind].
  match goal with
  | |- bind ?step _ = _ -> _ => destruct step as [df2|e] eqn:Hstep
  end.
  2:{ cbn [bind]. intros <-. left. exists e. split; [|reflexivity].
      exact (stamping_raise _ _ Hstep). }
  cbn [bind].
  destruct (stamped_table df1 df2 label Hwf1 Hstep)
    as (Hwf3 & Hl3 & Hst3 & _ & Hhas3 & stamps & Hts3 & Hlen & Hstamps).
  set (df3 := set_scalar df2 "station" (VStr label)) in *.
  set (n := List.length (rows df1)) in *.
  assert (Hdecl : has_col df3 "present_weather_code"
                  = has_col (mkDF cols []) "present_weather_code").
  { rewrite Hhas3. cbn. rewrite !orb_false_r. unfold has_col. now rewrite Hc1. }
  replace (filter (fun k : str => negb (mem k ["timestamp" : str; "date" : str; "time" : str]))
                  KEEP_COLS)
    with ["station" : str; "t_max_c" : str; "t_min_c" : str; "precip_24h_mm" : str;
          "precip_type" : str; "present_weather_code" : str; "notes" : str]
    by reflexivity.
  cbn [mapM].
  destruct (pick_column df3 "station") as [-> _].
  destruct (pick_column df3 "t_max_c") as [-> L1].
  destruct (pick_column df3 "t_min_c") as [-> L2].
  destruct (pick_column df3 "precip_24h_mm") as [-> L3].
  destruct (pick_column df3 "precip_type") as [-> L4].
  destruct (pick_column df3 "present_weather_code") as [-> _].
  destruct (pick_column df3 "notes") as [-> L6].
  cbn [bind]. rewrite Hts3. cbn [bind].
  assert (Hst : column_or_nan df3 "station" = repeat (VStr label) n)
    by (unfold column_or_nan; now rewrite Hst3).
  rewrite Hst, Hl3 in *.
  unfold from_columns. cbn [map fst snd].
  pose (S := fun i => nth i stamps VNaN).
  assert (Hs : stamps = map S (seq 0 n)) by now apply map_nth_seq_id.
  rewrite Hs.
  rewrite set_col_seq_new by reflexivity. cbn [app].
  rewrite (get_col_seq _ _ _ _ 7) by reflexivity. cbn [bind nth].
  rewrite map_map, set_col_seq_new by reflexivity. cbn [app].
  rewrite (get_col_seq _ _ _ _ 7) by reflexivity. cbn [bind nth].
  rewrite map_map, set_col_seq_new by reflexivity. cbn [app].
  destruct (codes_step df3 "present_weather_code") as (o & -> & Hcast).
  cbn [bind].
  destruct Hcast as [[Hcode ->]|(Hcode & codes & -> & Hcl)]; cbn [bind].
  { intros <-. right. left. split; [congruence | reflexivity]. }
  pose (C := fun i => nth i codes VNaN).
  assert (Hc : codes = map C (seq 0 n))
    by (apply map_nth_seq_id; congruence).
  rewrite Hc.
  rewrite (set_col_seq_old _ _ _ _ _ 5) by reflexivity. cbn [set_nth].
  replace (filter (has_col _) KEEP_COLS) with KEEP_COLS by reflexivity.
  unfold select, KEEP_COLS. cbn [mapM].
  repeat (erewrite get_col_seq by reflexivity; cbn [bind nth]).
  cbn [rows]. rewrite length_map, length_seq.
  unfold from_columns. cbn [map fst snd].
  intros <-. right. right. split; [congruence|].
  exists stamps,
    (fun i => [nth i (column_or_nan df3 "t_max_c") VNaN;
               nth i (column_or_nan df3 "t_min_c") VNaN;
               nth i (column_or_nan df3 "precip_24h_mm") VNaN;
               nth i (column_or_nan df3 "precip_type") VNaN;
               C i;
               nth i (column_or_nan df3 "notes") VNaN]), n.
  repeat split; auto.
  do 2 f_equal. apply map_ext_in. intros i Hi. apply in_seq in Hi.
  rewrite !nth_map_seq by lia.
  rewrite nth_repeat_lt by lia. reflexivity.
Qed.

(** What [load_one] returns, when it returns: the ten columns, the station
    label in every row, a timestamp or NaT, and the date and the time taken
    from the timestamp. *)
Lemma load_one_shape (f : File) (out : DataFrame) :
  load_one numeric_text f = Ok out ->
  exists label sep cols stamps G n,
    _read_header f = Ok (label, sep, cols)
    /\ has_col (mkDF cols []) "present_weather_code" = true
    /\ List.length stamps = n /\ Forall is_stamp stamps
    /\ (forall i, List.length (G i) = 6)
    /\ out = mkDF KEEP_COLS
                  (map (fun i => VStr label :: nth i stamps VNaN
                                 :: dt_date (nth i stamps VNaN)
                                 :: dt_time (nth i stamps VNaN) :: G i)
                       (seq 0 n)).
Proof.
  intros Hload.
  destruct (_read_header f) as [[[label sep] cols]|e] eqn:Hh.
  2:{ unfold load_one in Hload. rewrite Hh in Hload. discriminate. }
  destruct (load_one_cases f label sep cols Hh)
    as [(e & _ & He)|[[_ He]|(Hcode & stamps & G & n & Hlen & Hst & HG & He)]];
    rewrite He in Hload; try discriminate.
  inversion Hload; subst out.
  exists label, sep, cols, stamps, G, n. repeat split; auto.
Qed.

End LoaderFacts.

(** ** Claims on the file loader *)

(** C2 fails on the code.  For a file that declares no
    [present_weather_code] column, [df.get] yields [None], [pd.to_numeric]
    makes the scalar NaN of it, and [astype("Int64")] on that scalar
    raises: no table is returned, for the sample file and for every file
    whose header lacks the column.  What the claim says holds for the
    files that are loaded: the table has the ten columns in their order
    and ten cells in every row, also without a date column. *)
Theorem load_one_without_code_column (numeric_text : str -> option Q) :
  load_one numeric_text no_code_file = Raise (TypeError "data type 'Int64' not understood")
  /\ (forall f label sep cols,
        _read_header f = Ok (label, sep, cols) ->
        has_col (mkDF cols []) "present_weather_code" = false ->
        exists e, load_one numeric_text f = Raise e
                  /\ (e = TypeError "data type 'Int64' not understood" \/ clock_error e))
  /\ (forall f out,
        load_one numeric_text f = Ok out ->
        columns out = KEEP_COLS /\ Forall (fun r => List.length r = 10) (rows out))
  /\ load_one numeric_text no_date_file =
     Ok (mkDF KEEP_COLS
              [[VStr "Riga"; VNaT; VNaT; VNaT; VNaN; VNaN; VNaN; VNaN; VNA; VStr "fog"]]).
Proof.
  split; [vm_compute; reflexivity|]. split; [|split; [|vm_compute; reflexivity]].
  - intros f label sep cols Hh Hno.
    destruct (load_one_cases numeric_text f label sep cols Hh)
      as [(e & He & ->)|[[_ ->]|(Hcode & _)]]; [eauto | eauto | congruence].
  - intros f out E.
    destruct (load_one_shape numeric_text f out E)
      as (label & sep & cols & stamps & G & n & _ & _ & _ & _ & HG & ->).
    split; [reflexivity|]. cbn [rows].
    apply Forall_map, Forall_forall. intros i _. simpl. now rewrite HG.
Qed.

(** C4.  Reading the header fails exactly when no line starting with
    [# fields=] stands among the leading comment lines; the failure is the
    [ValueError] whose message ends with the path of the file, and loading
    the file fails with that error in exactly that case.  When there is
    such a line the header is read, and what follows that line is never
    looked at. *)
Theorem read_header_fails_iff_no_fields (f : File) :
  ((exists e, _read_header f = Raise e) <-> ~ declares_fields (file_lines f))
  /\ (forall e, _read_header f = Raise e ->
      e = ValueError ("Missing '# fields=' header in " ++ path_text (file_path f)))
  /\ (forall numeric_text,
      load_one numeric_text f
      = Raise (ValueError ("Missing '# fields=' header in " ++ path_text (file_path f)))
      <-> ~ declares_fields (file_lines f))
  /\ (declares_fields (file_lines f) ->
      exists station sep cols, _read_header f = Ok (station, sep, cols))
  /\ (forall pre fl rest rest',
      file_lines f = pre ++ fl :: rest -> is_fields fl ->
      _read_header (mkFile (file_path f) (pre ++ fl :: rest')) = _read_header f).
Proof.
  assert (Hrest : forall pre fl rest rest',
             file_lines f = pre ++ fl :: rest -> is_fields fl ->
             _read_header (mkFile (file_path f) (pre ++ fl :: rest')) = _read_header f).
  { intros pre fl' rest rest' Hlines Hfl'.
    unfold _read_header. rewrite !header_loop_spec. cbn [file_lines file_path].
    now rewrite Hlines, (header_region_rest pre fl' rest' rest Hfl'). }
  destruct (find (startswith "# fields=") (header_region (file_lines f))) as [fl|] eqn:Hfind.
  - destruct (read_header_found f fl Hfind) as (sep & cols & Hok & _).
    pose proof (header_region_declares _ _ Hfind) as Hdecl.
    split; [|split; [|split; [|split]]].
    + split; [intros [e He]; congruence | intros Hno; contradiction].
    + intros e He. congruence.
    + intros numeric_text. split; [|intros Hno; contradiction].
      intros Hload. exfalso.
      destruct (load_one_cases numeric_text f _ _ _ Hok)
        as [(e & [He|He] & Hr)|[[_ Hr]|(_ & stamps & G & n & _ & _ & _ & Hr)]];
        rewrite Hr in Hload; subst; discriminate.
    + intros _. eauto.
    + exact Hrest.
  - pose proof (read_header_missing f Hfind) as Hraise.
    assert (Hno : ~ declares_fields (file_lines f)).
    { intros (pre & fl & rest & Hlines & Hpre & Hfl).
      destruct (header_region_found pre fl rest Hpre Hfl) as [fl' Hfl'].
      rewrite <- Hlines in Hfl'. congruence. }
    split; [|split; [|split; [|split]]].
    + split; [intros _; exact Hno | intros _; eauto].
    + intros e He. rewrite Hraise in He. now inversion He.
    + intros numeric_text. split; [intros _; exact Hno|].
      intros _. unfold load_one. now rewrite Hraise.
    + intros Hdecl. contradiction.
    + exact Hrest.
Qed.

(** ** Sorting *)

Section SortFacts.

Lemma lex_leb_refl (a : list Z) : lex_leb a a = true.
Proof.
  induction a as [|x a IH]; simpl; [reflexivity|].
  now rewrite Z.eqb_refl, IH, orb_true_r.
Qed.

Lemma lex_leb_total (a b : list Z) : lex_leb a b = false -> lex_leb b a = true.
Proof.
  revert b; induction a as [|x a IH]; intros [|y b]; simpl; try discriminate; auto.
  intros H. apply orb_false_elim in H as [H1 H2].
  apply Z.ltb_ge in H1.
  destruct (Z.eqb_spec x y) as [->|Hne].
  - simpl in H2. rewrite (IH _ H2), Z.eqb_refl. apply orb_true_r.
  - apply orb_true_intro. left. apply Z.ltb_lt. lia.
Qed.

Lemma lex_leb_trans (a b c : list Z) :
  lex_leb a b = true -> lex_leb b c = true -> lex_leb a c = true.
Proof.
  revert b c; induction a as [|x a IH]; intros [|y b] [|z c]; simpl;
    try discriminate; auto.
  intros H1 H2.
  apply orb_prop in H1 as [H1|H1]; apply orb_prop in H2 as [H2|H2];
    rewrite ?Z.ltb_lt in *; rewrite ?andb_true_iff in *; rewrite ?Z.eqb_eq in *.
  - apply orb_true_intro. left. apply Z.ltb_lt. lia.
  - destruct H2 as [-> _]. apply orb_true_intro. left. now apply Z.ltb_lt.
  - destruct H1 as [-> _]. apply orb_true_intro. left. now apply Z.ltb_lt.
  - destruct H1 as [-> H1], H2 as [-> H2].
    rewrite Z.eqb_refl, (IH _ _ H1 H2). apply orb_true_r.
Qed.

Lemma lex_leb_antisym (a b : list Z) :
  lex_leb a b = true -> lex_leb b a = true -> a = b.
Proof.
  revert b; induction a as [|x a IH]; intros [|y b]; simpl; try discriminate; auto.
  intros H1 H2.
  apply orb_prop in H1 as [H1|H1]; apply orb_prop in H2 as [H2|H2];
    rewrite ?Z.ltb_lt in *; rewrite ?andb_true_iff in *; rewrite ?Z.eqb_eq in *;
    try lia.
  destruct H1 as [-> H1], H2 as [_ H2]. f_equal. now apply IH.
Qed.

Lemma keys_leb_refl (k : list (list Z)) : keys_leb k k = true.
Proof.
  induction k as [|a k IH]; simpl; [reflexivity|].
  now rewrite lex_leb_refl.
Qed.

Lemma row_leb_total (ps : list nat) (r1 r2 : list cell) :
  keys_leb (row_keys ps r1) (row_keys ps r2) = false ->
  keys_leb (row_keys ps r2) (row_keys ps r1) = true.
Proof.
  induction ps as [|p ps IH]; simpl; [discriminate|].
  destruct (lex_leb (cell_key (nth p r1 VNaN)) (cell_key (nth p r2 VNaN))) eqn:E12.
  - destruct (lex_leb (cell_key (nth p r2 VNaN)) (cell_key (nth p r1 VNaN))) eqn:E21.
    + exact IH.
    + discriminate.
  - intros _. now rewrite (lex_leb_total _ _ E12).
Qed.

Lemma row_leb_trans (ps : list nat) (r1 r2 r3 : list cell) :
  keys_leb (row_keys ps r1) (row_keys ps r2) = true ->
  keys_leb (row_keys ps r2) (row_keys ps r3) = true ->
  keys_leb (row_keys ps r1) (row_keys ps r3) = true.
Proof.
  induction ps as [|p ps IH]; simpl; [reflexivity|].
  set (a := cell_key (nth p r1 VNaN)).
  set (b := cell_key (nth p r2 VNaN)).
  set (c := cell_key (nth p r3 VNaN)).
  destruct (lex_leb a b) eqn:Eab; [|discriminate].
  destruct (lex_leb b c) eqn:Ebc; [|intros _; discriminate].
  rewrite (lex_leb_trans _ _ _ Eab Ebc).
  destruct (lex_leb c a) eqn:Eca; [|reflexivity].
  rewrite (lex_leb_trans _ _ _ Ebc Eca), (lex_leb_trans _ _ _ Eca Eab).
  exact IH.
Qed.

Variable A : Type.
Variable leb : A -> A -> bool.
Hypothesis leb_total : forall x y, leb x y = false -> leb y x = true.
Hypothesis leb_trans : forall x y z, leb x y = true -> leb y z = true -> leb x z = true.

Lemma insert_sorted_perm (x : A) (l : list A) :
  Permutation (insert_sorted leb x l) (x :: l).
Proof.
  induction l as [|y l IH]; simpl; [reflexivity|].
  destruct (leb x y); [reflexivity|].
  rewrite IH. apply perm_swap.
Qed.

Lemma stable_sort_perm (l : list A) : Permutation (stable_sort leb l) l.
Proof.
  induction l as [|x l IH]; simpl; [reflexivity|].
  rewrite insert_sorted_perm. now constructor.
Qed.

Lemma insert_sorted_sorted (x : A) (l : list A) :
  StronglySorted (fun a b => leb a b = true) l ->
  StronglySorted (fun a b => leb a b = true) (insert_sorted leb x l).
Proof.
  induction 1 as [|y l Hl IH Hy]; simpl.
  - repeat constructor.
  - destruct (leb x y) eqn:E.
    + constructor; [now constructor|].
      constructor; [exact E|].
      eapply Forall_impl; [|exact Hy]. intros z Hz. now apply (leb_trans x y z).
    + constructor; [exact IH|].
      eapply Permutation_Forall.
      * symmetry. apply insert_sorted_perm.
      * constructor; [now apply leb_total | exact Hy].
Qed.

Lemma stable_sort_sorted (l : list A) :
  StronglySorted (fun a b => leb a b = true) (stable_sort leb l).
Proof.
  induction l as [|x l IH]; simpl; [constructor|].
  now apply insert_sorted_sorted.
Qed.

(** Insertion goes in front of the records it ties with. *)
Lemma insert_sorted_filter (p : A -> bool) (x : A) (l : list A) :
  (forall y, p x = true -> p y = true -> leb x y = true) ->
  filter p (insert_sorted leb x l) = filter p (x :: l).
Proof.
  intros Hp. induction l as [|y l IH]; [reflexivity|].
  cbn [insert_sorted]. destruct (leb x y) eqn:E; [reflexivity|].
  cbn [filter] in *. rewrite IH.
  destruct (p x) eqn:Px, (p y) eqn:Py; try reflexivity.
  rewrite (Hp y eq_refl Py) in E. discriminate.
Qed.

(** The sort keeps the order of the records that [p] singles out, as long
    as those records tie with one another. *)
Lemma stable_sort_filter (p : A -> bool) (l : list A) :
  (forall x y, p x = true -> p y = true -> leb x y = true) ->
  filter p (stable_sort leb l) = filter p l.
Proof.
  intros Hp. induction l as [|x l IH]; [reflexivity|].
  cbn [stable_sort]. rewrite insert_sorted_filter by (intros y; apply Hp).
  cbn [filter]. now rewrite IH.
Qed.

Lemma StronglySorted_weaken (R R' : A -> A -> Prop) (P : A -> Prop) (l : list A) :
  (forall a b, P a -> P b -> R a b -> R' a b) ->
  Forall P l -> StronglySorted R l -> StronglySorted R' l.
Proof.
  intros HR HP Hs. induction Hs as [|x l Hl IH Hx]; [constructor|].
  inversion HP as [|? ? Px Pl]; subst.
  constructor; [now apply IH|].
  rewrite Forall_forall in *. intros y Hy. apply HR; auto.
Qed.

End SortFacts.

(** ** Claims on the station label *)

Section StationFacts.

Lemma split_from_absent (sep s : str) :
  contains sep s = false -> split_from sep 0 s = [s].
Proof.
  induction s as [|c s IH]; intros H; [reflexivity|].
  rewrite contains_unfold in H. apply orb_false_elim in H as [H1 H2].
  cbn [split_from]. rewrite H1, (IH H2). reflexivity.
Qed.

(** The value of a plain directive line is the text behind the equals
    sign. *)
Lemma declared_station_plain (v : str) :
  contains "station_name=" v = false -> rstrip v = v ->
  declared_station ("# station_name=" ++ v ++ [NL]) = v.
Proof.
  intros Hv Hr. unfold declared_station, strip.
  change (lstrip ("# station_name=" ++ v ++ [NL]))
    with (("# station_name" : str) ++ "="%char :: (v ++ [NL])).
  rewrite rstrip_app_nonspace by reflexivity.
  rewrite rstrip_app_spaces by (repeat constructor).
  rewrite Hr. unfold split. cbn.
  rewrite split_from_absent; [reflexivity | exact Hv].
Qed.

Lemma read_header_label (f : File) (label sep : str) (cols : list str) :
  _read_header f = Ok (label, sep, cols) ->
  label = or_stem (last_declared (header_region (file_lines f))) (file_path f).
Proof.
  intros H.
  destruct (find (startswith "# fields=") (header_region (file_lines f))) as [fl|] eqn:Hfind.
  - destruct (read_header_found f fl Hfind) as (sep' & cols' & Hok & _).
    rewrite Hok in H. now inversion H.
  - rewrite (read_header_missing f Hfind) in H. discriminate.
Qed.

End StationFacts.

(** C9, as the code has it.  Every record of a loaded file carries, in the
    station column, the value of the last [station_name=] declaration among
    the header lines read (up to and with the fields declaration) when that
    value is not empty, and the base name of the file when there is no
    declaration or the declared value is empty.  On a plain directive line
    the declared value is the text behind the equals sign. *)
Theorem station_label_stamped (numeric_text : str -> option Q) (f : File) (out : DataFrame) :
  load_one numeric_text f = Ok out ->
  let label :=
    match last_declared (header_region (file_lines f)) with
    | Some (c :: v) => c :: v
    | _ => path_stem (file_path f)
    end in
  (exists sep cols, _read_header f = Ok (label, sep, cols))
  /\ nth_error (columns out) 0 = Some ("station" : str)
  /\ Forall (fun r => nth 0 r VNaN = VStr label) (rows out)
  /\ (forall v, contains "station_name=" v = false -> rstrip v = v ->
      declared_station ("# station_name=" ++ v ++ [NL]) = v).
Proof.
  intros Hload label.
  destruct (load_one_shape numeric_text f out Hload)
    as (label' & sep & cols & stamps & G & n & Hh & _ & _ & _ & _ & ->).
  pose proof (read_header_label _ _ _ _ Hh) as Hl.
  assert (label' = label) by exact Hl. subst label'.
  split; [eauto|]. split; [reflexivity|]. split.
  - cbn [rows]. apply Forall_map, Forall_forall. intros i _. reflexivity.
  - exact declared_station_plain.
Qed.

Lemma station_label_stamped_witness :
  Forall (fun r => nth 0 r VNaN = VStr "Riga University") (rows riga_table).
Proof.
  refine (proj1 (proj2 (proj2
            (station_label_stamped (fun _ => None) riga_file riga_table _)))).
  vm_compute. reflexivity.
Defined.

(** C9, as it is worded, fails: a declaration is present and the station
    is the base name of the file all the same, because the declared value
    is empty. *)
Lemma empty_station_name_falls_back :
  contains "station_name=" (text_line "# station_name=") = true
  /\ declared_station (text_line "# station_name=") = []
  /\ _read_header empty_station_file
     = Ok ("riga" : str, ";" : str, ["date" : str; "present_weather_code" : str])
  /\ (forall numeric_text,
        load_one numeric_text empty_station_file
        = Ok (mkDF KEEP_COLS
                   [[VStr "riga"; VTs (mkDT 1925 3 4 0 0); VDate 1925 3 4; VTime 0 0;
                     VNaN; VNaN; VNaN; VNaN;
                     match numeric_text "61" with
                     | Some q => VInt (Qfloor (inject_Z (round_half_even q)))
                     | None => VNA
                     end; VNaN]])).
Proof.
  repeat split. intros numeric_text. vm_compute.
  destruct (numeric_text _); reflexivity.
Qed.

(** ** The corpus merger *)

Section MergeFacts.

Variable numeric_text : str -> option Q.

Lemma load_one_loaded (f : File) (out : DataFrame) :
  load_one numeric_text f = Ok out -> loaded_frame out.
Proof.
  intros H.
  destruct (load_one_shape numeric_text f out H)
    as (label & sep & cols & stamps & G & n & _ & _ & Hlen & Hst & HG & ->).
  split; [reflexivity|]. cbn [rows].
  apply Forall_map, Forall_forall. intros i Hi. apply in_seq in Hi.
  repeat split.
  - simpl. now rewrite HG.
  - simpl. eauto.
  - simpl. rewrite Forall_forall in Hst. apply Hst, nth_In. lia.
Qed.

Lemma union_cols_loaded (frames : list DataFrame) :
  frames <> [] -> Forall loaded_frame frames -> union_cols frames = KEEP_COLS.
Proof.
  unfold union_cols. intros Hne Hall.
  assert (Hacc : forall fs, Forall loaded_frame fs ->
            fold_left (fun acc f =>
                         acc ++ filter (fun c => negb (mem c acc))
                                       (nodup (list_eq_dec ascii_dec) (columns f)))
                      fs KEEP_COLS = KEEP_COLS).
  { induction 1 as [|fr fs [Hc _] _ IH]; [reflexivity|].
    cbn [fold_left]. rewrite Hc.
    replace (KEEP_COLS ++ _) with KEEP_COLS by (vm_compute; reflexivity).
    exact IH. }
  destruct Hall as [|fr fs [Hc _] Hfs]; [congruence|].
  cbn [fold_left]. rewrite Hc.
  replace ([] ++ _) with KEEP_COLS by (vm_compute; reflexivity).
  now apply Hacc.
Qed.

Lemma realign_loaded (df : DataFrame) (r : list cell) :
  columns df = KEEP_COLS -> List.length r = 10 -> realign KEEP_COLS df r = r.
Proof.
  intros Hc Hlen. unfold realign. rewrite Hc.
  do 10 (destruct r as [|? r]; [discriminate|]).
  destruct r; [reflexivity | discriminate].
Qed.

Lemma flat_map_realign (frames : list DataFrame) :
  Forall loaded_frame frames ->
  flat_map (fun f => map (realign KEEP_COLS f) (rows f)) frames
  = List.concat (map rows frames).
Proof.
  induction 1 as [|df frames [Hc Hrows] _ IH]; [reflexivity|].
  cbn [flat_map map List.concat]. rewrite IH. f_equal.
  rewrite <- (map_id (rows df)) at 2.
  apply map_ext_in. intros r Hr.
  rewrite Forall_forall in Hrows. destruct (Hrows _ Hr) as [Hlen _].
  now apply realign_loaded.
Qed.

Lemma concat_frames_loaded (frames : list DataFrame) (merged : DataFrame) :
  Forall loaded_frame frames ->
  concat_frames frames = Ok merged ->
  merged = mkDF KEEP_COLS (List.concat (map rows frames)).
Proof.
  intros Hall. unfold concat_frames.
  assert (Hne : frames = [] \/ frames <> [])
    by (destruct frames; [now left | right; discriminate]).
  destruct Hne as [->|Hne]; [discriminate|].
  rewrite (union_cols_loaded _ Hne Hall), (flat_map_realign _ Hall).
  destruct frames; [congruence|].
  now intros H; inversion H.
Qed.

(** [load_all], when it returns, is the stable sort of the records with a
    timestamp. *)
Lemma load_all_unfold (files : list File) (corpus : DataFrame) :
  load_all numeric_text files = Ok corpus ->
  exists frames,
    mapM (load_one numeric_text) files = Ok frames
    /\ Forall loaded_frame frames
    /\ corpus = mkDF KEEP_COLS
                     (stable_sort corpus_leb
                                  (filter has_timestamp (List.concat (map rows frames)))).
Proof.
  unfold load_all.
  destruct (mapM (load_one numeric_text) files) as [frames|] eqn:Hm; [|discriminate].
  cbn [bind].
  destruct (mapM_ok _ loaded_frame _ _ load_one_loaded Hm) as [_ Hall].
  destruct (concat_frames frames) as [merged|] eqn:Hc; [|discriminate].
  cbn [bind].
  apply (concat_frames_loaded _ _ Hall) in Hc. subst merged.
  intros H. exists frames. split; [reflexivity|]. split; [assumption|].
  cbn in H. inversion H. reflexivity.
Qed.

Lemma str_codes_inj (a b : str) : str_codes a = str_codes b -> a = b.
Proof.
  revert b; induction a as [|x a IH]; intros [|y b]; simpl; try discriminate; auto.
  intros H. injection H as Hx Hab. f_equal; [|now apply IH].
  apply Nat2Z.inj in Hx.
  rewrite <- (ascii_nat_embedding x), <- (ascii_nat_embedding y). now rewrite Hx.
Qed.

Lemma record_key_row_keys (r : list cell) (s : str) (t : datetime) :
  record_key r = Some (s, t) ->
  row_keys [0; 1] r = [0%Z :: str_codes s; 0%Z :: dt_fields t].
Proof.
  unfold record_key, row_keys. cbn [map].
  destruct (nth 0 r VNaN); try discriminate.
  destruct (nth 1 r VNaN); try discriminate.
  intros H; inversion H; subst. reflexivity.
Qed.

Lemma lex_leb_cons0 (a b : list Z) : lex_leb (0%Z :: a) (0%Z :: b) = lex_leb a b.
Proof. reflexivity. Qed.

Lemma corpus_leb_record_le (r1 r2 : list cell) :
  (exists k, record_key r1 = Some k) -> (exists k, record_key r2 = Some k) ->
  corpus_leb r1 r2 = true -> record_le r1 r2.
Proof.
  intros [[s1 t1] H1] [[s2 t2] H2]. unfold corpus_leb, record_le.
  rewrite (record_key_row_keys _ _ _ H1), (record_key_row_keys _ _ _ H2), H1, H2.
  cbn [keys_leb]. rewrite !lex_leb_cons0. unfold str_leb, dt_leb.
  destruct (lex_leb (str_codes s1) (str_codes s2)) eqn:E12; [|discriminate].
  destruct (lex_leb (str_codes s2) (str_codes s1)) eqn:E21.
  - destruct (lex_leb (dt_fields t1) (dt_fields t2)) eqn:Et; [|discriminate].
    intros _. right. split; [|reflexivity].
    apply str_codes_inj. now apply lex_leb_antisym.
  - intros _. left. split; [reflexivity|].
    intros ->. rewrite lex_leb_refl in E21. discriminate.
Qed.

Lemma has_key_row_keys (s : str) (t : datetime) (r : list cell) :
  has_key s t r = true -> row_keys [0; 1] r = [0%Z :: str_codes s; 0%Z :: dt_fields t].
Proof.
  unfold has_key. destruct (record_key r) as [[s' t']|] eqn:E; [|discriminate].
  intros H. apply andb_prop in H as [H H3]. apply andb_prop in H as [H1 H2].
  apply eqb_str_eq in H1. subst s'. unfold dt_leb in H2, H3.
  rewrite (record_key_row_keys _ _ _ E).
  now rewrite (lex_leb_antisym _ _ H2 H3).
Qed.

Lemma has_key_iff (s : str) (t : datetime) (r : list cell) :
  has_key s t r = true <-> record_key r = Some (s, t).
Proof.
  unfold has_key. split.
  - destruct (record_key r) as [[s' t']|]; [|discriminate].
    intros H. apply andb_prop in H as [H H3]. apply andb_prop in H as [H1 H2].
    apply eqb_str_eq in H1. subst s'. unfold dt_leb in H2, H3.
    pose proof (lex_leb_antisym _ _ H2 H3) as E.
    destruct t, t'. unfold dt_fields in E. simpl in E. now inversion E.
  - intros ->. unfold dt_leb. now rewrite eqb_str_refl, lex_leb_refl.
Qed.

Lemma has_key_tie (s : str) (t : datetime) (x y : list cell) :
  has_key s t x = true -> has_key s t y = true -> corpus_leb x y = true.
Proof.
  intros Hx Hy. unfold corpus_leb.
  rewrite (has_key_row_keys _ _ _ Hx), (has_key_row_keys _ _ _ Hy).
  apply keys_leb_refl.
Qed.

Lemma kept_row_key (r : list cell) :
  loaded_row r -> has_timestamp r = true -> exists k, record_key r = Some k.
Proof.
  intros (_ & [s Hs] & Hst) Hts. unfold record_key, has_timestamp in *.
  rewrite Hs. destruct Hst as [E|[t E]]; rewrite E in *; [discriminate|eauto].
Qed.

End MergeFacts.

(** C3.  The corpus holds exactly the records of the concatenated per-file
    tables that have a timestamp, each as often as it occurs there; it is
    sorted by station and then by timestamp; and the records with one
    station and one timestamp stand in the corpus in the order they have in
    the concatenation, which is the order of the files. *)
Theorem load_all_sorted_stable (numeric_text : str -> option Q)
        (files : list File) (corpus : DataFrame) :
  load_all numeric_text files = Ok corpus ->
  exists frames,
    mapM (load_one numeric_text) files = Ok frames
    /\ columns corpus = KEEP_COLS
    /\ Permutation (rows corpus) (filter has_timestamp (List.concat (map rows frames)))
    /\ (forall r, In r (rows corpus) <->
                  In r (List.concat (map rows frames)) /\ isna (nth 1 r VNaN) = false)
    /\ StronglySorted record_le (rows corpus)
    /\ (forall s t,
          filter (has_key s t) (rows corpus)
          = filter (has_key s t) (filter has_timestamp (List.concat (map rows frames))))
    /\ (forall s t r, has_key s t r = true <-> record_key r = Some (s, t)).
Proof.
  intros H.
  destruct (load_all_unfold numeric_text files corpus H) as (frames & Hm & Hall & ->).
  exists frames. cbn [rows columns].
  set (kept := filter has_timestamp (List.concat (map rows frames))).
  assert (Hperm : Permutation (stable_sort corpus_leb kept) kept)
    by apply stable_sort_perm.
  assert (Hkeys : Forall (fun r => exists k, record_key r = Some k) kept).
  { apply Forall_forall. intros r Hr. subst kept.
    apply filter_In in Hr as [Hin Hts].
    apply (kept_row_key r); [|exact Hts].
    apply in_concat in Hin as (rs & Hrs & Hin).
    apply in_map_iff in Hrs as (df & <- & Hdf).
    rewrite Forall_forall in Hall. destruct (Hall _ Hdf) as [_ Hrows].
    rewrite Forall_forall in Hrows. now apply Hrows. }
  split; [exact Hm|]. split; [reflexivity|]. split; [exact Hperm|].
  split; [|split; [|split; [|exact has_key_iff]]].
  - intros r. split.
    + intros Hin. apply (Permutation_in _ Hperm) in Hin.
      subst kept. apply filter_In in Hin as [Hin Hts].
      split; [exact Hin|].
      unfold has_timestamp in Hts. now apply negb_true_iff in Hts.
    + intros [Hin Hts]. apply (Permutation_in _ (Permutation_sym Hperm)).
      subst kept. apply filter_In. split; [exact Hin|].
      unfold has_timestamp. now rewrite Hts.
  - apply (StronglySorted_weaken _ (fun a b => corpus_leb a b = true) record_le
                                (fun r => exists k, record_key r = Some k)).
    + intros a b Ha Hb. now apply corpus_leb_record_le.
    + apply (Permutation_Forall (Permutation_sym Hperm) Hkeys).
    + apply stable_sort_sorted.
      * intros x y. apply row_leb_total.
      * intros x y z. apply row_leb_trans.
  - intros s t. apply stable_sort_filter. intros x y. apply has_key_tie.
Qed.

(** The first file twice and the second between them: five records have a
    timestamp, the duplicates are kept, and the corpus is in order. *)
Lemma load_all_sorted_stable_witness :
  columns sample_corpus = KEEP_COLS
  /\ List.length (rows sample_corpus) = 5
  /\ StronglySorted record_le (rows sample_corpus).
Proof.
  assert (H : load_all (fun _ => None) [riga_file; liepaja_file; riga_file] = Ok sample_corpus)
    by (vm_compute; reflexivity).
  destruct (load_all_sorted_stable (fun _ => None) _ _ H)
    as (frames & _ & Hc & _ & _ & Hs & _ & _).
  split; [exact Hc|]. split; [reflexivity | exact Hs].
Defined.

(** * Further properties of the code *)

(** ** Splitting and joining on a one-character separator *)

Section SplitJoinFacts.

Variable c : ascii.

Lemma split_single_cons (x : ascii) (s : str) :
  split [c] (x :: s) =
  if Ascii.eqb c x then [] :: split [c] s
  else match split [c] s with
       | p :: ps => (x :: p) :: ps
       | [] => [[x]]
       end.
Proof.
  unfold split. cbn [split_from startswith List.length Nat.sub].
  rewrite andb_true_r. reflexivity.
Qed.

Lemma join_cons_head (sep : str) (x : ascii) (p : str) (ps : list str) :
  join sep ((x :: p) :: ps) = x :: join sep (p :: ps).
Proof. destruct ps; reflexivity. Qed.

Lemma join_split (s : str) : join [c] (split [c] s) = s.
Proof.
  induction s as [|x s IH]; [reflexivity|].
  rewrite split_single_cons.
  destruct (Ascii.eqb_spec c x) as [->|Hne].
  - pose proof (split_length_pos [x] s) as Hlen.
    destruct (split [x] s) as [|p ps] eqn:E; [simpl in Hlen; lia|].
    cbn [join]. simpl. now rewrite <- IH.
  - pose proof (split_length_pos [c] s) as Hlen.
    destruct (split [c] s) as [|p ps] eqn:E; [simpl in Hlen; lia|].
    rewrite join_cons_head. now rewrite IH.
Qed.


Lemma contains_single_cons (x : ascii) (s : str) :
  contains [c] (x :: s) = Ascii.eqb c x || contains [c] s.
Proof. cbn [contains startswith]. now rewrite andb_true_r. Qed.

Lemma split_tokens_free (s : str) :
  Forall (fun t => contains [c] t = false) (split [c] s).
Proof.
  induction s as [|x s IH]; [repeat constructor|].
  rewrite split_single_cons.
  destruct (Ascii.eqb c x) eqn:E.
  - constructor; [reflexivity | exact IH].
  - destruct (split [c] s) as [|p ps]; [repeat constructor; simpl; now rewrite E|].
    inversion IH; subst. constructor; [|assumption].
    rewrite contains_single_cons, E. assumption.
Qed.

End SplitJoinFacts.

Section JoinFacts.

Variable sep : str.

Lemma join_app (a b : list str) :
  a <> [] -> b <> [] -> join sep (a ++ b) = join sep a ++ sep ++ join sep b.
Proof.
  intros Ha Hb. induction a as [|p a IH]; [congruence|].
  destruct a as [|q a].
  - destruct b; [congruence | reflexivity].
  - change (join sep ((p :: q :: a) ++ b)) with (p ++ sep ++ join sep ((q :: a) ++ b)).
    rewrite IH by discriminate.
    change (join sep (p :: q :: a)) with (p ++ sep ++ join sep (q :: a)).
    now rewrite <- !app_assoc.
Qed.

(** Folding the tail of a list of tokens into one token keeps the text. *)
Lemma join_fold_tail (k : nat) (parts : list str) :
  k < List.length parts ->
  join sep (firstn k parts ++ [join sep (skipn k parts)]) = join sep parts.
Proof.
  intros Hk. destruct k as [|k].
  - reflexivity.
  - rewrite join_app.
    + cbn [join]. rewrite <- join_app.
      * now rewrite firstn_skipn.
      * destruct parts; simpl in *; [lia | discriminate].
      * intros E. apply (f_equal (@List.length str)) in E.
        rewrite length_skipn in E. simpl in E. lia.
    + destruct parts; simpl in *; [lia | discriminate].
    + discriminate.
Qed.

(** Padding with empty tokens adds one separator per token. *)
Lemma join_pad (parts : list str) (k : nat) :
  parts <> [] ->
  join sep (parts ++ repeat ([] : str) k) = join sep parts ++ List.concat (repeat sep k).
Proof.
  intros Hne. induction k as [|k IH].
  - simpl. now rewrite !app_nil_r.
  - replace (repeat ([] : str) (S k)) with (repeat ([] : str) k ++ [[]])
      by (now rewrite <- repeat_cons).
    rewrite app_assoc, join_app; [| destruct parts; [congruence | discriminate] | discriminate].
    rewrite IH. cbn [join]. rewrite app_nil_r, <- app_assoc.
    f_equal. replace (S k) with (k + 1) by lia.
    now rewrite repeat_app, concat_app; simpl; rewrite app_nil_r.
Qed.

End JoinFacts.

(** The separator of a header that was read is one of the four. *)
Lemma read_header_separator (f : File) (label sep : str) (cols : list str) :
  _read_header f = Ok (label, sep, cols) -> In sep SEPARATORS.
Proof.
  unfold _read_header.
  destruct (header_loop (file_lines f) None) as [[st [fl|]]|]; cbn [bind]; try discriminate.
  unfold _detect_separator.
  destruct (fields_payload fl) as [payload|]; cbn [bind]; [|discriminate].
  assert (Hsep : forall sep',
             (if contains [TAB] payload then Ok [TAB]
              else match find (fun sep0 : str => contains sep0 payload)
                              ["|" : str; ";" : str; "," : str] with
                   | Some sep0 => Ok sep0
                   | None => Ok ("," : str)
                   end) = Ok sep' -> In sep' SEPARATORS).
  { intros sep'. destruct (contains [TAB] payload).
    - intros H; inversion H. now left.
    - destruct (find _ _) as [s0|] eqn:E.
      + intros H; inversion H; subst. apply find_some in E as [E _].
        right. exact E.
      + intros H; inversion H. right; right; right; now left. }
  match goal with
  | |- bind ?d _ = _ -> _ => destruct d as [sep'|] eqn:Hd; cbn [bind]; [|discriminate]
  end.
  destruct (index _ 1); cbn [bind]; [|discriminate].
  intros H; inversion H; subst. now apply Hsep.
Qed.

Lemma separators_single (sep : str) : In sep SEPARATORS -> exists c, sep = [c].
Proof.
  intros [<-|[<-|[<-|[<-|[]]]]]; eexists; reflexivity.
Qed.

(** X1.  Nothing of a data line is lost in its row: joined again with the
    separator of the header, the row is the prepared line, followed by one
    separator for each column that was padded. *)
Theorem tokenize_join (f : File) (label sep : str) (cols : list str) (line : str) :
  _read_header f = Ok (label, sep, cols) ->
  join sep (tokenize sep cols line)
  = prepare_line sep line
    ++ List.concat
         (repeat sep (List.length cols - List.length (split sep (prepare_line sep line)))).
Proof.
  intros Hh.
  pose proof (read_header_cols_nonempty _ _ _ _ Hh) as Hne.
  destruct (separators_single sep (read_header_separator _ _ _ _ Hh)) as [c ->].
  set (text := prepare_line [c] line).
  assert (HN : 1 <= List.length cols) by (destruct cols; [congruence | simpl; lia]).
  destruct (fit_row_cases [c] (List.length cols) (split [c] text) HN)
    as (Hlong & Hshort & Heq).
  pose proof (split_length_pos [c] text) as Hpos.
  unfold tokenize. fold text.
  destruct (Nat.lt_trichotomy (List.length (split [c] text)) (List.length cols))
    as [H|[H|H]].
  - rewrite (Hshort H), join_pad, join_split; [reflexivity|].
    destruct (split [c] text); [simpl in Hpos; lia | discriminate].
  - rewrite (Heq H), join_split, H, Nat.sub_diag. simpl. now rewrite app_nil_r.
  - rewrite (Hlong H), join_fold_tail by lia. rewrite join_split.
    replace (List.length cols - List.length (split [c] text)) with 0 by lia.
    simpl. now rewrite app_nil_r.
Qed.

Lemma tokenize_join_witness :
  join ";" (tokenize ";" ["date" : str; "t_max_c" : str]
                     (text_line "1925-03-04;7,5;rain; later sun"))
  = "1925-03-04;7,5;rain; later sun".
Proof.
  assert (H : _read_header no_code_file
              = Ok ("Riga" : str, ";" : str, ["date" : str; "t_max_c" : str]))
    by (vm_compute; reflexivity).
  rewrite (tokenize_join no_code_file _ _ _ _ H). vm_compute. reflexivity.
Defined.

Lemma Forall_firstn {A : Type} (P : A -> Prop) (n : nat) (l : list A) :
  Forall P l -> Forall P (firstn n l).
Proof.
  intros H. revert n; induction H as [|x l Hx _ IH]; intros [|n]; simpl; constructor; auto.
Qed.

(** X2.  The separator can only occur in the last cell of a row: the cells
    before it are free of it, and a row that was not folded is free of it
    altogether. *)
Theorem tokenize_separator_last (f : File) (label sep : str) (cols : list str) (line : str) :
  _read_header f = Ok (label, sep, cols) ->
  Forall (fun t => contains sep t = false)
         (firstn (List.length cols - 1) (tokenize sep cols line))
  /\ (List.length (split sep (prepare_line sep line)) <= List.length cols ->
      Forall (fun t => contains sep t = false) (tokenize sep cols line)).
Proof.
  intros Hh.
  pose proof (read_header_cols_nonempty _ _ _ _ Hh) as Hne.
  destruct (separators_single sep (read_header_separator _ _ _ _ Hh)) as [c ->].
  set (text := prepare_line [c] line).
  assert (HN : 1 <= List.length cols) by (destruct cols; [congruence | simpl; lia]).
  destruct (fit_row_cases [c] (List.length cols) (split [c] text) HN)
    as (Hlong & Hshort & Heq).
  pose proof (split_tokens_free c text) as Hfree.
  assert (Hpad : forall k, Forall (fun t => contains [c] t = false)
                             (split [c] text ++ repeat ([] : str) k)).
  { intros k. apply Forall_app. split; [exact Hfree|].
    apply Forall_forall. intros t Ht. apply repeat_spec in Ht. now subst. }
  unfold tokenize. fold text.
  destruct (Nat.lt_trichotomy (List.length (split [c] text)) (List.length cols))
    as [H|[H|H]].
  - rewrite (Hshort H). split; [|intros _; apply Hpad].
    apply Forall_firstn, Hpad.
  - rewrite (Heq H). split; [|intros _; exact Hfree].
    now apply Forall_firstn.
  - rewrite (Hlong H). split; [|intros Hle; lia].
    rewrite firstn_app, length_firstn.
    replace (List.length cols - 1 - Nat.min (List.length cols - 1) (List.length (split [c] text)))
      with 0 by lia.
    cbn [firstn]. rewrite app_nil_r, firstn_firstn.
    now apply Forall_firstn.
Qed.

Lemma tokenize_separator_last_witness :
  Forall (fun t => contains ";" t = false)
         (firstn 1 (tokenize ";" ["date" : str; "t_max_c" : str]
                             (text_line "1925-03-04;7,5;rain; later sun"))).
Proof.
  assert (H : _read_header no_code_file
              = Ok ("Riga" : str, ";" : str, ["date" : str; "t_max_c" : str]))
    by (vm_compute; reflexivity).
  exact (proj1 (tokenize_separator_last no_code_file _ _ _
                  (text_line "1925-03-04;7,5;rain; later sun") H)).
Defined.

(** ** The rewrite of decimal commas *)

Section DecimalCommaFacts.

Lemma decimal_commas_from_length (p : option ascii) (s : str) :
  List.length (decimal_commas_from p s) = List.length s.
Proof.
  revert p; induction s as [|c s IH]; intros p; simpl; [reflexivity|].
  now rewrite IH.
Qed.

Lemma decimal_commas_from_rel (p : option ascii) (s : str) :
  Forall2 comma_or_same s (decimal_commas_from p s).
Proof.
  revert p; induction s as [|c s IH]; intros p; cbn [decimal_commas_from]; constructor.
  - destruct (Ascii.eqb_spec c ","); cbn [andb].
    + destruct (_ && _); [right; auto | now left].
    + now left.
  - apply IH.
Qed.

(** A character and what the rewrite makes of it are digits together. *)
Lemma comma_or_same_digit (a b : ascii) : comma_or_same a b -> is_digit b = is_digit a.
Proof. intros [->|[-> ->]]; reflexivity. Qed.

Lemma decimal_commas_from_ahead (p : option ascii) (s : str) :
  digit_ahead (decimal_commas_from p s) = digit_ahead s.
Proof.
  pose proof (decimal_commas_from_rel p s) as H.
  destruct H as [|a b s' t' Hab _]; [reflexivity|].
  simpl. now apply comma_or_same_digit.
Qed.

Lemma decimal_commas_from_unfold (p : option ascii) (c : ascii) (s : str) :
  decimal_commas_from p (c :: s) =
  (if Ascii.eqb c "," && digit_before p && digit_ahead s then "."%char else c)
    :: decimal_commas_from (Some c) s.
Proof. destruct p, s; reflexivity. Qed.

Lemma decimal_commas_from_idem (p p' : option ascii) (s : str) :
  digit_before p' = digit_before p ->
  decimal_commas_from p' (decimal_commas_from p s) = decimal_commas_from p s.
Proof.
  revert p p'; induction s as [|c s IH]; intros p p' Hp; [reflexivity|].
  rewrite (decimal_commas_from_unfold p c s).
  set (o := if Ascii.eqb c "," && digit_before p && digit_ahead s then "."%char else c).
  rewrite decimal_commas_from_unfold, decimal_commas_from_ahead, Hp.
  assert (Ho : is_digit o = is_digit c).
  { subst o. destruct (Ascii.eqb_spec c ","); cbn [andb]; [|reflexivity].
    subst c. now destruct (_ && _). }
  rewrite (IH (Some c) (Some o)) by exact Ho.
  f_equal. subst o.
  destruct (Ascii.eqb c ",") eqn:Ec; cbn [andb].
  - apply Ascii.eqb_eq in Ec. subst c.
    destruct (digit_before p && digit_ahead s) eqn:E; [reflexivity|].
    cbn [Ascii.eqb Bool.eqb andb]. now rewrite E.
  - now rewrite Ec.
Qed.

(** No comma is left between two digits. *)
Lemma decimal_commas_from_done (p : option ascii) (s a : str) (x y : ascii) (b : str) :
  decimal_commas_from p s = a ++ x :: ","%char :: y :: b ->
  is_digit x && is_digit y = false.
Proof.
  revert p s; induction a as [|a0 a IH]; intros p s H.
  - destruct s as [|c [|c2 s]]; try discriminate.
    rewrite !decimal_commas_from_unfold in H. cbn [app] in H.
    injection H as Hx Hc2 Hrest.
    assert (Hy : is_digit y = digit_ahead s).
    { rewrite <- (decimal_commas_from_ahead (Some c2) s), Hrest. reflexivity. }
    assert (Hxd : is_digit x = is_digit c).
    { subst x. destruct (Ascii.eqb c ",") eqn:Ec; cbn [andb]; [|reflexivity].
      apply Ascii.eqb_eq in Ec. subst c.
      destruct (digit_before p && is_digit c2); reflexivity. }
    rewrite Hxd, Hy.
    destruct (Ascii.eqb_spec c2 ","); cbn [andb] in Hc2.
    + cbn [digit_before] in Hc2.
      destruct (is_digit c && digit_ahead s) eqn:E; [discriminate | reflexivity].
    + congruence.
  - destruct s as [|c s]; [discriminate|].
    rewrite decimal_commas_from_unfold in H. cbn [app] in H.
    injection H as _ Hrest. exact (IH _ _ Hrest).
Qed.

Lemma decimal_commas_from_plain (p : option ascii) (s : str) :
  Forall (fun c => c <> ","%char) s -> decimal_commas_from p s = s.
Proof.
  intros H. revert p; induction H as [|c s Hc _ IH]; intros p; [reflexivity|].
  rewrite decimal_commas_from_unfold, IH.
  destruct (Ascii.eqb_spec c ","); [contradiction | reflexivity].
Qed.

Lemma digits_no_comma (s : str) : all_digits s -> Forall (fun c => c <> ","%char) s.
Proof.
  intros H. eapply Forall_impl; [|exact H]. intros c Hc ->. discriminate.
Qed.

(** A comma between two runs of digits becomes a point. *)
Lemma decimal_commas_from_digits (p : option ascii) (a b : str) :
  all_digits a -> all_digits b -> a <> [] -> b <> [] ->
  decimal_commas_from p (a ++ ","%char :: b) = a ++ "."%char :: b.
Proof.
  intros Ha Hb Hne Hnb. revert p.
  induction Ha as [|x a Hx Ha IH]; [congruence|]. intros p.
  cbn [app]. rewrite decimal_commas_from_unfold.
  assert (Hxc : Ascii.eqb x "," = false).
  { destruct (Ascii.eqb_spec x ","); [subst; discriminate | reflexivity]. }
  rewrite Hxc. cbn [andb]. f_equal.
  destruct a as [|x' a].
  - cbn [app]. rewrite decimal_commas_from_unfold. cbn [digit_before].
    destruct b as [|y b]; [congruence|].
    pose proof (Forall_inv Hb) as Hy. cbn beta in Hy.
    cbn [digit_ahead Ascii.eqb Bool.eqb andb].
    rewrite Hx, Hy. cbn [andb].
    f_equal. apply decimal_commas_from_plain. now apply digits_no_comma.
  - apply IH. discriminate.
Qed.

Lemma rstrip_nl_plain (s : str) (c : ascii) :
  c <> NL -> rstrip_nl (s ++ [c]) = s ++ [c].
Proof.
  intros Hc. induction s as [|d s IH]; simpl.
  - destruct (Ascii.eqb_spec c NL); [contradiction | reflexivity].
  - rewrite IH. now destruct s.
Qed.

Lemma rstrip_nl_newline (s : str) : rstrip_nl (s ++ [NL]) = rstrip_nl s.
Proof.
  induction s as [|d s IH]; simpl; [reflexivity|]. now rewrite IH.
Qed.

Lemma contains_single_absent (c : ascii) (s : str) :
  Forall (fun x => x <> c) s -> contains [c] s = false.
Proof.
  induction 1 as [|x s Hx _ IH]; [reflexivity|].
  rewrite contains_single_cons, IH.
  destruct (Ascii.eqb_spec c x); [congruence | reflexivity].
Qed.

End DecimalCommaFacts.

(** X3.  The comma rewrite of a comma-separated line changes nothing but
    commas, and those into points: the line keeps its length, every other
    character stays; afterwards no comma stands between two digits, and a
    second pass changes nothing. *)
Theorem decimal_commas_only_commas (line : str) :
  List.length (decimal_commas line) = List.length line
  /\ Forall2 comma_or_same line (decimal_commas line)
  /\ (forall a x y b,
        decimal_commas line = a ++ x :: ","%char :: y :: b ->
        is_digit x && is_digit y = false)
  /\ decimal_commas (decimal_commas line) = decimal_commas line.
Proof.
  unfold decimal_commas. repeat split.
  - apply decimal_commas_from_length.
  - apply decimal_commas_from_rel.
  - intros a x y b. apply decimal_commas_from_done.
  - now apply decimal_commas_from_idem.
Qed.

(** X4.  In a comma-separated file two bare integers in neighbouring
    columns are read as one decimal number: the line gives a row whose
    first cell holds both, with a point between them, and whose other
    cells are empty. *)
Theorem tokenize_merges_integers (cols : list str) (a b ending : str) :
  all_digits a -> all_digits b -> a <> [] -> b <> [] -> cols <> [] ->
  ending = [] \/ ending = [NL] ->
  tokenize "," cols (a ++ "," ++ b ++ ending)
  = (a ++ "." ++ b) :: repeat ([] : str) (List.length cols - 1).
Proof.
  intros Ha Hb Hne Hnb Hcols Hend.
  assert (Hprep : prepare_line "," (a ++ "," ++ b ++ ending) = a ++ "." ++ b).
  { unfold prepare_line. cbn [eqb_str list_ascii_of_string Ascii.eqb Bool.eqb andb].
    assert (Hstrip : rstrip_nl (a ++ "," ++ b ++ ending) = a ++ "," ++ b).
    { assert (Hplain : rstrip_nl (a ++ "," ++ b) = a ++ "," ++ b).
      { destruct (exists_last Hnb) as (b' & y & ->).
        replace (a ++ "," ++ b' ++ [y]) with ((a ++ "," ++ b') ++ [y])
          by (now rewrite <- !app_assoc).
        apply rstrip_nl_plain. intros ->.
        apply Forall_app in Hb as [_ Hy]. inversion Hy; subst. discriminate. }
      destruct Hend as [->| ->].
      - now rewrite app_nil_r.
      - replace (a ++ "," ++ b ++ [NL]) with ((a ++ "," ++ b) ++ [NL])
          by (now rewrite <- !app_assoc).
        now rewrite rstrip_nl_newline. }
    cbn [list_ascii_of_string] in Hstrip |- *.
    rewrite Hstrip. unfold decimal_commas.
    exact (decimal_commas_from_digits None a b Ha Hb Hne Hnb). }
  unfold tokenize. rewrite Hprep.
  assert (Hsplit : split "," (a ++ "." ++ b) = [a ++ "." ++ b]).
  { apply split_from_absent. apply (contains_single_absent ","%char).
    apply Forall_app. split; [|constructor; [discriminate|]].
    - eapply Forall_impl; [|exact Ha]. intros c Hc ->. discriminate.
    - eapply Forall_impl; [|exact Hb]. intros c Hc ->. discriminate. }
  rewrite Hsplit. unfold fit_row. cbn [List.length].
  destruct cols as [|c0 cols]; [congruence|]. cbn [List.length].
  destruct cols as [|c1 cols]; [reflexivity|].
  cbn [List.length Nat.eqb Nat.ltb Nat.leb Nat.sub app]. reflexivity.
Qed.

Lemma tokenize_merges_integers_witness :
  tokenize "," ["station_id" : str; "present_weather_code" : str] (text_line "17,61")
  = ["17.61" : str; "" : str].
Proof.
  apply (tokenize_merges_integers
           ["station_id" : str; "present_weather_code" : str] "17" "61" [NL]);
    try discriminate; try (repeat constructor); now right.
Defined.

(** ** The header inspector *)

Section HeaderColumnFacts.








End HeaderColumnFacts.

(** X5.  [_detect_separator] fails exactly on a line without [fields=],
    with the [IndexError] of the missing second piece; on every other line
    it answers one of the four separators. *)
Theorem detect_separator_outcome (fields_line : str) :
  (contains "fields=" fields_line = false ->
   _detect_separator fields_line = Raise (IndexError "list index out of range"))
  /\ (contains "fields=" fields_line = true ->
      exists sep, _detect_separator fields_line = Ok sep /\ In sep SEPARATORS).
Proof.
  unfold _detect_separator, fields_payload, split1. split; intros H.
  - now rewrite (cut_first_none _ _ H).
  - destruct (cut_first_some _ _ H) as (a & b & ->). cbn [index nth_error bind].
    destruct (contains [TAB] (strip b)).
    + eexists. split; [reflexivity | now left].
    + destruct (find _ _) as [s0|] eqn:E.
      * eexists. split; [reflexivity|]. apply find_some in E as [E _]. right. exact E.
      * eexists. split; [reflexivity|]. right; right; right; now left.
Qed.



(** ** The date parser *)

Section ClockFacts.

Import Strptime.

Lemma digit_val_bounds (c : ascii) : is_digit c = true -> (0 <= digit_val c <= 9)%Z.
Proof.
  unfold is_digit, digit_val. intros H. apply andb_prop in H as [H1 H2].
  apply Nat.leb_le in H1, H2. lia.
Qed.

Lemma colon_match {A : Type} (b : ascii) (x : option A) :
  match b with ":"%char => x | _ => None end = if Ascii.eqb b ":" then x else None.
Proof. destruct b as [[] [] [] [] [] [] [] []]; reflexivity. Qed.

Lemma hm_at_bounds (s : str) (h mi : Z) :
  hm_at s = Some (h, mi) -> (0 <= h <= 99)%Z /\ (0 <= mi <= 99)%Z.
Proof.
  unfold hm_at.
  destruct s as [|a [|b [|c [|d [|e s]]]]]; rewrite ?colon_match;
    try discriminate.
  all: repeat match goal with
              | |- context [Ascii.eqb ?x ":"] => destruct (Ascii.eqb x ":")
              | |- context [is_digit ?x] => destruct (is_digit x) eqn:?
              end; cbn [andb]; try discriminate.
  all: intros H;
    apply (f_equal (fun o => match o with Some p => p | None => (0, 0)%Z end)) in H;
    cbv beta iota in H; apply pair_equal_spec in H as [<- <-];
    repeat match goal with
           | Hd : is_digit _ = true |- _ => apply digit_val_bounds in Hd
           end; lia.
Qed.

Lemma search_hm_bounds (s : str) (h mi : Z) :
  search_hm s = Some (h, mi) -> (0 <= h <= 99)%Z /\ (0 <= mi <= 99)%Z.
Proof.
  induction s as [|c s IH]; cbn [search_hm].
  - destruct (hm_at []) eqn:E; [|discriminate].
    intros H; inversion H; subst. exact (hm_at_bounds _ _ _ E).
  - destruct (hm_at (c :: s)) eqn:E; [|exact IH].
    intros H; inversion H; subst. exact (hm_at_bounds _ _ _ E).
Qed.

Lemma strptime_valid (d fmt : str) (dt : datetime) :
  strptime d fmt = Ok dt ->
  valid_date (dt_year dt) (dt_month dt) (dt_day dt) = true.
Proof.
  unfold strptime.
  destruct (re_match _ _ _) as [[[[y m] dd] rest]|]; [|discriminate].
  destruct rest; [|discriminate].
  destruct (valid_date _ _ _) eqn:E; [|discriminate].
  intros H; inversion H. exact E.
Qed.

Lemma try_formats_valid (d : str) (fmts : list str) (dt : datetime) :
  try_formats d fmts = Some dt ->
  valid_date (dt_year dt) (dt_month dt) (dt_day dt) = true
  /\ dt_hour dt = 0%Z /\ dt_minute dt = 0%Z.
Proof.
  induction fmts as [|fmt fmts IH]; cbn [try_formats]; [discriminate|].
  destruct (strptime d fmt) eqn:E; [|exact IH].
  intros H; inversion H; subst.
  split; [exact (strptime_valid _ _ _ E) | exact (strptime_midnight _ _ _ E)].
Qed.

Lemma replace_hm_ok (dt dt' : datetime) (h mi : Z) :
  replace_hm dt h mi = Ok dt' ->
  dt' = mkDT (dt_year dt) (dt_month dt) (dt_day dt) h mi
  /\ (0 <= h <= 23)%Z /\ (0 <= mi <= 59)%Z.
Proof.
  unfold replace_hm.
  destruct ((0 <=? h)%Z && (h <=? 23)%Z) eqn:Eh; cbn [negb]; [|discriminate].
  destruct ((0 <=? mi)%Z && (mi <=? 59)%Z) eqn:Em; cbn [negb]; [|discriminate].
  intros [= <-]. split; [reflexivity|].
  apply andb_prop in Eh as [Eh1 Eh2]. apply andb_prop in Em as [Em1 Em2]. lia.
Qed.

Lemma replace_hm_raise (dt : datetime) (h mi : Z) :
  (0 <= h)%Z -> (0 <= mi)%Z ->
  (exists e, replace_hm dt h mi = Raise e) <-> (23 < h \/ 59 < mi)%Z.
Proof.
  intros Hh Hmi. unfold replace_hm.
  destruct ((0 <=? h)%Z && (h <=? 23)%Z) eqn:Eh; cbn [negb].
  - apply andb_prop in Eh as [H1 H2].
    destruct ((0 <=? mi)%Z && (mi <=? 59)%Z) eqn:Em; cbn [negb].
    + apply andb_prop in Em as [H3 H4]. split; [intros [e He]; discriminate | lia].
    + split; [|eauto]. intros _. right.
      apply andb_false_iff in Em as [Em|Em]; lia.
  - split; [|eauto]. intros _. left.
    apply andb_false_iff in Eh as [Eh|Eh]; lia.
Qed.

End ClockFacts.

(** X7.  A timestamp that [_parse_date_any] returns is a day of the
    calendar and a time of the clock: the month has the day, the hour is at
    most 23 and the minute at most 59. *)
Theorem parse_date_any_valid (x : cell) (t : datetime) :
  _parse_date_any x = Ok (VTs t) -> valid_stamp t.
Proof.
  unfold _parse_date_any. destruct (isna x); [discriminate|].
  rewrite parse_date_text_portions.
  destruct (try_formats _ _) as [dt|] eqn:Ht; [|discriminate].
  destruct (try_formats_valid _ _ _ Ht) as (Hv & Hh & Hm).
  assert (Hdt : valid_stamp dt).
  { unfold valid_stamp. rewrite Hh, Hm. split; [exact Hv | lia]. }
  destruct (time_portion (py_str x)) as [[|c s]|].
  - intros H; inversion H; subst. exact Hdt.
  - destruct (search_hm (c :: s)) as [[h mi]|].
    + destruct (replace_hm dt h mi) as [dt'|] eqn:E; cbn [bind]; [|discriminate].
      intros H; inversion H; subst.
      apply replace_hm_ok in E as (-> & Hh' & Hm').
      unfold valid_stamp. cbn. split; [exact Hv | lia].
    + intros H; inversion H; subst. exact Hdt.
  - intros H; inversion H; subst. exact Hdt.
Qed.

Lemma parse_date_any_valid_witness : valid_stamp (mkDT 1925 3 4 14 30).
Proof.
  apply (parse_date_any_valid (VStr "04.03.1925 14:30")). reflexivity.
Defined.

(** X8.  [_parse_date_any] raises exactly when a format accepts the date
    portion and the first clock reading of the time portion, one or two
    digits, a colon and two digits, has an hour above 23 or a minute above
    59. *)
Theorem parse_date_any_raises_iff (x : cell) :
  (exists e, _parse_date_any x = Raise e)
  <-> (isna x = false
       /\ exists dt t h mi,
            try_formats (date_portion (py_str x)) _DATE_FORMATS = Some dt
            /\ time_portion (py_str x) = Some t
            /\ search_hm t = Some (h, mi)
            /\ (23 < h \/ 59 < mi)%Z).
Proof.
  unfold _parse_date_any. destruct (isna x).
  { split; [intros [e He]; discriminate | intros [H _]; discriminate]. }
  rewrite parse_date_text_portions.
  destruct (try_formats _ _) as [dt|].
  2:{ split; [intros [e He]; discriminate | intros (_ & dt & t & h & mi & H & _); discriminate]. }
  destruct (time_portion (py_str x)) as [[|c s]|].
  - split; [intros [e He]; discriminate|].
    intros (_ & dt' & t & h & mi & _ & Ht & Hs & _). inversion Ht; subst. discriminate.
  - destruct (search_hm (c :: s)) as [[h mi]|] eqn:Hs.
    + destruct (search_hm_bounds _ _ _ Hs) as [Hh Hm].
      split.
      * intros [e He]. split; [reflexivity|].
        exists dt, (c :: s), h, mi. repeat split; auto.
        apply (replace_hm_raise dt h mi); [lia | lia|].
        destruct (replace_hm dt h mi); [discriminate | eauto].
      * intros (_ & dt' & t & h' & mi' & Hdt & Ht & Hs' & Hout).
        inversion Hdt; inversion Ht; subst. rewrite Hs in Hs'. inversion Hs'; subst.
        apply (replace_hm_raise dt' h' mi') in Hout as [e ->]; [|lia|lia].
        cbn [bind]. eauto.
    + split; [intros [e He]; discriminate|].
      intros (_ & dt' & t & h & mi & _ & Ht & Hs' & _).
      inversion Ht; subst. congruence.
  - split; [intros [e He]; discriminate|].
    intros (_ & dt' & t & h & mi & _ & Ht & _). discriminate.
Qed.

(** X9.  The two parsers read a missing token as missing by themselves:
    the replacement of the missing tokens that [load_one] makes beforehand
    changes nothing of what they answer. *)
Theorem parsers_absorb_replace_na (x : cell) :
  _parse_float_messy (replace_na x) = _parse_float_messy x
  /\ _parse_date_any (replace_na x) = _parse_date_any x.
Proof.
  destruct x as [s| | | | | | | |]; try (split; reflexivity).
  cbn [replace_na]. destruct (mem s NA_TOKENS) eqn:E; [|split; reflexivity].
  unfold mem in E. apply existsb_exists in E as (t & Ht & E).
  apply eqb_str_eq in E. subst t.
  destruct Ht as [<-|[<-|[<-|[<-|[]]]]]; split; reflexivity.
Qed.

(** ** The number parser *)

Section MeasurementFacts.

Lemma replace_prefix (h : ascii) (t new a b : str) :
  Forall (fun c => c <> h) a ->
  replace (h :: t) new (a ++ b) = a ++ replace (h :: t) new b.
Proof.
  unfold replace. induction 1 as [|c a Hc _ IH]; [reflexivity|].
  cbn [app replace_from startswith].
  destruct (Ascii.eqb_spec h c) as [E|_]; [congruence|].
  cbn [andb]. now rewrite IH.
Qed.

Lemma replace_single (c d : ascii) (s : str) :
  replace [c] [d] s = map (fun x => if Ascii.eqb c x then d else x) s.
Proof.
  unfold replace. induction s as [|x s IH]; [reflexivity|].
  cbn [replace_from startswith List.length Nat.sub map app].
  rewrite andb_true_r, IH. now destruct (Ascii.eqb c x).
Qed.

Lemma map_id_on {A : Type} (g : A -> A) (P : A -> Prop) (l : list A) :
  (forall x, P x -> g x = x) -> Forall P l -> map g l = l.
Proof.
  intros Hg. induction 1 as [|x l Hx _ IH]; [reflexivity|].
  cbn [map]. now rewrite Hg, IH.
Qed.

Lemma digit_not_space (c : ascii) : is_digit c = true -> is_space c = false.
Proof.
  unfold is_digit, is_space. intros H. apply andb_prop in H as [H1 H2].
  apply Nat.leb_le in H1, H2.
  apply orb_false_iff. split; apply andb_false_iff.
  - right. apply Nat.leb_gt. lia.
  - right. apply Nat.leb_gt. lia.
Qed.

Lemma digit_not (c x : ascii) : is_digit x = false -> is_digit c = true -> c <> x.
Proof. intros Hx Hc ->. congruence. Qed.

Lemma span_digits_app (ds rest : str) :
  all_digits ds -> no_digit_ahead rest -> span_digits (ds ++ rest) = (ds, rest).
Proof.
  intros Hds Hrest. induction Hds as [|d ds Hd _ IH].
  - destruct rest as [|c rest]; [reflexivity|].
    cbn in Hrest |- *. now rewrite Hrest.
  - cbn [app span_digits]. now rewrite Hd, IH.
Qed.

Lemma number_at_plain (c : ascii) (s : str) :
  c <> "-"%char -> number_at (c :: s) = unsigned_at false (c :: s).
Proof.
  intros Hc. unfold number_at.
  destruct c as [[] [] [] [] [] [] [] []]; try reflexivity. now contradiction Hc.
Qed.

(** A numeral at the start of a text that goes on with a unit. *)
Lemma unsigned_at_numeral (neg : bool) (ip fp u : str) :
  ip <> [] -> all_digits ip -> all_digits fp ->
  In u ["" : str; "mm" : str; " mm" : str] ->
  unsigned_at neg (ip ++ match fp with [] => [] | _ :: _ => "."%char :: fp end ++ u)
  = Some (mkNum neg ip fp).
Proof.
  intros Hne Hip Hfp Hu. unfold unsigned_at.
  assert (Hahead : no_digit_ahead u)
    by (destruct Hu as [<-|[<-|[<-|[]]]]; reflexivity).
  destruct fp as [|f fs].
  - cbn [app]. rewrite span_digits_app by assumption.
    destruct ip as [|d ds]; [congruence|].
    destruct Hu as [<-|[<-|[<-|[]]]]; reflexivity.
  - rewrite span_digits_app; [|assumption|reflexivity].
    destruct ip as [|d ds]; [congruence|].
    cbn [app]. change (f :: fs ++ u) with ((f :: fs) ++ u).
    now rewrite span_digits_app.
Qed.

Lemma search_number_numeral (neg : bool) (ip fp u : str) :
  ip <> [] -> all_digits ip -> all_digits fp ->
  In u ["" : str; "mm" : str; " mm" : str] ->
  search_number ((if neg then ["-"%char] else []) ++ ip
                 ++ match fp with [] => [] | _ :: _ => "."%char :: fp end ++ u)
  = Some (mkNum neg ip fp).
Proof.
  intros Hne Hip Hfp Hu.
  pose proof (unsigned_at_numeral neg ip fp u Hne Hip Hfp Hu) as Hun.
  destruct neg.
  - cbn [app search_number number_at]. now rewrite Hun.
  - cbn [app]. destruct ip as [|d ds]; [congruence|].
    cbn [app] in Hun |- *. cbn [search_number].
    rewrite number_at_plain, Hun; [reflexivity|].
    apply (digit_not d "-"); [reflexivity | now inversion Hip].
Qed.

Lemma strip_fixed (c z : ascii) (t i : str) :
  is_space c = false -> is_space z = false -> c :: t = i ++ [z] -> strip (c :: t) = c :: t.
Proof.
  intros Hc Hz E. unfold strip. cbn [lstrip]. rewrite Hc, E.
  now rewrite rstrip_app_nonspace.
Qed.

End MeasurementFacts.

(** X10.  A measurement written as a number with its unit is read as that
    number: an optional minus sign, digits, optionally a point or a comma
    and more digits, and then nothing, [mm] or [MM], with or without a
    blank in front, give the number the digits spell.  The one exception is
    the missing token [-999]. *)
Theorem parse_float_messy_measurement
        (neg : bool) (ip fp : str) (mark : ascii) (unit_ : str) :
  ip <> [] -> all_digits ip -> all_digits fp ->
  mark = "."%char \/ mark = ","%char ->
  In unit_ UNITS ->
  measurement neg ip fp mark unit_ <> "-999" ->
  _parse_float_messy (VStr (measurement neg ip fp mark unit_))
  = VFloat (float_of_numeral (mkNum neg ip fp)).
Proof.
  intros Hne Hip Hfp Hmark Hunit Hna.
  set (sign := if neg then ["-"%char] else [] : str).
  set (frac := match fp with [] => [] | _ :: _ => mark :: fp end).
  set (body := sign ++ ip ++ frac).
  assert (Htext : measurement neg ip fp mark unit_ = body ++ unit_).
  { unfold measurement, body. fold sign frac. now rewrite <- !app_assoc. }
  (* the characters of the number *)
  assert (Hbody : Forall (fun c => c = "-"%char \/ c = "."%char \/ c = ","%char
                                   \/ is_digit c = true) body).
  { unfold body. apply Forall_app. split.
    - destruct neg; subst sign; repeat constructor.
    - apply Forall_app. split.
      + eapply Forall_impl; [|exact Hip]. intros; auto.
      + subst frac. destruct fp as [|f fs]; [constructor|].
        constructor; [destruct Hmark as [->| ->]; auto|].
        eapply Forall_impl; [|exact Hfp]. intros; auto. }
  assert (Hnot : forall x, is_digit x = false -> x <> "-"%char -> x <> "."%char ->
                           x <> ","%char -> Forall (fun c => c <> x) body).
  { intros x Hx H1 H2 H3. eapply Forall_impl; [|exact Hbody].
    intros c [->|[->|[->|Hc]]]; auto. now apply digit_not. }
  (* the first character *)
  assert (Hhead : exists c t, body = c :: t /\ (c = "-"%char \/ is_digit c = true)).
  { unfold body. destruct neg; subst sign.
    - eexists _, _. split; [reflexivity | now left].
    - destruct ip as [|d ds]; [congruence|].
      eexists _, _. split; [reflexivity|]. right. now inversion Hip. }
  destruct Hhead as (c & t & Hct & Hc).
  assert (Hcs : is_space c = false).
  { destruct Hc as [->|Hc]; [reflexivity | now apply digit_not_space]. }
  (* the last character *)
  assert (Hlast : exists i z, body ++ unit_ = i ++ [z] /\ is_space z = false).
  { assert (Hb : exists i z, body = i ++ [z] /\ is_space z = false).
    { unfold body, frac. destruct fp as [|f fs].
      - destruct (exists_last Hne) as (i & z & Hi). rewrite Hi in *.
        exists (sign ++ i), z. rewrite !app_nil_r, app_assoc. split; [reflexivity|].
        apply digit_not_space. apply Forall_app in Hip as [_ Hz]. now inversion Hz.
      - assert (Hfne : f :: fs <> []) by discriminate.
        destruct (exists_last Hfne) as (i & z & Hi). rewrite Hi in *.
        exists (sign ++ ip ++ mark :: i), z. split.
        + now rewrite <- !app_assoc.
        + apply digit_not_space. apply Forall_app in Hfp as [_ Hz]. now inversion Hz. }
    destruct Hb as (i & z & Hi & Hz).
    destruct Hunit as [<-|[<-|[<-|[<-|[<-|[]]]]]].
    - exists i, z. now rewrite app_nil_r.
    - exists (body ++ "m"), "m"%char. now rewrite <- app_assoc.
    - exists (body ++ " m"), "m"%char. now rewrite <- app_assoc.
    - exists (body ++ "M"), "M"%char. now rewrite <- app_assoc.
    - exists (body ++ " M"), "M"%char. now rewrite <- app_assoc. }
  destruct Hlast as (i & z & Hiz & Hz).
  assert (Hstrip : strip (body ++ unit_) = body ++ unit_).
  { rewrite Hct in Hiz |- *. cbn [app] in Hiz |- *. exact (strip_fixed c z _ i Hcs Hz Hiz). }
  (* the text after the unit was taken care of *)
  assert (Hclean : exists u, In u ["" : str; "mm" : str; " mm" : str]
                             /\ clean_units (body ++ unit_)
                                = sign ++ ip
                                  ++ match fp with [] => [] | _ :: _ => "."%char :: fp end ++ u).
  { assert (Hb3 : map (fun x => if Ascii.eqb "," x then "."%char else x) body
                  = sign ++ ip ++ match fp with [] => [] | _ :: _ => "."%char :: fp end).
    { assert (Hd : forall s, all_digits s ->
                             map (fun x => if Ascii.eqb "," x then "."%char else x) s = s).
      { intros s. apply map_id_on. intros x Hx.
        destruct (Ascii.eqb_spec "," x) as [<-|]; [discriminate | reflexivity]. }
      unfold body, frac. rewrite !map_app, (Hd ip Hip). f_equal.
      - destruct neg; reflexivity.
      - f_equal. destruct fp as [|f fs]; [reflexivity|].
        change (map _ (mark :: f :: fs))
          with ((if Ascii.eqb "," mark then "."%char else mark)
                :: map (fun x => if Ascii.eqb "," x then "."%char else x) (f :: fs)).
        rewrite (Hd (f :: fs) Hfp).
        destruct Hmark as [->| ->]; reflexivity. }
    assert (Hstep : forall u1 u2 u3,
               replace " mm" "" unit_ = u1 -> replace "MM" "mm" u1 = u2 ->
               map (fun x => if Ascii.eqb "," x then "."%char else x) u2 = u3 ->
               clean_units (body ++ unit_)
               = (sign ++ ip ++ match fp with [] => [] | _ :: _ => "."%char :: fp end) ++ u3).
    { intros u1 u2 u3 H1 H2 H3. unfold clean_units.
      change (list_ascii_of_string " mm") with (" "%char :: list_ascii_of_string "mm").
      rewrite replace_prefix by (apply Hnot; [reflexivity | discriminate ..]).
      change (" "%char :: list_ascii_of_string "mm") with (list_ascii_of_string " mm").
      rewrite H1.
      change (list_ascii_of_string "MM") with ("M"%char :: list_ascii_of_string "M").
      rewrite replace_prefix by (apply Hnot; [reflexivity | discriminate ..]).
      change ("M"%char :: list_ascii_of_string "M") with (list_ascii_of_string "MM").
      rewrite H2.
      change (list_ascii_of_string ",") with [","%char].
      change (list_ascii_of_string ".") with ["."%char].
      now rewrite replace_single, map_app, Hb3, H3. }
    destruct Hunit as [<-|[<-|[<-|[<-|[<-|[]]]]]].
    - exists "". split; [now left|].
      rewrite (Hstep "" "" "") by reflexivity. now rewrite <- !app_assoc.
    - exists "mm". split; [right; now left|].
      rewrite (Hstep "mm" "mm" "mm") by reflexivity. now rewrite <- !app_assoc.
    - exists "". split; [now left|].
      rewrite (Hstep "" "" "") by reflexivity. now rewrite <- !app_assoc.
    - exists "mm". split; [right; now left|].
      rewrite (Hstep "MM" "mm" "mm") by reflexivity. now rewrite <- !app_assoc.
    - exists " mm". split; [right; right; now left|].
      rewrite (Hstep " MM" " mm" " mm") by reflexivity. now rewrite <- !app_assoc. }
  destruct Hclean as (u & Hu & Hclean).
  unfold _parse_float_messy. cbn [isna py_str].
  rewrite Htext in Hna |- *. rewrite Hstrip.
  assert (Hmem : mem (body ++ unit_) NA_TOKENS = false).
  { unfold mem, NA_TOKENS. cbn [existsb].
    rewrite (eqb_str_neq _ "-999" Hna), !orb_false_r.
    rewrite Hct. cbn [app eqb_str em_dash list_ascii_of_string].
    destruct Hc as [->|Hc]; [reflexivity|].
    destruct (Ascii.eqb_spec c "N") as [->|_]; [discriminate|].
    destruct (Ascii.eqb_spec c (ascii_of_nat 226)) as [->|_]; [discriminate|].
    reflexivity. }
  rewrite Hmem, word_zero_lower.
  assert (Hz0 : eqb_str (lower (body ++ unit_)) "nulle" = false).
  { rewrite Hct. cbn [app lower map eqb_str list_ascii_of_string].
    destruct Hc as [->|Hc]; [reflexivity|].
    destruct (Ascii.eqb_spec (lower_char c) "n") as [E|_]; [|reflexivity].
    exfalso. revert Hc E. clear.
    destruct c as [[] [] [] [] [] [] [] []]; vm_compute; discriminate. }
  rewrite Hz0. fold (clean_units (body ++ unit_)). rewrite Hclean.
  unfold sign. now rewrite (search_number_numeral neg ip fp u Hne Hip Hfp Hu).
Qed.

Lemma parse_float_messy_measurement_witness :
  _parse_float_messy (VStr "-12,50 MM")
  = VFloat (float_of_numeral (mkNum true "12" "50")).
Proof.
  apply (parse_float_messy_measurement true "12" "50" ","%char " MM").
  - discriminate.
  - repeat constructor.
  - repeat constructor.
  - now right.
  - right; right; right; right; now left.
  - vm_compute. discriminate.
Defined.

(** ** The file loader, row by row *)

Section RowFacts.

Lemma combine_map_forms {X A B : Type} (F : X -> A) (V : X -> B) (xs : list X) :
  combine (map F xs) (map V xs) = map (fun x => (F x, V x)) xs.
Proof. induction xs as [|x xs IH]; simpl; [reflexivity | now rewrite IH]. Qed.

Lemma set_col_map {X : Type} (cols : list str) (F : X -> list cell) (V : X -> cell)
      (xs : list X) (c : str) :
  set_col (mkDF cols (map F xs)) c (map V xs)
  = mkDF (cols_with cols c) (map (fun x => put cols c (V x) (F x)) xs).
Proof.
  unfold set_col, cols_with, put. cbn [columns rows].
  rewrite combine_map_forms.
  destruct (col_pos c cols); now rewrite map_map.
Qed.

Lemma set_scalar_map {X : Type} (cols : list str) (F : X -> list cell) (v : cell)
      (xs : list X) (c : str) :
  set_scalar (mkDF cols (map F xs)) c v
  = mkDF (cols_with cols c) (map (fun x => put cols c v (F x)) xs).
Proof.
  unfold set_scalar. cbn [rows]. rewrite length_map, <- map_const.
  apply set_col_map.
Qed.

Lemma get_col_map {X : Type} (cols : list str) (F : X -> list cell) (xs : list X) (c : str) :
  col_pos c cols <> None ->
  get_col (mkDF cols (map F xs)) c = Ok (map (fun x => cell_at cols c (F x)) xs).
Proof.
  intros Hc. unfold get_col, cell_at. cbn [columns rows].
  destruct (col_pos c cols); [|congruence]. now rewrite map_map.
Qed.

Lemma get_col_map_at {X : Type} (cols : list str) (F : X -> list cell) (xs : list X)
      (c : str) (j : nat) :
  col_pos c cols = Some j ->
  get_col (mkDF cols (map F xs)) c = Ok (map (fun x => nth j (F x) VNaN) xs).
Proof.
  intros Hc. unfold get_col. cbn [columns rows]. now rewrite Hc, map_map.
Qed.

Lemma col_pos_cols_with (cols : list str) (c c' : str) :
  col_pos c' (cols_with cols c) = None <-> col_pos c' cols = None /\ c' <> c.
Proof.
  unfold cols_with. destruct (col_pos c cols) as [j|] eqn:E.
  - split; [|tauto]. intros H. split; [exact H|]. intros ->. congruence.
  - destruct (list_eq_dec ascii_dec c' c) as [->|Hne].
    + rewrite (col_pos_app_new _ _ E). split; [discriminate | tauto].
    + rewrite col_pos_app_other by congruence. tauto.
Qed.

Lemma cell_at_put (cols : list str) (c c' : str) (v : cell) (r : list cell) :
  List.length r = List.length cols ->
  cell_at (cols_with cols c) c' (put cols c v r)
  = if eqb_str c' c then v else cell_at cols c' r.
Proof.
  intros Hlen. unfold cell_at, cols_with, put.
  destruct (col_pos c cols) as [j|] eqn:E.
  - destruct (eqb_str c' c) eqn:Q.
    + apply eqb_str_eq in Q. subst c'. rewrite E.
      apply nth_set_nth_same. rewrite Hlen. now apply (col_pos_bound c).
    + destruct (col_pos c' cols) as [j'|] eqn:E'; [|reflexivity].
      apply nth_set_nth_other. intros ->.
      pose proof (col_pos_inj _ _ _ _ E E') as ->. now rewrite eqb_str_refl in Q.
  - destruct (eqb_str c' c) eqn:Q.
    + apply eqb_str_eq in Q. subst c'. rewrite (col_pos_app_new _ _ E).
      rewrite app_nth2 by lia. now rewrite Hlen, Nat.sub_diag.
    + rewrite col_pos_app_other by (intros ->; now rewrite eqb_str_refl in Q).
      destruct (col_pos c' cols) as [j'|] eqn:E'; [|reflexivity].
      apply app_nth1. rewrite Hlen. now apply (col_pos_bound c').
Qed.

Lemma length_put (cols : list str) (c : str) (v : cell) (r : list cell) :
  List.length r = List.length cols ->
  List.length (put cols c v r) = List.length (cols_with cols c).
Proof.
  intros Hlen. unfold put, cols_with. destruct (col_pos c cols).
  - now rewrite length_set_nth.
  - rewrite !length_app. simpl. lia.
Qed.

Lemma length_upd (cols : list str) (c : str) (g : cell -> cell) (r : list cell) :
  List.length (upd cols c g r) = List.length r.
Proof.
  unfold upd. destruct (col_pos c cols); [apply length_set_nth | reflexivity].
Qed.

Lemma cell_at_upd_same (cols : list str) (c : str) (g : cell -> cell) (r : list cell) :
  List.length r = List.length cols -> g VNaN = VNaN ->
  cell_at cols c (upd cols c g r) = g (cell_at cols c r).
Proof.
  intros Hlen Hg. unfold cell_at, upd.
  destruct (col_pos c cols) as [j|] eqn:E; [|now rewrite Hg].
  apply nth_set_nth_same. rewrite Hlen. now apply (col_pos_bound c).
Qed.

Lemma cell_at_upd_other (cols : list str) (c c' : str) (g : cell -> cell) (r : list cell) :
  c <> c' -> cell_at cols c' (upd cols c g r) = cell_at cols c' r.
Proof.
  intros Hne. unfold cell_at, upd.
  destruct (col_pos c cols) as [j|] eqn:E; [|reflexivity].
  destruct (col_pos c' cols) as [j'|] eqn:E'; [|reflexivity].
  apply nth_set_nth_other. intros ->. apply Hne. exact (col_pos_inj _ _ _ _ E E').
Qed.

(** One pass of the coercion loop, row by row. *)
Lemma coerce_column_map {X : Type} (numeric_text : str -> option Q)
      (cols : list str) (F : X -> list cell) (xs : list X) (c : str) :
  coerce_column numeric_text (mkDF cols (map F xs)) c
  = Ok (mkDF cols
             (map (fun x => upd cols c
                                (if eqb_str c "precip_24h_mm" then _parse_float_messy
                                 else numeric_cell numeric_text)
                                (F x)) xs)).
Proof.
  unfold coerce_column, has_col, get_col, upd, set_col. cbn [columns rows].
  destruct (col_pos c cols) as [j|] eqn:E; [|reflexivity].
  cbn [bind].
  destruct (eqb_str c "precip_24h_mm"); cbn [columns rows]; rewrite ?E;
    rewrite !map_map, combine_map_forms, map_map; reflexivity.
Qed.

Lemma mapM_map {X A B : Type} (g : X -> A) (f : A -> result B) (xs : list X) :
  mapM f (map g xs) = mapM (fun x => f (g x)) xs.
Proof.
  induction xs as [|x xs IH]; [reflexivity|].
  cbn [map mapM]. now rewrite IH.
Qed.

Lemma mapM_ext_in {X B : Type} (f g : X -> result B) (xs : list X) :
  (forall x, In x xs -> f x = g x) -> mapM f xs = mapM g xs.
Proof.
  induction xs as [|x xs IH]; intros H; [reflexivity|].
  cbn [mapM]. rewrite (H x) by now left. rewrite IH; [reflexivity|].
  intros y Hy. apply H. now right.
Qed.

Lemma mapM_pure {X B : Type} (g : X -> B) (xs : list X) :
  mapM (fun x => Ok (g x)) xs = Ok (map g xs).
Proof.
  induction xs as [|x xs IH]; [reflexivity|].
  cbn [mapM map bind]. now rewrite IH.
Qed.

(** The values of a loop that returned, as a function of the element. *)
Lemma mapM_values {X B : Type} (d : B) (f : X -> result B) (xs : list X) (ys : list B) :
  mapM f xs = Ok ys ->
  ys = map (fun x => match f x with Ok y => y | Raise _ => d end) xs
  /\ forall x, In x xs -> f x = Ok (match f x with Ok y => y | Raise _ => d end).
Proof.
  revert ys; induction xs as [|x xs IH]; intros ys; cbn [mapM map].
  - intros [= <-]. split; [reflexivity | intros x []].
  - destruct (f x) as [y|] eqn:E; cbn [bind]; [|discriminate].
    destruct (mapM f xs) as [ys'|]; cbn [bind]; [|discriminate].
    intros [= <-]. destruct (IH _ eq_refl) as [-> Hall].
    split; [reflexivity|]. intros x' [<-|Hin]; [now rewrite E | auto].
Qed.

Lemma mapM_bind_raise {X B C : Type} (f : X -> result B) (k : X -> B -> C)
      (xs : list X) (e : exn) :
  mapM f xs = Raise e -> mapM (fun x => y <- f x ;; Ok (k x y)) xs = Raise e.
Proof.
  induction xs as [|x xs IH]; cbn [mapM]; [discriminate|].
  destruct (f x) as [y|e'] eqn:E; cbn [bind].
  - destruct (mapM f xs) as [ys|e'']; cbn [bind]; [discriminate|].
    intros [= <-]. now rewrite IH.
  - now intros [= <-].
Qed.

Lemma map_nth_seq_map {X A : Type} (d : X) (H : X -> A) (xs : list X) :
  map (fun i => H (nth i xs d)) (seq 0 (List.length xs)) = map H xs.
Proof.
  rewrite <- (map_map (fun i => nth i xs d) H). f_equal.
  symmetry. now apply map_nth_seq_id.
Qed.

(** A table built from columns that are given row by row. *)
Lemma from_columns_map {X : Type} (d : X) (kvs : list (str * (X -> cell))) (xs : list X) :
  from_columns (List.length xs) (map (fun kv => (fst kv, map (snd kv) xs)) kvs)
  = mkDF (map fst kvs) (map (fun x => map (fun kv => snd kv x) kvs) xs).
Proof.
  unfold from_columns. f_equal.
  - rewrite map_map. reflexivity.
  - rewrite <- (map_nth_seq_map d (fun x => map (fun kv => snd kv x) kvs) xs).
    apply map_ext_in. intros i Hi. apply in_seq in Hi.
    rewrite map_map. apply map_ext. intros [k V]. cbn [fst snd].
    rewrite (nth_indep _ VNaN (V d)) by (rewrite length_map; lia).
    apply map_nth.
Qed.

(** The choice of a column for the output, row by row. *)
Lemma pick_column_map {X : Type} (cols : list str) (F : X -> list cell) (xs : list X)
      (k : str) :
  (if has_col (mkDF cols (map F xs)) k
   then vals <- get_col (mkDF cols (map F xs)) k ;; Ok (k, vals)
   else Ok (k, repeat VNaN (List.length (rows (mkDF cols (map F xs))))))
  = Ok (k, map (fun x => cell_at cols k (F x)) xs).
Proof.
  unfold has_col, get_col, cell_at. cbn [columns rows].
  destruct (col_pos k cols); cbn [bind].
  - now rewrite map_map.
  - now rewrite length_map, <- map_const.
Qed.

Lemma set_col_map_new {X : Type} (cols : list str) (F : X -> list cell) (V : X -> cell)
      (xs : list X) (c : str) :
  col_pos c cols = None ->
  set_col (mkDF cols (map F xs)) c (map V xs)
  = mkDF (cols ++ [c]) (map (fun x => F x ++ [V x]) xs).
Proof.
  intros Hc. rewrite set_col_map. unfold cols_with, put. now rewrite Hc.
Qed.

Lemma set_col_map_old {X : Type} (cols : list str) (F : X -> list cell) (V : X -> cell)
      (xs : list X) (c : str) (j : nat) :
  col_pos c cols = Some j ->
  set_col (mkDF cols (map F xs)) c (map V xs)
  = mkDF cols (map (fun x => set_nth j (V x) (F x)) xs).
Proof.
  intros Hc. rewrite set_col_map. unfold cols_with, put. now rewrite Hc.
Qed.

Lemma nth_map_in {X A : Type} (V : X -> A) (d : X) (d' : A) (xs : list X) (i : nat) :
  i < List.length xs -> nth i (map V xs) d' = V (nth i xs d).
Proof.
  intros Hi. rewrite (nth_indep _ d' (V d)) by (now rewrite length_map).
  apply map_nth.
Qed.

End RowFacts.

Section LoadOneRows.

Variable numeric_text : str -> option Q.

Lemma raw_cells_length (sep : str) (cols : list str) (line : str) :
  cols <> [] -> List.length (raw_cells sep cols line) = List.length cols.
Proof.
  intros Hne. unfold raw_cells. rewrite !length_map. now apply tokenize_length.
Qed.

(** [load_one] is the row-by-row loader of its data lines. *)
Lemma load_one_by_rows (f : File) (label sep : str) (cols : list str) :
  _read_header f = Ok (label, sep, cols) ->
  load_one numeric_text f
  = (records <- mapM (tidy_row numeric_text label sep cols) (data_lines f) ;;
     if has_col (mkDF cols []) "present_weather_code"
     then Ok (mkDF KEEP_COLS records)
     else Raise (TypeError "data type 'Int64' not understood")).
Proof.
  intros Hh.
  pose proof (read_header_cols_nonempty _ _ _ _ Hh) as Hne.
  unfold load_one. rewrite Hh. cbn [bind].
  set (xs := data_lines f).
  set (R0 := raw_cells sep cols).
  assert (HR0 : forall x, List.length (R0 x) = List.length cols)
    by (intros x; now apply raw_cells_length).
  replace (mkDF (columns (_read_rows_raw f sep cols))
                (map (map replace_na) (rows (_read_rows_raw f sep cols))))
    with (mkDF cols (map R0 xs))
    by (unfold _read_rows_raw, R0, raw_cells, xs, data_lines; cbn [columns rows];
        now rewrite map_map).
  cbn [coerce_columns].
  rewrite coerce_column_map. cbn [bind].
  rewrite coerce_column_map. cbn [bind].
  rewrite coerce_column_map. cbn [bind].
  rewrite coerce_column_map. cbn [bind].
  replace (eqb_str "t_max_c" "precip_24h_mm") with false by reflexivity.
  replace (eqb_str "t_min_c" "precip_24h_mm") with false by reflexivity.
  replace (eqb_str "precip_24h_mm" "precip_24h_mm") with true by reflexivity.
  replace (eqb_str "present_weather_code" "precip_24h_mm") with false by reflexivity.
  set (F4 := fun x : str =>
               upd cols "present_weather_code" (numeric_cell numeric_text)
                   (upd cols "precip_24h_mm" _parse_float_messy
                        (upd cols "t_min_c" (numeric_cell numeric_text)
                             (upd cols "t_max_c" (numeric_cell numeric_text) (R0 x))))).
  assert (HF4 : forall x, List.length (F4 x) = List.length cols)
    by (intros x; unfold F4; now rewrite !length_upd).
  assert (Hd4 : forall x, cell_at cols "date" (F4 x) = cell_at cols "date" (R0 x))
    by (intros x; unfold F4; now rewrite !cell_at_upd_other by discriminate).
  set (P := fun x : str => _parse_date_any (cell_at cols "date" (R0 x))).
  set (K := fun (x : str) (ts : cell) =>
              [ VStr label; ts; dt_date ts; dt_time ts;
                numeric_cell numeric_text (cell_at cols "t_max_c" (R0 x));
                numeric_cell numeric_text (cell_at cols "t_min_c" (R0 x));
                _parse_float_messy (cell_at cols "precip_24h_mm" (R0 x));
                cell_at cols "precip_type" (R0 x);
                code_cell numeric_text (cell_at cols "present_weather_code" (R0 x));
                cell_at cols "notes" (R0 x) ]).
  change (tidy_row numeric_text label sep cols) with (fun x => ts <- P x ;; Ok (K x ts)).
  match goal with
  | |- bind ?step _ = _ =>
      assert (Hdate : step = (stamps <- mapM P xs ;;
                              Ok (set_col (mkDF cols (map F4 xs)) "timestamp" stamps)))
  end.
  { unfold has_col. cbn [columns].
    destruct (col_pos "date" cols) as [jd|] eqn:Ed.
    - rewrite (get_col_map_at _ _ _ _ jd Ed). cbn [bind]. rewrite mapM_map.
      f_equal. apply mapM_ext_in. intros x _. unfold P.
      rewrite <- Hd4. unfold cell_at. now rewrite Ed.
    - rewrite (mapM_ext_in P (fun _ => Ok VNaT)), mapM_pure.
      + cbn [bind]. unfold set_scalar. cbn [rows]. now rewrite length_map, map_const.
      + intros x _. unfold P, cell_at. now rewrite Ed. }
  rewrite Hdate. clear Hdate.
  destruct (mapM P xs) as [stamps|e] eqn:Hm; cbn [bind].
  2:{ now rewrite (mapM_bind_raise P K xs e Hm). }
  destruct (mapM_values VNaT P xs stamps Hm) as [Hst HP].
  set (S := fun x : str => match P x with Ok y => y | Raise _ => VNaT end) in *.
  rewrite (mapM_ext_in (fun x => ts <- P x ;; Ok (K x ts)) (fun x => Ok (K x (S x)))).
  2:{ intros x Hx. pose proof (HP x Hx) as E. rewrite E. reflexivity. }
  rewrite mapM_pure. cbn [bind]. subst stamps. clear Hm HP.
  rewrite set_col_map, set_scalar_map.
  set (cols5 := cols_with cols "timestamp").
  set (F5 := fun x : str => put cols "timestamp" (S x) (F4 x)).
  set (cols6 := cols_with cols5 "station").
  set (F6 := fun x : str => put cols5 "station" (VStr label) (F5 x)).
  change (mkDF cols6 (map (fun x : str =>
                            put cols5 "station" (VStr label)
                                (put cols "timestamp" (S x) (F4 x))) xs))
    with (mkDF cols6 (map F6 xs)).
  assert (HF5 : forall x, List.length (F5 x) = List.length cols5)
    by (intros x; unfold F5, cols5; now apply length_put).
  assert (HF6 : forall x, List.length (F6 x) = List.length cols6)
    by (intros x; unfold F6, cols6; now apply length_put).
  assert (Hat : forall k x,
             cell_at cols6 k (F6 x)
             = if eqb_str k "station" then VStr label
               else if eqb_str k "timestamp" then S x
                    else cell_at cols k (F4 x)).
  { intros k x. unfold F6, cols6. rewrite cell_at_put by apply HF5.
    destruct (eqb_str k "station"); [reflexivity|].
    unfold F5, cols5. now rewrite cell_at_put by apply HF4. }
  assert (Hts6 : col_pos "timestamp" cols6 <> None).
  { intros H. apply col_pos_cols_with in H as [H _].
    apply col_pos_cols_with in H as [_ H]. congruence. }
  replace (filter (fun k : str => negb (mem k ["timestamp" : str; "date" : str; "time" : str]))
                  KEEP_COLS)
    with ["station" : str; "t_max_c" : str; "t_min_c" : str; "precip_24h_mm" : str;
          "precip_type" : str; "present_weather_code" : str; "notes" : str]
    by reflexivity.
  cbn [mapM]. rewrite !pick_column_map. cbn [bind rows]. rewrite length_map.
  set (kvs := [ ("station" : str, fun x => cell_at cols6 "station" (F6 x));
                ("t_max_c" : str, fun x => cell_at cols6 "t_max_c" (F6 x));
                ("t_min_c" : str, fun x => cell_at cols6 "t_min_c" (F6 x));
                ("precip_24h_mm" : str, fun x => cell_at cols6 "precip_24h_mm" (F6 x));
                ("precip_type" : str, fun x => cell_at cols6 "precip_type" (F6 x));
                ("present_weather_code" : str,
                 fun x => cell_at cols6 "present_weather_code" (F6 x));
                ("notes" : str, fun x => cell_at cols6 "notes" (F6 x)) ]).
  match goal with
  | |- context [from_columns (List.length xs) ?l] =>
      change l with (map (fun kv : str * (str -> cell) => (fst kv, map (snd kv) xs)) kvs)
  end.
  rewrite (from_columns_map [] kvs xs). unfold kvs. cbn [map fst snd]. clear kvs.
  rewrite (get_col_map _ _ _ _ Hts6). cbn [bind].
  rewrite set_col_map_new by reflexivity. cbn [app].
  rewrite (get_col_map_at _ _ _ _ 7) by reflexivity. cbn [bind nth].
  rewrite map_map, set_col_map_new by reflexivity. cbn [app].
  rewrite (get_col_map_at _ _ _ _ 7) by reflexivity. cbn [bind nth].
  rewrite map_map, set_col_map_new by reflexivity. cbn [app].
  destruct (col_pos "present_weather_code" cols) as [jc|] eqn:Ec.
  2:{ assert (Hc6 : col_pos "present_weather_code" cols6 = None).
      { apply col_pos_cols_with. split; [|discriminate].
        apply col_pos_cols_with. split; [exact Ec | discriminate]. }
      unfold df_get, get_col, has_col. cbn [columns]. rewrite Hc6, Ec. reflexivity. }
  assert (Hc6 : col_pos "present_weather_code" cols6 <> None).
  { intros H. apply col_pos_cols_with in H as [H _].
    apply col_pos_cols_with in H as [H _]. congruence. }
  replace (has_col (mkDF cols []) "present_weather_code") with true
    by (unfold has_col; cbn [columns]; now rewrite Ec).
  unfold df_get. rewrite (get_col_map _ _ _ _ Hc6).
  cbn [to_numeric py_round bind astype_Int64]. rewrite !map_map.
  rewrite (set_col_map_old _ _ _ _ _ 5) by reflexivity. cbn [set_nth].
  replace (filter (has_col _) KEEP_COLS) with KEEP_COLS by reflexivity.
  unfold select, KEEP_COLS. cbn [mapM].
  repeat (erewrite get_col_map_at by reflexivity; cbn [bind nth]).
  cbn [rows]. rewrite length_map.
  unfold from_columns. cbn [map fst snd]. f_equal. f_equal.
  rewrite <- (map_nth_seq_map [] (fun x => K x (S x)) xs).
  apply map_ext_in. intros i Hi. apply in_seq in Hi.
  rewrite !(nth_map_in _ [] VNaN xs i) by lia.
  generalize (nth i xs []). intros x.
  assert (Hcell : forall k, eqb_str k "station" = false -> eqb_str k "timestamp" = false ->
                            cell_at cols6 k (F6 x) = cell_at cols k (F4 x))
    by (intros k H1 H2; now rewrite Hat, H1, H2).
  rewrite (Hcell "t_max_c" eq_refl eq_refl), (Hcell "t_min_c" eq_refl eq_refl),
    (Hcell "precip_24h_mm" eq_refl eq_refl), (Hcell "precip_type" eq_refl eq_refl),
    (Hcell "present_weather_code" eq_refl eq_refl), (Hcell "notes" eq_refl eq_refl).
  replace (cell_at cols6 "station" (F6 x)) with (VStr label) by (symmetry; apply Hat).
  replace (cell_at cols6 "timestamp" (F6 x)) with (S x) by (symmetry; apply Hat).
  assert (Hn : numeric_cell numeric_text VNaN = VNaN) by reflexivity.
  assert (Hp : _parse_float_messy VNaN = VNaN) by reflexivity.
  assert (E1 : cell_at cols "t_max_c" (F4 x)
               = numeric_cell numeric_text (cell_at cols "t_max_c" (R0 x))).
  { unfold F4. rewrite !cell_at_upd_other by discriminate.
    now rewrite cell_at_upd_same. }
  assert (E2 : cell_at cols "t_min_c" (F4 x)
               = numeric_cell numeric_text (cell_at cols "t_min_c" (R0 x))).
  { unfold F4. rewrite !cell_at_upd_other by discriminate.
    rewrite cell_at_upd_same; [|now rewrite length_upd|assumption].
    now rewrite cell_at_upd_other by discriminate. }
  assert (E3 : cell_at cols "precip_24h_mm" (F4 x)
               = _parse_float_messy (cell_at cols "precip_24h_mm" (R0 x))).
  { unfold F4. rewrite !cell_at_upd_other by discriminate.
    rewrite cell_at_upd_same; [|now rewrite !length_upd|assumption].
    now rewrite !cell_at_upd_other by discriminate. }
  assert (E4 : cell_at cols "precip_type" (F4 x) = cell_at cols "precip_type" (R0 x)).
  { unfold F4. now rewrite !cell_at_upd_other by discriminate. }
  assert (E5 : cell_at cols "present_weather_code" (F4 x)
               = numeric_cell numeric_text (cell_at cols "present_weather_code" (R0 x))).
  { unfold F4. rewrite cell_at_upd_same; [|now rewrite !length_upd|assumption].
    now rewrite !cell_at_upd_other by discriminate. }
  assert (E6 : cell_at cols "notes" (F4 x) = cell_at cols "notes" (R0 x)).
  { unfold F4. now rewrite !cell_at_upd_other by discriminate. }
  rewrite E1, E2, E3, E4, E5, E6. reflexivity.
Qed.

End LoadOneRows.

Section RecordFacts.

Variable numeric_text : str -> option Q.

Lemma data_lines_app (p : Path) (a b : list str) :
  data_lines (mkFile p (a ++ b)) = data_lines (mkFile p a) ++ data_lines (mkFile p b).
Proof. unfold data_lines. cbn [file_lines]. apply filter_app. Qed.

(** The header depends on the header lines and the path alone. *)
Lemma read_header_region (f g : File) :
  file_path f = file_path g ->
  header_region (file_lines f) = header_region (file_lines g) ->
  _read_header f = _read_header g.
Proof.
  intros Hp Hr. unfold _read_header. now rewrite !header_loop_spec, Hp, Hr.
Qed.

(** [load_one] depends on the header and the data lines alone. *)
Lemma load_one_ext (f g : File) :
  _read_header f = _read_header g -> data_lines f = data_lines g ->
  load_one numeric_text f = load_one numeric_text g.
Proof.
  intros Hh Hd.
  destruct (_read_header g) as [[[label sep] cols]|e] eqn:Hg.
  - rewrite (load_one_by_rows numeric_text f label sep cols Hh),
      (load_one_by_rows numeric_text g label sep cols Hg).
    now rewrite Hd.
  - unfold load_one. now rewrite Hh, Hg.
Qed.

Lemma mapM_in {X B : Type} (f : X -> result B) (xs : list X) (ys : list B) (x : X) :
  mapM f xs = Ok ys -> In x xs -> exists y, f x = Ok y /\ In y ys.
Proof.
  revert ys; induction xs as [|x' xs IH]; intros ys; cbn [mapM]; [intros _ []|].
  destruct (f x') as [y'|] eqn:E; cbn [bind]; [|discriminate].
  destruct (mapM f xs) as [ys'|]; cbn [bind]; [|discriminate].
  intros [= <-] [<-|Hin].
  - exists y'. split; [exact E | now left].
  - destruct (IH _ eq_refl Hin) as (y & Hy & Hiny). exists y. split; [exact Hy | now right].
Qed.

Lemma mapM_all {X B : Type} (f : X -> result B) (xs : list X) (ys : list B) (y : B) :
  mapM f xs = Ok ys -> In y ys -> exists x, In x xs /\ f x = Ok y.
Proof.
  revert ys; induction xs as [|x' xs IH]; intros ys; cbn [mapM].
  - intros [= <-] [].
  - destruct (f x') as [y'|] eqn:E; cbn [bind]; [|discriminate].
    destruct (mapM f xs) as [ys'|]; cbn [bind]; [|discriminate].
    intros [= <-] [<-|Hin].
    + exists x'. split; [now left | exact E].
    + destruct (IH _ eq_refl Hin) as (x & Hx & Hfx). exists x. split; [now right | exact Hfx].
Qed.

(** The records of a table that was loaded. *)
Lemma load_one_records_of (f : File) (out : DataFrame) :
  load_one numeric_text f = Ok out ->
  exists label sep cols,
    _read_header f = Ok (label, sep, cols)
    /\ columns out = KEEP_COLS
    /\ mapM (tidy_row numeric_text label sep cols) (data_lines f) = Ok (rows out).
Proof.
  intros Hload.
  destruct (_read_header f) as [[[label sep] cols]|e] eqn:Hh.
  2:{ unfold load_one in Hload. rewrite Hh in Hload. discriminate. }
  rewrite (load_one_by_rows numeric_text f label sep cols Hh) in Hload.
  destruct (mapM _ (data_lines f)) as [records|] eqn:Hm; cbn [bind] in Hload; [|discriminate].
  destruct (has_col _ _); [|discriminate].
  injection Hload as <-. exists label, sep, cols. repeat split. exact Hm.
Qed.

(** A cell of a data line is a text that is no missing token, or NaN. *)
Lemma raw_cell_kind (sep : str) (cols : list str) (k line : str) :
  is_text (cell_at cols k (raw_cells sep cols line)).
Proof.
  unfold cell_at, raw_cells. destruct (col_pos k cols) as [i|]; [|now left].
  rewrite map_map.
  change VNaN with ((fun t => replace_na (VStr t)) []) at 1.
  rewrite map_nth. cbn beta. cbn [replace_na].
  destruct (mem _ NA_TOKENS) eqn:E; [now left | right; eauto].
Qed.

Lemma numeric_cell_kind (x : cell) : is_text x -> is_float (numeric_cell numeric_text x).
Proof.
  intros [->|(s & -> & _)]; [now left|].
  unfold numeric_cell. cbn [str_replace_comma to_numeric_cell].
  destruct (numeric_text _); [right; eauto | now left].
Qed.

Lemma code_cell_kind (x : cell) : is_text x -> is_code (code_cell numeric_text x).
Proof.
  intros Hx. unfold code_cell.
  destruct (numeric_cell_kind x Hx) as [->|[q ->]]; [now left|].
  right. cbn. eauto.
Qed.

Lemma parse_float_messy_kind (x : cell) : is_float (_parse_float_messy x).
Proof.
  unfold _parse_float_messy. destruct (isna x); [now left|].
  destruct (mem _ NA_TOKENS); [now left|].
  destruct (mem _ WORD_ZERO); [right; eauto|].
  destruct (search_number _); [right; eauto | now left].
Qed.

(** The day and the clock of a timestamp the date parser returned. *)
Lemma parse_date_stamp_valid (x : cell) (t : datetime) :
  _parse_date_any x = Ok (VTs t) -> valid_stamp t.
Proof.
  unfold _parse_date_any. destruct (isna x); [discriminate|].
  rewrite parse_date_text_portions.
  destruct (try_formats _ _) as [dt|] eqn:Ht; [|discriminate].
  destruct (try_formats_valid _ _ _ Ht) as (Hv & Hh & Hm).
  assert (Hdt : valid_stamp dt).
  { unfold valid_stamp. rewrite Hh, Hm. split; [exact Hv | lia]. }
  destruct (time_portion (py_str x)) as [[|c s]|].
  - now intros [= <-].
  - destruct (search_hm (c :: s)) as [[h mi]|]; [|now intros [= <-]].
    destruct (replace_hm dt h mi) as [dt'|] eqn:E; cbn [bind]; [|discriminate].
    intros [= <-]. apply replace_hm_ok in E as (-> & Hh' & Hm').
    unfold valid_stamp. cbn. split; [exact Hv | lia].
  - now intros [= <-].
Qed.

Lemma tidy_row_record (label sep : str) (cols : list str) (line : str) (r : list cell) :
  tidy_row numeric_text label sep cols line = Ok r -> tidy_record r.
Proof.
  unfold tidy_row. cbv zeta.
  destruct (_parse_date_any _) as [ts|] eqn:Hts; cbn [bind]; [|discriminate].
  intros [= <-].
  exists label, ts. do 6 eexists. split; [reflexivity|].
  split.
  { destruct (parse_date_any_stamp _ _ Hts) as [->|[t ->]]; [now left|].
    right. exists t. split; [reflexivity|]. exact (parse_date_stamp_valid _ _ Hts). }
  repeat split.
  - apply numeric_cell_kind, raw_cell_kind.
  - apply numeric_cell_kind, raw_cell_kind.
  - apply parse_float_messy_kind.
  - apply raw_cell_kind.
  - apply code_cell_kind, raw_cell_kind.
  - apply raw_cell_kind.
Qed.

End RecordFacts.

Section BlankLine.

Variable numeric_text : str -> option Q.

Lemma tokenize_blank (c : ascii) (cols : list str) :
  cols <> [] -> tokenize [c] cols [NL] = repeat ([] : str) (List.length cols).
Proof.
  intros Hne. unfold tokenize.
  assert (Hp : prepare_line [c] [NL] = []).
  { unfold prepare_line. cbn [rstrip_nl]. replace (Ascii.eqb NL NL) with true by reflexivity.
    now destruct (eqb_str [c] ","). }
  rewrite Hp. change (split [c] []) with [([] : str)].
  assert (HN : 1 <= List.length cols) by (destruct cols; [congruence | simpl; lia]).
  destruct (fit_row_cases [c] (List.length cols) [[]] HN) as (_ & Hshort & Heq).
  cbn [List.length] in Hshort, Heq.
  destruct (Nat.eq_dec (List.length cols) 1) as [E|E].
  - rewrite Heq by lia. now rewrite E.
  - rewrite Hshort by lia.
    destruct (List.length cols) as [|n]; [lia|]. cbn [Nat.sub repeat app].
    now rewrite Nat.sub_0_r.
Qed.

Lemma cell_at_missing (cols : list str) (k : str) (n : nat) :
  cell_at cols k (repeat VNaN n) = VNaN.
Proof.
  unfold cell_at. destruct (col_pos k cols); [apply nth_repeat | reflexivity].
Qed.

Lemma tidy_row_blank (label : str) (c : ascii) (cols : list str) :
  cols <> [] ->
  tidy_row numeric_text label [c] cols [NL] = Ok (missing_record label).
Proof.
  intros Hne. unfold tidy_row, raw_cells. cbv zeta.
  rewrite (tokenize_blank c cols Hne), !map_repeat.
  replace (replace_na (VStr [])) with VNaN by reflexivity.
  rewrite !cell_at_missing. reflexivity.
Qed.

End BlankLine.


(** X12.  Behind the schema line a comment line counts for nothing,
    wherever it stands: the file with the line and the file without it are
    loaded alike. *)
Theorem load_one_ignores_comments (numeric_text : str -> option Q) (p : Path)
        (pre : list str) (fl : str) (body1 body2 : list str) (c : str) :
  is_fields fl -> is_comment c ->
  load_one numeric_text (mkFile p (pre ++ fl :: body1 ++ c :: body2))
  = load_one numeric_text (mkFile p (pre ++ fl :: body1 ++ body2)).
Proof.
  intros Hfl Hc. apply load_one_ext.
  - apply read_header_region; [reflexivity|]. cbn [file_lines].
    now apply header_region_rest.
  - unfold data_lines. cbn [file_lines].
    rewrite !filter_app. cbn [filter]. rewrite !filter_app. cbn [filter].
    unfold is_comment in Hc. now rewrite Hc.
Qed.

Lemma load_one_ignores_comments_witness :
  load_one (fun _ => None) commented_file = load_one (fun _ => None) uncommented_file.
Proof.
  apply (load_one_ignores_comments (fun _ => None)); reflexivity.
Defined.

(** X13.  A blank line is not skipped: in the table of a file that holds
    one there is a record in which everything but the station is
    missing. *)
Theorem load_one_blank_line (numeric_text : str -> option Q) (f : File) (out : DataFrame) :
  load_one numeric_text f = Ok out -> In [NL] (file_lines f) ->
  exists label sep cols,
    _read_header f = Ok (label, sep, cols)
    /\ tokenize sep cols [NL] = repeat ([] : str) (List.length cols)
    /\ In (missing_record label) (rows out).
Proof.
  intros Hload Hin.
  destruct (load_one_records_of numeric_text f out Hload)
    as (label & sep & cols & Hh & _ & Hm).
  pose proof (read_header_cols_nonempty _ _ _ _ Hh) as Hne.
  destruct (separators_single sep (read_header_separator _ _ _ _ Hh)) as [c ->].
  exists label, [c], cols. split; [exact Hh|]. split; [now apply tokenize_blank|].
  assert (Hd : In [NL] (data_lines f)) by (apply filter_In; split; [exact Hin | reflexivity]).
  destruct (mapM_in _ _ _ _ Hm Hd) as (r & Hr & Hrin).
  rewrite (tidy_row_blank numeric_text label c cols Hne) in Hr.
  now injection Hr as <-.
Qed.

Lemma load_one_blank_line_witness :
  exists label sep cols,
    _read_header blank_line_file = Ok (label, sep, cols)
    /\ tokenize sep cols [NL] = repeat ([] : str) (List.length cols)
    /\ In (missing_record label)
          [ [VStr "riga"; VTs (mkDT 1925 3 4 0 0); VDate 1925 3 4; VTime 0 0;
             VNaN; VNaN; VNaN; VNaN; VNA; VNaN];
            missing_record "riga" ].
Proof.
  apply (load_one_blank_line (fun _ => None) blank_line_file
           (mkDF KEEP_COLS
                 [ [VStr "riga"; VTs (mkDT 1925 3 4 0 0); VDate 1925 3 4; VTime 0 0;
                    VNaN; VNaN; VNaN; VNaN; VNA; VNaN];
                   missing_record "riga" ])).
  - vm_compute. reflexivity.
  - right; right; now left.
Defined.

(** X14.  A table that [load_one] returns has one record for each line of
    the file that is no comment, and every record is of the kinds of the
    ten columns: the station is a text; the timestamp is missing or a day
    of the calendar with a time of the clock, and the date and the time
    are taken from it; the temperatures and the precipitation are numbers
    or NaN; the precipitation type and the notes are texts, never a
    missing token, or NaN; the weather code is an integer or NA. *)
Theorem load_one_tidy_records (numeric_text : str -> option Q) (f : File) (out : DataFrame) :
  load_one numeric_text f = Ok out ->
  columns out = KEEP_COLS
  /\ List.length (rows out) = List.length (data_lines f)
  /\ Forall tidy_record (rows out).
Proof.
  intros Hload.
  destruct (load_one_records_of numeric_text f out Hload)
    as (label & sep & cols & Hh & Hc & Hm).
  split; [exact Hc|].
  destruct (mapM_ok _ tidy_record _ _ (tidy_row_record numeric_text label sep cols) Hm)
    as [Hlen Hall].
  split; assumption.
Qed.

Lemma load_one_tidy_records_witness :
  columns riga_table = KEEP_COLS
  /\ List.length (rows riga_table) = List.length (data_lines riga_file)
  /\ Forall tidy_record (rows riga_table).
Proof.
  apply (load_one_tidy_records (fun _ => None) riga_file riga_table).
  vm_compute. reflexivity.
Defined.

(** ** The corpus merger, as a whole *)

Section CorpusFacts.

Variable numeric_text : str -> option Q.

Lemma mapM_length {X B : Type} (f : X -> result B) (xs : list X) (ys : list B) :
  mapM f xs = Ok ys -> List.length ys = List.length xs.
Proof.
  intros H. exact (proj1 (mapM_ok f (fun _ => True) xs ys (fun _ _ _ => I) H)).
Qed.

(** Once every file is loaded and there is one at least, nothing in
    [load_all] raises. *)
Lemma load_all_ok (files : list File) (frames : list DataFrame) :
  files <> [] -> mapM (load_one numeric_text) files = Ok frames ->
  load_all numeric_text files
  = Ok (mkDF KEEP_COLS
             (stable_sort corpus_leb
                          (filter has_timestamp (List.concat (map rows frames))))).
Proof.
  intros Hne Hm. unfold load_all. rewrite Hm. cbn [bind].
  destruct (mapM_ok _ loaded_frame _ _ (load_one_loaded numeric_text) Hm) as [Hlen Hall].
  assert (Hfr : frames <> []).
  { intros ->. destruct files; [congruence | discriminate]. }
  unfold concat_frames.
  rewrite (union_cols_loaded _ Hfr Hall), (flat_map_realign _ Hall).
  destruct frames as [|fr frames]; [congruence|]. cbn [bind]. reflexivity.
Qed.

Lemma mapM_perm {X B : Type} (f : X -> result B) (xs xs' : list X) :
  Permutation xs xs' ->
  forall ys, mapM f xs = Ok ys ->
  exists ys', mapM f xs' = Ok ys' /\ Permutation ys ys'.
Proof.
  induction 1 as [|x l l' _ IH|x y l|l l' l'' _ IH1 _ IH2]; intros ys; cbn [mapM].
  - intros [= <-]. now exists [].
  - destruct (f x) as [v|]; cbn [bind]; [|discriminate].
    destruct (mapM f l) as [vs|]; cbn [bind]; [|discriminate].
    intros [= <-]. destruct (IH _ eq_refl) as (vs' & -> & Hp).
    exists (v :: vs'). split; [reflexivity | now constructor].
  - destruct (f y) as [v|]; cbn [bind]; [|discriminate].
    destruct (f x) as [w|]; cbn [bind]; [|discriminate].
    destruct (mapM f l) as [vs|]; cbn [bind]; [|discriminate].
    intros [= <-]. exists (w :: v :: vs). split; [reflexivity | constructor].
  - intros Hm. destruct (IH1 _ Hm) as (ys' & Hm' & Hp).
    destruct (IH2 _ Hm') as (ys'' & Hm'' & Hp').
    exists ys''. split; [exact Hm'' | now transitivity ys'].
Qed.

Lemma concat_perm {A : Type} (l l' : list (list A)) :
  Permutation l l' -> Permutation (List.concat l) (List.concat l').
Proof.
  induction 1 as [|x l l' _ IH|x y l|l l' l'' _ IH1 _ IH2]; cbn [List.concat].
  - constructor.
  - now apply Permutation_app_head.
  - rewrite !app_assoc. apply Permutation_app_tail, Permutation_app_comm.
  - now transitivity (List.concat l').
Qed.

Lemma filter_perm {A : Type} (p : A -> bool) (l l' : list A) :
  Permutation l l' -> Permutation (filter p l) (filter p l').
Proof.
  induction 1 as [|x l l' _ IH|x y l|l l' l'' _ IH1 _ IH2]; cbn [filter].
  - constructor.
  - destruct (p x); [now constructor | exact IH].
  - destruct (p x), (p y); try reflexivity. constructor.
  - now transitivity (filter p l').
Qed.

(** The records of a loaded table, one by one. *)
Lemma load_one_rows_tidy (f : File) (out : DataFrame) :
  load_one numeric_text f = Ok out -> Forall tidy_record (rows out).
Proof.
  intros Hload.
  destruct (load_one_records_of numeric_text f out Hload)
    as (label & sep & cols & _ & _ & Hm).
  exact (proj2 (mapM_ok _ tidy_record _ _
                  (tidy_row_record numeric_text label sep cols) Hm)).
Qed.

Lemma tidy_record_stamped (r : list cell) :
  tidy_record r -> has_timestamp r = true -> corpus_record r.
Proof.
  intros Hr Hts. split; [exact Hr|].
  destruct Hr as (label & ts & a & b & p & ty & code & notes & -> & Hstamp & _).
  unfold has_timestamp in Hts. cbn [nth] in Hts |- *.
  destruct Hstamp as [->|(t & -> & Hv)]; [discriminate|].
  exists t. repeat split; auto; apply Hv.
Qed.

End CorpusFacts.

(** X15.  [load_all] ends in one of three ways: without a file it raises
    the [ValueError] of the concatenation; when a file fails to load it
    raises the error of the first such file; and once every file is
    loaded it returns the corpus. *)
Theorem load_all_outcome (numeric_text : str -> option Q) (files : list File) :
  load_all numeric_text [] = Raise (ValueError "No objects to concatenate")
  /\ (forall e, mapM (load_one numeric_text) files = Raise e ->
                load_all numeric_text files = Raise e)
  /\ (forall pre f e,
        Forall (fun g => exists out, load_one numeric_text g = Ok out) pre ->
        load_one numeric_text f = Raise e ->
        forall post, load_all numeric_text (pre ++ f :: post) = Raise e)
  /\ (forall frames,
        files <> [] -> mapM (load_one numeric_text) files = Ok frames ->
        exists corpus, load_all numeric_text files = Ok corpus).
Proof.
  split; [reflexivity|]. split; [|split].
  - intros e Hm. unfold load_all. now rewrite Hm.
  - intros pre f e Hpre Hf post. unfold load_all.
    assert (Hm : mapM (load_one numeric_text) (pre ++ f :: post) = Raise e).
    { induction Hpre as [|g pre [out Hg] _ IH]; cbn [app mapM].
      - now rewrite Hf.
      - rewrite Hg. cbn [bind]. now rewrite IH. }
    now rewrite Hm.
  - intros frames Hne Hm. eexists. exact (load_all_ok numeric_text files frames Hne Hm).
Qed.

(** X16.  The order of the files decides nothing but the order of the
    records that tie: when the files are given in another order the corpus
    is returned all the same, and it holds the same records, each as
    often. *)
Theorem load_all_any_order (numeric_text : str -> option Q)
        (files files' : list File) (corpus : DataFrame) :
  Permutation files files' ->
  load_all numeric_text files = Ok corpus ->
  exists corpus',
    load_all numeric_text files' = Ok corpus'
    /\ columns corpus' = columns corpus
    /\ Permutation (rows corpus') (rows corpus).
Proof.
  intros Hperm Hload.
  destruct (load_all_unfold numeric_text files corpus Hload) as (frames & Hm & _ & ->).
  destruct (mapM_perm _ _ _ Hperm _ Hm) as (frames' & Hm' & Hp).
  assert (Hne : files' <> []).
  { intros ->. apply Permutation_sym, Permutation_nil in Hperm. subst files.
    cbn in Hm. injection Hm as <-. discriminate. }
  rewrite (load_all_ok numeric_text files' frames' Hne Hm').
  eexists. split; [reflexivity|]. split; [reflexivity|]. cbn [rows].
  etransitivity; [apply stable_sort_perm|].
  etransitivity; [|symmetry; apply stable_sort_perm].
  apply filter_perm, concat_perm, Permutation_map. now symmetry.
Qed.

Lemma load_all_any_order_witness :
  exists corpus',
    load_all (fun _ => None) [liepaja_file; riga_file; riga_file] = Ok corpus'
    /\ columns corpus' = columns sample_corpus
    /\ Permutation (rows corpus') (rows sample_corpus).
Proof.
  apply (load_all_any_order (fun _ => None) [riga_file; liepaja_file; riga_file]).
  - apply perm_swap.
  - vm_compute. reflexivity.
Defined.

(** X17.  Every record of the corpus is a record of the kinds of the ten
    columns that has a timestamp: a day of the calendar with a time of the
    clock, with that day in the date column and that time in the time
    column. *)
Theorem load_all_corpus_records (numeric_text : str -> option Q)
        (files : list File) (corpus : DataFrame) :
  load_all numeric_text files = Ok corpus ->
  Forall corpus_record (rows corpus).
Proof.
  intros Hload.
  destruct (load_all_unfold numeric_text files corpus Hload) as (frames & Hm & _ & ->).
  cbn [rows]. apply Forall_forall. intros r Hr.
  eapply Permutation_in in Hr; [|apply stable_sort_perm].
  apply filter_In in Hr as [Hin Hts].
  apply tidy_record_stamped; [|exact Hts].
  apply in_concat in Hin as (rs & Hrs & Hin).
  apply in_map_iff in Hrs as (df & <- & Hdf).
  destruct (mapM_all _ _ _ _ Hm Hdf) as (f & _ & Hf).
  pose proof (load_one_rows_tidy numeric_text f df Hf) as Hall.
  rewrite Forall_forall in Hall. now apply Hall.
Qed.

Lemma load_all_corpus_records_witness : Forall corpus_record (rows sample_corpus).
Proof.
  apply (load_all_corpus_records (fun _ => None) [riga_file; liepaja_file; riga_file]).
  vm_compute. reflexivity.
Defined.

(** ** The clock of a timestamp, and the weather code *)

Section ClockReading.

Lemma hm_at_two (h1 h2 m1 m2 : ascii) (rest : str) :
  is_digit h1 = true -> is_digit h2 = true -> is_digit m1 = true -> is_digit m2 = true ->
  hm_at (h1 :: h2 :: ":"%char :: m1 :: m2 :: rest)
  = Some (10 * digit_val h1 + digit_val h2, 10 * digit_val m1 + digit_val m2)%Z.
Proof.
  intros H1 H2 H3 H4. unfold hm_at. now rewrite H1, H2, H3, H4.
Qed.

Lemma hm_at_one (h m1 m2 : ascii) (rest : str) :
  is_digit h = true -> is_digit m1 = true -> is_digit m2 = true ->
  hm_at (h :: ":"%char :: m1 :: m2 :: rest)
  = Some (digit_val h, 10 * digit_val m1 + digit_val m2)%Z.
Proof.
  intros H1 H2 H3. unfold hm_at.
  destruct rest as [|d rest]; cbn [andb]; rewrite ?colon_match.
  - rewrite H1, H2, H3. cbn [andb].
    destruct (Ascii.eqb_spec m1 ":") as [->|_]; [discriminate | reflexivity].
  - replace (is_digit ":") with false by reflexivity.
    rewrite H1, H2, H3. cbn [andb].
    destruct (Ascii.eqb m1 ":"); reflexivity.
Qed.

Lemma search_hm_head (s : str) (r : Z * Z) : hm_at s = Some r -> search_hm s = Some r.
Proof. intros H. destruct s; cbn [search_hm]; now rewrite H. Qed.

Lemma replace_hm_in_clock (dt : datetime) (h mi : Z) :
  (0 <= h <= 23)%Z -> (0 <= mi <= 59)%Z ->
  replace_hm dt h mi = Ok (mkDT (dt_year dt) (dt_month dt) (dt_day dt) h mi).
Proof.
  intros Hh Hm. unfold replace_hm.
  replace ((0 <=? h)%Z && (h <=? 23)%Z) with true
    by (symmetry; apply andb_true_intro; split; apply Z.leb_le; lia).
  replace ((0 <=? mi)%Z && (mi <=? 59)%Z) with true
    by (symmetry; apply andb_true_intro; split; apply Z.leb_le; lia).
  reflexivity.
Qed.

End ClockReading.

(** X18.  The time of a timestamp is the first clock reading behind the
    date: a time portion that begins with two digits, a colon and two
    digits, or with one digit, a colon and two digits, gives that hour and
    that minute on the day of the date, when they are on the clock;
    whatever follows the minutes, seconds or a note, is not read. *)
Theorem parse_date_any_clock (s rest : str) (dt : datetime) (h1 h2 m1 m2 : ascii) :
  try_formats (date_portion s) _DATE_FORMATS = Some dt ->
  is_digit h1 = true -> is_digit h2 = true -> is_digit m1 = true -> is_digit m2 = true ->
  (10 * digit_val h1 + digit_val h2 <= 23)%Z ->
  (10 * digit_val m1 + digit_val m2 <= 59)%Z ->
  (time_portion s = Some (h1 :: h2 :: ":"%char :: m1 :: m2 :: rest) ->
   _parse_date_any (VStr s)
   = Ok (VTs (mkDT (dt_year dt) (dt_month dt) (dt_day dt)
                   (10 * digit_val h1 + digit_val h2) (10 * digit_val m1 + digit_val m2))))
  /\ (time_portion s = Some (h2 :: ":"%char :: m1 :: m2 :: rest) ->
      _parse_date_any (VStr s)
      = Ok (VTs (mkDT (dt_year dt) (dt_month dt) (dt_day dt)
                      (digit_val h2) (10 * digit_val m1 + digit_val m2)))).
Proof.
  intros Hdt H1 H2 H3 H4 Hh Hm.
  pose proof (digit_val_bounds _ H1) as B1. pose proof (digit_val_bounds _ H2) as B2.
  pose proof (digit_val_bounds _ H3) as B3. pose proof (digit_val_bounds _ H4) as B4.
  unfold _parse_date_any. cbn [isna py_str].
  rewrite parse_date_text_portions, Hdt.
  split; intros ->.
  - rewrite (search_hm_head _ _ (hm_at_two h1 h2 m1 m2 rest H1 H2 H3 H4)).
    rewrite replace_hm_in_clock by lia. reflexivity.
  - rewrite (search_hm_head _ _ (hm_at_one h2 m1 m2 rest H2 H3 H4)).
    rewrite replace_hm_in_clock by lia. reflexivity.
Qed.

Lemma parse_date_any_clock_witness :
  _parse_date_any (VStr "04.03.1925 14:30:59 (late)")
  = Ok (VTs (mkDT 1925 3 4 14 30)).
Proof.
  refine (proj1 (parse_date_any_clock "04.03.1925 14:30:59 (late)" ":59 (late)"
                   (mkDT 1925 3 4 0 0) "1" "4" "3" "0" _ _ _ _ _ _ _) _);
    try reflexivity; vm_compute; discriminate.
Defined.



Section RoundingFacts.


End RoundingFacts.


